(** * Object filtering and trajectory projection of the path safety checker

    A shallow embedding of
    [planning/behavior_path_planner/src/utils/path_safety_checker/objects_filtering.cpp]
    and the properties of its filters, partitioners and projectors, followed
    by the marker creator of
    [common/motion_utils/src/marker/virtual_wall_marker_creator.cpp].

    Conventions of the embedding.
    - A C++ [double] or [float] is the rational ([Q]) it denotes, and
      comparisons are the exact ones; NaN and infinities are not modelled.
      Sums and products are the mathematical ones in the first embedding
      of the loops over time ([for_double], [createPredictedPath],
      [transform]); the second one (module [Rounded]) takes the arithmetic
      as a parameter, which [Binary64.arith] instantiates with the
      rounding of IEEE 754 binary64.  Numeric results are compared with
      [==] ([Qeq]) where the code computes them along different routes.
    - A [std::vector] is a [list]; [push_back] appends at the end;
      [operator[]] and [at] are list lookups, [at] out of range is an
      exception and is modelled by [None].
    - A loop driven by a [double] counter has no structural bound: it is
      modelled with fuel, [None] meaning that the fuel ran out.
    - Functions of other packages (the route handler, [motion_utils],
      [tier4_autoware_utils], [boost::geometry], [libm]) are parameters of
      the sections that use them. *)

From Stdlib Require Import ZArith QArith Qround Qminmax String SpecFloat.
From stdpp Require Import base decidable option list strings gmap.

Local Open Scope Q_scope.

(** ** Numbers *)

#[global] Instance Qlt_decision (a b : Q) : Decision (a < b) :=
  Z_lt_dec (Qnum a * QDen b) (Qnum b * QDen a).

#[global] Instance Qle_decision (a b : Q) : Decision (a <= b) :=
  Z_le_dec (Qnum a * QDen b) (Qnum b * QDen a).

(** [std::numeric_limits<double>::max()], the largest finite binary64. *)
Definition DBL_MAX : Q := inject_Z (2 ^ 1024 - 2 ^ 971).

(** The literal [1e-3]. *)
Definition eps_1e_3 : Q := 1 # 1000.

(** ** Messages

    The message types belong to other packages; the records keep the fields
    that the code reads or copies, under their own names. *)

Module Time.
Record t := mk { sec : Z; nanosec : Z }.
Definition default : t := mk 0 0.
End Time.

Module Header.
Record t := mk { stamp : Time.t; frame_id : string }.
Definition default : t := mk Time.default EmptyString.
End Header.

Module Point.
Record t := mk { x : Q; y : Q; z : Q }.
Definition default : t := mk 0 0 0.
End Point.

Module Quaternion.
Record t := mk { x : Q; y : Q; z : Q; w : Q }.
Definition default : t := mk 0 0 0 1.
End Quaternion.

Module Pose.
Record t := mk { position : Point.t; orientation : Quaternion.t }.
Definition default : t := mk Point.default Quaternion.default.
End Pose.

Module Vector3.
Record t := mk { x : Q; y : Q; z : Q }.
Definition default : t := mk 0 0 0.
End Vector3.

Module Twist.
Record t := mk { linear : Vector3.t; angular : Vector3.t }.
Definition default : t := mk Vector3.default Vector3.default.
End Twist.

Module Accel.
Record t := mk { linear : Vector3.t; angular : Vector3.t }.
Definition default : t := mk Vector3.default Vector3.default.
End Accel.

Module PoseWithCovariance.
Record t := mk { pose : Pose.t; covariance : list Q }.
Definition default : t := mk Pose.default (replicate 36 0).
End PoseWithCovariance.

Module TwistWithCovariance.
Record t := mk { twist : Twist.t; covariance : list Q }.
Definition default : t := mk Twist.default (replicate 36 0).
End TwistWithCovariance.

Module AccelWithCovariance.
Record t := mk { accel : Accel.t; covariance : list Q }.
Definition default : t := mk Accel.default (replicate 36 0).
End AccelWithCovariance.

Module Shape.
Record t := mk { type : Z; dimensions : Vector3.t }.
Definition default : t := mk 0 Vector3.default.
End Shape.

(** [ObjectClassification]: a label (an unsigned byte) and its
    probability. *)
Module ObjectClassification.
Record t := mk { label : Z; probability : Q }.
Definition UNKNOWN : Z := 0.
Definition CAR : Z := 1.
Definition TRUCK : Z := 2.
Definition BUS : Z := 3.
Definition TRAILER : Z := 4.
Definition MOTORCYCLE : Z := 5.
Definition BICYCLE : Z := 6.
Definition PEDESTRIAN : Z := 7.
End ObjectClassification.

Module PredictedPath.
(** Modelled from the spec: the layout of a predicted path, which the code
    only hands over to the interpolation.  The spec describes it as a
    confidence score and an ordered sequence of (time offset, pose) samples
    with increasing time offsets. *)
Record t := mk { path : list (Q * Pose.t); confidence : Q }.
End PredictedPath.

Module PredictedObjectKinematics.
Record t := mk {
  initial_pose_with_covariance : PoseWithCovariance.t;
  initial_twist_with_covariance : TwistWithCovariance.t;
  initial_acceleration_with_covariance : AccelWithCovariance.t;
  predicted_paths : list PredictedPath.t }.
End PredictedObjectKinematics.

Module PredictedObject.
Record t := mk {
  object_id : list Z;
  classification : list ObjectClassification.t;
  kinematics : PredictedObjectKinematics.t;
  shape : Shape.t }.
End PredictedObject.

Module PredictedObjects.
Record t := mk { header : Header.t; objects : list PredictedObject.t }.
(** [PredictedObjects()] and a local declared without initialiser. *)
Definition default : t := mk Header.default [].
End PredictedObjects.

(** Shorthands for the two access paths that the filters read. *)
Definition twist_linear (obj : PredictedObject.t) : Vector3.t :=
  obj.(PredictedObject.kinematics)
     .(PredictedObjectKinematics.initial_twist_with_covariance)
     .(TwistWithCovariance.twist).(Twist.linear).

Definition pose_position (obj : PredictedObject.t) : Point.t :=
  obj.(PredictedObject.kinematics)
     .(PredictedObjectKinematics.initial_pose_with_covariance)
     .(PoseWithCovariance.pose).(Pose.position).

(** [filtered.objects.push_back(obj)] *)
Definition push_back_object
    (filtered : PredictedObjects.t) (obj : PredictedObject.t) : PredictedObjects.t :=
  PredictedObjects.mk filtered.(PredictedObjects.header)
                      (filtered.(PredictedObjects.objects) ++ [obj]).

(** ** Velocity gate *)

Section Velocity.

(** [std::hypot] of the C library. *)
Variable hypot : Q -> Q -> Q.

Definition v_norm (obj : PredictedObject.t) : Q :=
  hypot (twist_linear obj).(Vector3.x) (twist_linear obj).(Vector3.y).

(** [filterObjectsByVelocity(objects, velocity_threshold, max_velocity)] *)
Definition filterObjectsByVelocity
    (objects : PredictedObjects.t) (velocity_threshold max_velocity : Q)
  : PredictedObjects.t :=
  let filtered := PredictedObjects.mk objects.(PredictedObjects.header) [] in
  foldl (fun filtered obj =>
           if decide (velocity_threshold < v_norm obj /\ v_norm obj < max_velocity)
           then push_back_object filtered obj
           else filtered)
        filtered objects.(PredictedObjects.objects).

(** [filterObjectsByVelocity(objects, velocity_threshold, remove_above_threshold)] *)
Definition filterObjectsByVelocity_flag
    (objects : PredictedObjects.t) (velocity_threshold : Q)
    (remove_above_threshold : bool) : PredictedObjects.t :=
  if remove_above_threshold
  then filterObjectsByVelocity objects (- velocity_threshold) velocity_threshold
  else filterObjectsByVelocity objects velocity_threshold DBL_MAX.

End Velocity.

(** ** Class gate *)

Module ObjectTypesToCheck.
Record t := mk {
  check_car : bool;
  check_truck : bool;
  check_bus : bool;
  check_trailer : bool;
  check_unknown : bool;
  check_bicycle : bool;
  check_motorcycle : bool;
  check_pedestrian : bool }.
End ObjectTypesToCheck.

(** The disjunction [is_object_type] of [filterObjectsByClass], as a
    function of the label [t]. *)
Definition is_object_type (t : Z) (target_object_types : ObjectTypesToCheck.t) : bool :=
  (bool_decide (t = ObjectClassification.CAR)
     && target_object_types.(ObjectTypesToCheck.check_car))
  || (bool_decide (t = ObjectClassification.TRUCK)
     && target_object_types.(ObjectTypesToCheck.check_truck))
  || (bool_decide (t = ObjectClassification.BUS)
     && target_object_types.(ObjectTypesToCheck.check_bus))
  || (bool_decide (t = ObjectClassification.TRAILER)
     && target_object_types.(ObjectTypesToCheck.check_trailer))
  || (bool_decide (t = ObjectClassification.UNKNOWN)
     && target_object_types.(ObjectTypesToCheck.check_unknown))
  || (bool_decide (t = ObjectClassification.BICYCLE)
     && target_object_types.(ObjectTypesToCheck.check_bicycle))
  || (bool_decide (t = ObjectClassification.MOTORCYCLE)
     && target_object_types.(ObjectTypesToCheck.check_motorcycle))
  || (bool_decide (t = ObjectClassification.PEDESTRIAN)
     && target_object_types.(ObjectTypesToCheck.check_pedestrian)).

Section ClassGate.

(** [utils::getHighestProbLabel], defined in another file of the planner. *)
Variable getHighestProbLabel : list ObjectClassification.t -> Z.

(** [filterObjectsByClass(objects, target_object_types)]: the value of the
    in-out argument [objects] on return. *)
Definition filterObjectsByClass
    (objects : PredictedObjects.t) (target_object_types : ObjectTypesToCheck.t)
  : PredictedObjects.t :=
  let filtered_objects := PredictedObjects.default in
  let filtered_objects :=
    foldl (fun filtered_objects object =>
             let t := getHighestProbLabel object.(PredictedObject.classification) in
             if is_object_type t target_object_types
             then push_back_object filtered_objects object
             else filtered_objects)
          filtered_objects objects.(PredictedObjects.objects) in
  (* objects = std::move(filtered_objects) *)
  filtered_objects.

End ClassGate.

(** Modelled from the spec: the entry of maximum probability among [best]
    and the entries of [rest], for [utils::getHighestProbLabel]; an entry
    replaces the best one so far only with a strictly greater probability,
    so that the first-listed entry wins a tie. *)
Fixpoint highest_prob_entry
    (best : ObjectClassification.t) (rest : list ObjectClassification.t)
  : ObjectClassification.t :=
  match rest with
  | [] => best
  | c :: rest' =>
      highest_prob_entry
        (if decide (best.(ObjectClassification.probability)
                    < c.(ObjectClassification.probability))
         then c else best)
        rest'
  end.

(** Modelled from the spec: [utils::getHighestProbLabel], defined in a file
    of the planner that is not part of this development.  The spec selects
    the class with the maximum probability among the classification
    entries, the first-listed entry winning a tie.  The spec is silent on
    an object without any entry; the model answers [UNKNOWN] there. *)
Definition getHighestProbLabel_spec (classification : list ObjectClassification.t) : Z :=
  match classification with
  | [] => ObjectClassification.UNKNOWN
  | c :: rest => (highest_prob_entry c rest).(ObjectClassification.label)
  end.

(** ** Longitudinal-window gate *)

Module PathPointWithLaneId.
Record t := mk { pose : Pose.t; lane_ids : list Z }.
End PathPointWithLaneId.

Section PositionGate.

(** [motion_utils::calcSignedArcLength(points, src_point, dst_point)] *)
Variable calcSignedArcLength :
  list PathPointWithLaneId.t -> Point.t -> Point.t -> Q.

(** [filterObjectsByPosition]: the value of the in-out argument [objects]
    on return; only its [objects] field is assigned. *)
Definition filterObjectsByPosition
    (objects : PredictedObjects.t) (path_points : list PathPointWithLaneId.t)
    (current_pose : Point.t) (forward_distance backward_distance : Q)
  : PredictedObjects.t :=
  let filtered := PredictedObjects.mk objects.(PredictedObjects.header) [] in
  let filtered :=
    foldl (fun filtered obj =>
             let dist_ego_to_obj :=
               calcSignedArcLength path_points current_pose (pose_position obj) in
             if decide (- backward_distance < dist_ego_to_obj
                        /\ dist_ego_to_obj < forward_distance)
             then push_back_object filtered obj
             else filtered)
          filtered objects.(PredictedObjects.objects) in
  (* objects.objects = std::move(filtered.objects) *)
  PredictedObjects.mk objects.(PredictedObjects.header)
                      filtered.(PredictedObjects.objects).

End PositionGate.

(** ** Lanelets and polygons *)

Module Point2d.
Record t := mk { x : Q; y : Q }.
End Point2d.

Module Polygon2d.
Record t := mk { outer : list Point2d.t }.
End Polygon2d.

(** A lanelet, as far as the code looks at it: [polygon2d().basicPolygon()]. *)
Module ConstLanelet.
Record t := mk { id : Z; basicPolygon : list Point2d.t }.
End ConstLanelet.

(** ** The pipeline [filterObjects] *)

Module ObjectLaneConfiguration.
Record t := mk {
  check_current_lane : bool; check_left_lane : bool; check_right_lane : bool }.
End ObjectLaneConfiguration.

Module ObjectsFilteringParams.
Record t := mk {
  safety_check_time_horizon : Q;
  safety_check_time_resolution : Q;
  object_check_forward_distance : Q;
  object_check_backward_distance : Q;
  ignore_object_velocity_threshold : Q;
  object_types_to_check : ObjectTypesToCheck.t;
  object_lane_configuration : ObjectLaneConfiguration.t;
  include_opposite_lane : bool;
  invert_opposite_lane : bool }.
End ObjectsFilteringParams.

(** The route handler is used through one method here. *)
Module RouteHandler.
Record t := mk {
  getCenterLinePath :
    list ConstLanelet.t -> Q -> Q -> list PathPointWithLaneId.t }.
End RouteHandler.

Section Pipeline.

Variable hypot : Q -> Q -> Q.
Variable getHighestProbLabel : list ObjectClassification.t -> Z.
Variable calcSignedArcLength :
  list PathPointWithLaneId.t -> Point.t -> Point.t -> Q.

Definition filterObjects
    (objects : PredictedObjects.t) (route_handler : RouteHandler.t)
    (current_lanes : list ConstLanelet.t) (current_pose : Point.t)
    (params : ObjectsFilteringParams.t) : PredictedObjects.t :=
  match objects.(PredictedObjects.objects) with
  | [] => PredictedObjects.default
  | _ :: _ =>
      let ignore_object_velocity_threshold :=
        params.(ObjectsFilteringParams.ignore_object_velocity_threshold) in
      let object_check_forward_distance :=
        params.(ObjectsFilteringParams.object_check_forward_distance) in
      let object_check_backward_distance :=
        params.(ObjectsFilteringParams.object_check_backward_distance) in
      let target_object_types :=
        params.(ObjectsFilteringParams.object_types_to_check) in
      let filtered_objects :=
        filterObjectsByVelocity_flag hypot objects ignore_object_velocity_threshold false in
      let filtered_objects :=
        filterObjectsByClass getHighestProbLabel filtered_objects target_object_types in
      let path :=
        route_handler.(RouteHandler.getCenterLinePath)
          current_lanes object_check_backward_distance object_check_forward_distance in
      let filtered_objects :=
        filterObjectsByPosition calcSignedArcLength filtered_objects path current_pose
          object_check_forward_distance object_check_backward_distance in
      filtered_objects
  end.

End Pipeline.

(** ** Partition by lanelets *)

Section Partition.

(** [tier4_autoware_utils::toPolygon2d(obj)], the footprint of an object. *)
Variable toPolygon2d : PredictedObject.t -> Polygon2d.t.

(** [boost::geometry::disjoint] on two polygons. *)
Variable disjoint : Polygon2d.t -> Polygon2d.t -> bool.

(** The ring built from a non-empty [polygon2d]: its points copied one by
    one, then [outer().push_back(outer().front())]. *)
Definition make_lanelet_polygon (polygon2d : list Point2d.t) : Polygon2d.t :=
  let outer :=
    foldl (fun outer lanelet_point =>
             outer ++ [Point2d.mk lanelet_point.(Point2d.x) lanelet_point.(Point2d.y)])
          [] polygon2d in
  Polygon2d.mk (outer ++ option_list (head outer)).

(** The loop over [target_lanelets] for the object of index [i]: the new
    [target_indices] and the flag [is_filtered_object]. *)
Fixpoint lanelet_loop
    (i : nat) (obj_polygon : Polygon2d.t) (target_lanelets : list ConstLanelet.t)
    (target_indices : list nat) : list nat * bool :=
  match target_lanelets with
  | [] => (target_indices, false)
  | llt :: rest =>
      let polygon2d := llt.(ConstLanelet.basicPolygon) in
      match polygon2d with
      | [] => (* continue *) lanelet_loop i obj_polygon rest target_indices
      | _ :: _ =>
          let lanelet_polygon := make_lanelet_polygon polygon2d in
          if negb (disjoint lanelet_polygon obj_polygon)
          then (* break *) (target_indices ++ [i], true)
          else lanelet_loop i obj_polygon rest target_indices
      end
  end.

(** The loop [for (size_t i = 0; i < objects.objects.size(); i++)], run over
    the indices still to visit. *)
Fixpoint object_loop
    (objects : PredictedObjects.t) (target_lanelets : list ConstLanelet.t)
    (indices : list nat) (target_indices other_indices : list nat)
  : option (list nat * list nat) :=
  match indices with
  | [] => Some (target_indices, other_indices)
  | i :: indices' =>
      obj ← objects.(PredictedObjects.objects) !! i;
      let obj_polygon := toPolygon2d obj in
      let '(target_indices, is_filtered_object) :=
        lanelet_loop i obj_polygon target_lanelets target_indices in
      let other_indices :=
        if negb is_filtered_object then other_indices ++ [i] else other_indices in
      object_loop objects target_lanelets indices' target_indices other_indices
  end.

Definition separateObjectIndicesByLanelets
    (objects : PredictedObjects.t) (target_lanelets : list ConstLanelet.t)
  : option (list nat * list nat) :=
  match target_lanelets with
  | [] => Some ([], [])
  | _ :: _ =>
      object_loop objects target_lanelets
        (seq 0 (length objects.(PredictedObjects.objects))) [] []
  end.

(** [for (const size_t i : indices) out.objects.push_back(objects.objects.at(i))] *)
Fixpoint push_back_at
    (objects : PredictedObjects.t) (indices : list nat) (out : PredictedObjects.t)
  : option PredictedObjects.t :=
  match indices with
  | [] => Some out
  | i :: indices' =>
      obj ← objects.(PredictedObjects.objects) !! i;
      push_back_at objects indices' (push_back_object out obj)
  end.

Definition separateObjectsByLanelets
    (objects : PredictedObjects.t) (target_lanelets : list ConstLanelet.t)
  : option (PredictedObjects.t * PredictedObjects.t) :=
  let target_objects := PredictedObjects.default in
  let other_objects := PredictedObjects.default in
  '(target_indices, other_indices) ←
     separateObjectIndicesByLanelets objects target_lanelets;
  target_objects ← push_back_at objects target_indices target_objects;
  other_objects ← push_back_at objects other_indices other_objects;
  Some (target_objects, other_objects).

(** The lanelet has a non-empty polygon and the footprint of [obj] is not
    disjoint from its closed ring. *)
Definition meets_lanelet (obj : PredictedObject.t) (llt : ConstLanelet.t) : Prop :=
  llt.(ConstLanelet.basicPolygon) <> []
  /\ disjoint (make_lanelet_polygon llt.(ConstLanelet.basicPolygon))
              (toPolygon2d obj) = false.

(** The footprint of [obj] meets some lanelet of the list. *)
Definition meets_some_lanelet
    (target_lanelets : list ConstLanelet.t) (obj : PredictedObject.t) : Prop :=
  Exists (meets_lanelet obj) target_lanelets.

#[global] Instance meets_lanelet_dec obj llt : Decision (meets_lanelet obj llt).
Proof. unfold meets_lanelet. apply _. Defined.

#[global] Instance meets_some_lanelet_dec target_lanelets obj :
  Decision (meets_some_lanelet target_lanelets obj).
Proof. unfold meets_some_lanelet. apply _. Defined.

End Partition.

(** ** Projected paths *)

Module PoseWithVelocityStamped.
Record t := mk { time : Q; pose : Pose.t; velocity : Q }.
End PoseWithVelocityStamped.

Module PoseWithVelocityAndPolygonStamped.
Record t := mk { time : Q; pose : Pose.t; velocity : Q; poly : Polygon2d.t }.
End PoseWithVelocityAndPolygonStamped.

Module PredictedPathWithPolygon.
Record t := mk {
  confidence : Q;
  path : list PoseWithVelocityAndPolygonStamped.t }.
Definition default : t := mk 0 [].
End PredictedPathWithPolygon.

Module ExtendedPredictedObject.
Record t := mk {
  uuid : list Z;
  initial_pose : PoseWithCovariance.t;
  initial_twist : TwistWithCovariance.t;
  initial_acceleration : AccelWithCovariance.t;
  shape : Shape.t;
  predicted_paths : list PredictedPathWithPolygon.t }.
Definition default : t :=
  mk [] PoseWithCovariance.default TwistWithCovariance.default
     AccelWithCovariance.default Shape.default [].
End ExtendedPredictedObject.

(** ** Selection of the predicted paths *)

(** [std::max_element(first, last, comp)]: the iterator is the position
    together with the element it refers to, [None] is [last] (an empty
    range).  [largest] moves only when [comp] holds of the element at
    [largest] and the one at [first], in this order. *)
Fixpoint max_element_from {A : Type} (comp : A -> A -> bool)
    (largest : nat * A) (first : nat) (range : list A) : nat * A :=
  match range with
  | [] => largest
  | a :: range' =>
      max_element_from comp
        (if comp largest.2 a then (first, a) else largest) (S first) range'
  end.

Definition max_element {A : Type} (comp : A -> A -> bool) (range : list A)
  : option (nat * A) :=
  match range with
  | [] => None
  | a :: range' => Some (max_element_from comp (0%nat, a) 1%nat range')
  end.

Definition getPredictedPathFromObj
    (obj : ExtendedPredictedObject.t) (is_use_all_predicted_path : bool)
  : list PredictedPathWithPolygon.t :=
  let all := obj.(ExtendedPredictedObject.predicted_paths) in
  if negb is_use_all_predicted_path
  then
    let max_confidence_path :=
      max_element
        (fun path1 path2 =>
           bool_decide (path1.(PredictedPathWithPolygon.confidence)
                        < path2.(PredictedPathWithPolygon.confidence)))
        all in
    match max_confidence_path with
    | Some it => [it.2]
    | None => all
    end
  else all.

(** ** Loops over sample times *)

(** [for (double t = t0; t < bound; t += step) body], the state after the
    loop; [None] when [fuel] tests of the condition were not enough. *)
Fixpoint for_double {St : Type} (fuel : nat) (bound step : Q)
    (body : Q -> St -> St) (t : Q) (s : St) : option St :=
  match fuel with
  | O => None
  | S fuel' =>
      if decide (t < bound)
      then for_double fuel' bound step body (t + step) (body t s)
      else Some s
  end.

(** The value of the counter [t] at the [k]-th test of the condition:
    [0.0] followed by [k] times [t += step]. *)
Fixpoint sample_time (step : Q) (k : nat) : Q :=
  match k with
  | O => 0
  | S k' => sample_time step k' + step
  end.

(** How many sample times lie below [bound], for a positive [step]. *)
Definition sample_count (bound step : Q) : nat :=
  Z.to_nat (Qceiling (bound / step)).

(** [std::max(a, b)] *)
Definition std_max (a b : Q) : Q := if decide (a < b) then b else a.

(** ** Ego projection *)

Module EgoPredictedPathParams.
Record t := mk {
  acceleration : Q;
  time_horizon : Q;
  time_resolution : Q;
  min_slow_speed : Q }.
End EgoPredictedPathParams.

Module FrenetPoint.
Record t := mk { length : Q; distance : Q }.
End FrenetPoint.

Section EgoProjection.

(** [convertToFrenetPoint(points, search_point_geom, seg_idx)] of the
    planner's utilities. *)
Variable convertToFrenetPoint :
  list PathPointWithLaneId.t -> Point.t -> nat -> FrenetPoint.t.

(** [motion_utils::calcInterpolatedPose(points, target_length)] *)
Variable calcInterpolatedPose : list PathPointWithLaneId.t -> Q -> Pose.t.

(** One sample of the ego path, as the loop body computes it at time [t]. *)
Definition ego_sample
    (ego_predicted_path_params : EgoPredictedPathParams.t)
    (path_points : list PathPointWithLaneId.t)
    (vehicle_pose_frenet : FrenetPoint.t) (current_velocity : Q) (t : Q)
  : PoseWithVelocityStamped.t :=
  let min_slow_down_speed :=
    ego_predicted_path_params.(EgoPredictedPathParams.min_slow_speed) in
  let acceleration :=
    ego_predicted_path_params.(EgoPredictedPathParams.acceleration) in
  let velocity := std_max (current_velocity + acceleration * t) min_slow_down_speed in
  let length := current_velocity * t + (1 # 2) * acceleration * t * t in
  let pose :=
    calcInterpolatedPose path_points
      (vehicle_pose_frenet.(FrenetPoint.length) + length) in
  PoseWithVelocityStamped.mk t pose velocity.

Definition createPredictedPath (fuel : nat)
    (ego_predicted_path_params : EgoPredictedPathParams.t)
    (path_points : list PathPointWithLaneId.t) (vehicle_pose : Pose.t)
    (current_velocity : Q) (ego_seg_idx : nat)
  : option (list PoseWithVelocityStamped.t) :=
  match path_points with
  | [] => Some []
  | _ :: _ =>
      let time_horizon :=
        ego_predicted_path_params.(EgoPredictedPathParams.time_horizon) in
      let time_resolution :=
        ego_predicted_path_params.(EgoPredictedPathParams.time_resolution) in
      let predicted_path := [] in
      let vehicle_pose_frenet :=
        convertToFrenetPoint path_points vehicle_pose.(Pose.position) ego_seg_idx in
      for_double fuel (time_horizon + eps_1e_3) time_resolution
        (fun t predicted_path =>
           predicted_path
             ++ [ego_sample ego_predicted_path_params path_points
                            vehicle_pose_frenet current_velocity t])
        0 predicted_path
  end.

End EgoProjection.

(** ** Other-agent projection *)

(** [p.confidence = c] *)
Definition set_confidence (c : Q) (p : PredictedPathWithPolygon.t)
  : PredictedPathWithPolygon.t :=
  PredictedPathWithPolygon.mk c p.(PredictedPathWithPolygon.path).

(** [p.path.emplace_back(...)] *)
Definition emplace_back_sample (s : PoseWithVelocityAndPolygonStamped.t)
    (p : PredictedPathWithPolygon.t) : PredictedPathWithPolygon.t :=
  PredictedPathWithPolygon.mk p.(PredictedPathWithPolygon.confidence)
                              (p.(PredictedPathWithPolygon.path) ++ [s]).

(** An update of [extended_object.predicted_paths] in place. *)
Definition update_predicted_paths
    (f : list PredictedPathWithPolygon.t -> list PredictedPathWithPolygon.t)
    (extended_object : ExtendedPredictedObject.t) : ExtendedPredictedObject.t :=
  ExtendedPredictedObject.mk
    extended_object.(ExtendedPredictedObject.uuid)
    extended_object.(ExtendedPredictedObject.initial_pose)
    extended_object.(ExtendedPredictedObject.initial_twist)
    extended_object.(ExtendedPredictedObject.initial_acceleration)
    extended_object.(ExtendedPredictedObject.shape)
    (f extended_object.(ExtendedPredictedObject.predicted_paths)).

Section OtherAgentProjection.

(** [object_recognition_utils::calcInterpolatedPose(path, relative_time)],
    an optional pose. *)
Variable calcInterpolatedPose : PredictedPath.t -> Q -> option Pose.t.

(** [tier4_autoware_utils::toPolygon2d(pose, shape)] *)
Variable toPolygon2d : Pose.t -> Shape.t -> Polygon2d.t.

(** The body of the loop over [t] for the path of index [i]. *)
Definition transform_body
    (object : PredictedObject.t) (obj_velocity : Q) (i : nat)
    (path : PredictedPath.t) (t : Q)
    (extended_object : ExtendedPredictedObject.t) : ExtendedPredictedObject.t :=
  match calcInterpolatedPose path t with
  | Some obj_pose =>
      let obj_polygon := toPolygon2d obj_pose object.(PredictedObject.shape) in
      update_predicted_paths
        (alter (emplace_back_sample
                  (PoseWithVelocityAndPolygonStamped.mk t obj_pose obj_velocity obj_polygon))
               i)
        extended_object
  | None => extended_object
  end.

(** The loop [for (size_t i = 0; i < predicted_paths.size(); ++i)], run over
    the indices still to visit. *)
Fixpoint transform_paths (fuel : nat)
    (object : PredictedObject.t)
    (safety_check_time_horizon safety_check_time_resolution obj_velocity : Q)
    (indices : list nat) (extended_object : ExtendedPredictedObject.t)
  : option ExtendedPredictedObject.t :=
  match indices with
  | [] => Some extended_object
  | i :: indices' =>
      path ← object.(PredictedObject.kinematics)
                   .(PredictedObjectKinematics.predicted_paths) !! i;
      let extended_object :=
        update_predicted_paths
          (alter (set_confidence path.(PredictedPath.confidence)) i)
          extended_object in
      extended_object ←
        for_double fuel (safety_check_time_horizon + eps_1e_3)
          safety_check_time_resolution
          (transform_body object obj_velocity i path) 0 extended_object;
      transform_paths fuel object safety_check_time_horizon
        safety_check_time_resolution obj_velocity indices' extended_object
  end.

Definition transform (fuel : nat) (object : PredictedObject.t)
    (safety_check_time_horizon safety_check_time_resolution : Q)
  : option ExtendedPredictedObject.t :=
  let kinematics := object.(PredictedObject.kinematics) in
  let extended_object :=
    ExtendedPredictedObject.mk
      object.(PredictedObject.object_id)
      kinematics.(PredictedObjectKinematics.initial_pose_with_covariance)
      kinematics.(PredictedObjectKinematics.initial_twist_with_covariance)
      kinematics.(PredictedObjectKinematics.initial_acceleration_with_covariance)
      object.(PredictedObject.shape)
      [] in
  let obj_velocity :=
    extended_object.(ExtendedPredictedObject.initial_twist)
      .(TwistWithCovariance.twist).(Twist.linear).(Vector3.x) in
  let size := length kinematics.(PredictedObjectKinematics.predicted_paths) in
  (* predicted_paths.resize(size) *)
  let extended_object :=
    update_predicted_paths
      (fun paths =>
         take size paths
           ++ replicate (size - length paths) PredictedPathWithPolygon.default)
      extended_object in
  transform_paths fuel object safety_check_time_horizon
    safety_check_time_resolution obj_velocity (seq 0 size) extended_object.

(** What the loop over [t] is expected to emit for [path] at time [t]:
    nothing when the interpolation is undefined, else the pose with the
    [x] component of the object's initial linear velocity and the footprint
    at that pose. *)
Definition emitted_sample
    (object : PredictedObject.t) (path : PredictedPath.t) (t : Q)
  : option PoseWithVelocityAndPolygonStamped.t :=
  obj_pose ← calcInterpolatedPose path t;
  Some (PoseWithVelocityAndPolygonStamped.mk t obj_pose
          (twist_linear object).(Vector3.x)
          (toPolygon2d obj_pose object.(PredictedObject.shape))).

(** The samples expected for [path] when the loop tests its condition at
    the first [n] sample times, and the projected path made of them. *)
Definition projected_samples
    (object : PredictedObject.t) (step : Q) (n : nat) (path : PredictedPath.t)
  : list PoseWithVelocityAndPolygonStamped.t :=
  omap (fun k => emitted_sample object path (sample_time step k)) (seq 0 n).

Definition projected_path
    (object : PredictedObject.t) (step : Q) (n : nat) (path : PredictedPath.t)
  : PredictedPathWithPolygon.t :=
  PredictedPathWithPolygon.mk path.(PredictedPath.confidence)
                              (projected_samples object step n path).

End OtherAgentProjection.

(** The interpolation of a predicted path, as the spec describes it.  The
    pose between two samples is left to [interpolate], given the two poses
    and the ratio of the elapsed time. *)
Section SpecInterpolation.

Variable interpolate : Pose.t -> Pose.t -> Q -> Pose.t.

(** Modelled from the spec: the pose of a sample sequence at time [t], for
    [object_recognition_utils::calcInterpolatedPose].  It is the pose of a
    sample at the time of this sample, the interpolated pose between two
    consecutive samples, and undefined before the first and after the last
    sample (no extrapolation). *)
Fixpoint interpolate_samples (samples : list (Q * Pose.t)) (t : Q) : option Pose.t :=
  match samples with
  | [] => None
  | (t0, p0) :: rest =>
      if decide (t < t0) then None
      else if decide (t <= t0) then Some p0
      else match rest with
           | [] => None
           | (t1, p1) :: _ =>
               if decide (t < t1)
               then Some (interpolate p0 p1 ((t - t0) / (t1 - t0)))
               else interpolate_samples rest t
           end
  end.

(** Modelled from the spec:
    [object_recognition_utils::calcInterpolatedPose(path, relative_time)],
    defined in a package that is not part of this development.  The spec
    interpolates the path's pose at time [t] and leaves it undefined when
    [t] is outside the path's own span. *)
Definition calcInterpolatedPose_spec (path : PredictedPath.t) (t : Q) : option Pose.t :=
  interpolate_samples path.(PredictedPath.path) t.

End SpecInterpolation.

(** ** Centroid test and lane buckets *)

Module TargetObjectsOnLane.
Record t := mk {
  on_current_lane : list ExtendedPredictedObject.t;
  on_left_lane : list ExtendedPredictedObject.t;
  on_right_lane : list ExtendedPredictedObject.t }.
(** [TargetObjectsOnLane target_objects_on_lane{}] *)
Definition default : t := mk [] [] [].
End TargetObjectsOnLane.

Section LaneBuckets.

(** [boost::geometry::within(point, polygon)] on the centroid and the
    polygon of a lanelet. *)
Variable within : Point2d.t -> list Point2d.t -> bool.

(** The two adjacency queries of the route handler,
    [getAllLeftSharedLinestringLanelets] and
    [getAllRightSharedLinestringLanelets], given the lanelet and the flags
    [include_opposite] and [invert_opposite]. *)
Variable getAllLeftSharedLinestringLanelets :
  ConstLanelet.t -> bool -> bool -> list ConstLanelet.t.
Variable getAllRightSharedLinestringLanelets :
  ConstLanelet.t -> bool -> bool -> list ConstLanelet.t.

Variable calcInterpolatedPose : PredictedPath.t -> Q -> option Pose.t.
Variable toPolygon2d : Pose.t -> Shape.t -> Polygon2d.t.

(** The loop of [isCentroidWithinLanelets] over the lanelets, with its
    early [return true]. *)
Fixpoint centroid_loop
    (object_centroid : Point2d.t) (target_lanelets : list ConstLanelet.t) : bool :=
  match target_lanelets with
  | [] => false
  | llt :: rest =>
      if within object_centroid llt.(ConstLanelet.basicPolygon)
      then true
      else centroid_loop object_centroid rest
  end.

Definition isCentroidWithinLanelets
    (object : PredictedObject.t) (target_lanelets : list ConstLanelet.t) : bool :=
  match target_lanelets with
  | [] => false
  | _ :: _ =>
      let object_pos := pose_position object in
      let object_centroid :=
        Point2d.mk object_pos.(Point.x) object_pos.(Point.y) in
      centroid_loop object_centroid target_lanelets
  end.

(** The lambda [append_objects_on_lane]: the [std::for_each] over the
    filtered objects, run on the objects still to visit. *)
Fixpoint append_objects_on_lane (fuel : nat)
    (safety_check_time_horizon safety_check_time_resolution : Q)
    (objects : list PredictedObject.t) (check_lanes : list ConstLanelet.t)
    (lane_objects : list ExtendedPredictedObject.t)
  : option (list ExtendedPredictedObject.t) :=
  match objects with
  | [] => Some lane_objects
  | object :: rest =>
      if isCentroidWithinLanelets object check_lanes
      then
        extended_object ←
          transform calcInterpolatedPose toPolygon2d fuel object
            safety_check_time_horizon safety_check_time_resolution;
        append_objects_on_lane fuel safety_check_time_horizon
          safety_check_time_resolution rest check_lanes
          (lane_objects ++ [extended_object])
      else
        append_objects_on_lane fuel safety_check_time_horizon
          safety_check_time_resolution rest check_lanes lane_objects
  end.

(** The loop over [current_lanes] that gathers the left and the right
    lanelets: the pair [(all_left_lanelets, all_right_lanelets)]. *)
Definition gather_adjacent_lanelets
    (current_lanes : list ConstLanelet.t)
    (include_opposite invert_opposite : bool)
  : list ConstLanelet.t * list ConstLanelet.t :=
  foldl (fun '(all_left_lanelets, all_right_lanelets) current_lane =>
           (all_left_lanelets
              ++ getAllLeftSharedLinestringLanelets
                   current_lane include_opposite invert_opposite,
            all_right_lanelets
              ++ getAllRightSharedLinestringLanelets
                   current_lane include_opposite invert_opposite))
        ([], []) current_lanes.

(** [!lanes.empty()] *)
Definition not_empty (lanes : list ConstLanelet.t) : bool :=
  match lanes with [] => false | _ :: _ => true end.

Definition createTargetObjectsOnLane (fuel : nat)
    (current_lanes : list ConstLanelet.t)
    (filtered_objects : PredictedObjects.t) (params : ObjectsFilteringParams.t)
  : option TargetObjectsOnLane.t :=
  let object_lane_configuration :=
    params.(ObjectsFilteringParams.object_lane_configuration) in
  let include_opposite := params.(ObjectsFilteringParams.include_opposite_lane) in
  let invert_opposite := params.(ObjectsFilteringParams.invert_opposite_lane) in
  let safety_check_time_horizon :=
    params.(ObjectsFilteringParams.safety_check_time_horizon) in
  let safety_check_time_resolution :=
    params.(ObjectsFilteringParams.safety_check_time_resolution) in
  let '(all_left_lanelets, all_right_lanelets) :=
    gather_adjacent_lanelets current_lanes include_opposite invert_opposite in
  let target_objects_on_lane := TargetObjectsOnLane.default in
  let append := fun lane_objects check_lanes =>
    append_objects_on_lane fuel safety_check_time_horizon
      safety_check_time_resolution
      filtered_objects.(PredictedObjects.objects) check_lanes lane_objects in
  on_current_lane ←
    (if object_lane_configuration.(ObjectLaneConfiguration.check_current_lane)
        && not_empty current_lanes
     then append target_objects_on_lane.(TargetObjectsOnLane.on_current_lane)
                 current_lanes
     else Some target_objects_on_lane.(TargetObjectsOnLane.on_current_lane));
  on_left_lane ←
    (if object_lane_configuration.(ObjectLaneConfiguration.check_left_lane)
        && not_empty all_left_lanelets
     then append target_objects_on_lane.(TargetObjectsOnLane.on_left_lane)
                 all_left_lanelets
     else Some target_objects_on_lane.(TargetObjectsOnLane.on_left_lane));
  on_right_lane ←
    (if object_lane_configuration.(ObjectLaneConfiguration.check_right_lane)
        && not_empty all_right_lanelets
     then append target_objects_on_lane.(TargetObjectsOnLane.on_right_lane)
                 all_right_lanelets
     else Some target_objects_on_lane.(TargetObjectsOnLane.on_right_lane));
  Some (TargetObjectsOnLane.mk on_current_lane on_left_lane on_right_lane).

End LaneBuckets.

(** ** The arithmetic of doubles in the loops over time

    The loops of [createPredictedPath] and of [transform] are driven by a
    [double] counter: whether one more iteration runs depends on how
    [t += step] and [horizon + 1e-3] are rounded.  The two functions, and
    [createTargetObjectsOnLane] that calls [transform], are therefore
    embedded a second time with the arithmetic as a parameter.  A double is
    the rational it denotes and comparisons are the exact ones; each sum,
    each product and each decimal literal of the source goes through the
    operation of the arithmetic, one rounding per operation, in the order
    in which C++ evaluates the expression. *)

Module DoubleArith.
Record t := mk {
  (** [a + b] *)
  add : Q -> Q -> Q;
  (** [a * b] *)
  mul : Q -> Q -> Q;
  (** the double written as the decimal literal of value [q] *)
  lit : Q -> Q }.

(** The arithmetic without rounding, the one of the definitions above. *)
Definition exact : t := mk Qplus Qmult (fun q => q).
End DoubleArith.

(** IEEE 754 binary64 with rounding to nearest, ties to even, on the
    operations of the Standard Library's [SpecFloat].  The rationals of
    interest are the finite doubles; infinities and NaN have no rational
    and are not modelled. *)
Module Binary64.

Definition prec : Z := 53%Z.
Definition emax : Z := 1024%Z.

(** The double nearest to an integer. *)
Definition of_Z (z : Z) : spec_float := binary_normalize prec emax z 0 false.

(** [Some k] when [d] is the power [2^k]. *)
Fixpoint log2_exact (d : positive) : option Z :=
  match d with
  | xH => Some 0%Z
  | xO d' =>
      match log2_exact d' with
      | Some k => Some (Z.succ k)
      | None => None
      end
  | xI _ => None
  end.

(** The double of a rational.  A dyadic rational [m / 2^k] is rounded
    directly, so that a finite double is read back as itself; another
    rational is the quotient of the doubles of its numerator and its
    denominator, which is the double nearest to it when both are below
    [2^53] in magnitude, as for the decimal literals of the source. *)
Definition of_Q (q : Q) : spec_float :=
  match log2_exact (Qden q) with
  | Some k => binary_normalize prec emax (Qnum q) (- k) false
  | None => SFdiv prec emax (of_Z (Qnum q)) (of_Z (Zpos (Qden q)))
  end.

(** The rational that a finite double denotes. *)
Definition to_Q (f : spec_float) : Q :=
  match f with
  | S754_finite s m e =>
      let z := if s then Zneg m else Zpos m in
      match e with
      | Zneg p => z # (2 ^ p)
      | Z0 => inject_Z z
      | Zpos p => inject_Z (z * 2 ^ Zpos p)
      end
  | _ => 0
  end.

Definition round (q : Q) : Q := to_Q (of_Q q).

Definition add (a b : Q) : Q := to_Q (SFadd prec emax (of_Q a) (of_Q b)).

Definition mul (a b : Q) : Q := to_Q (SFmul prec emax (of_Q a) (of_Q b)).

Definition arith : DoubleArith.t := DoubleArith.mk add mul round.

End Binary64.

Module Rounded.
Section Arithmetic.

Variable A : DoubleArith.t.

(** [for (double t = t0; t < bound; t += step) body], the state after the
    loop; [None] when [fuel] tests of the condition were not enough. *)
Fixpoint for_double {St : Type} (fuel : nat) (bound step : Q)
    (body : Q -> St -> St) (t : Q) (s : St) : option St :=
  match fuel with
  | O => None
  | S fuel' =>
      if decide (t < bound)
      then for_double fuel' bound step body (DoubleArith.add A t step) (body t s)
      else Some s
  end.

(** The value of the counter [t] at the [k]-th test of the condition:
    [0.0] followed by [k] times [t += step]. *)
Fixpoint counter (step : Q) (k : nat) : Q :=
  match k with
  | O => 0
  | S k' => DoubleArith.add A (counter step k') step
  end.

(** The loop ends at the [n]-th test of its condition: the counter is
    below the bound at the tests before it, and not at this one. *)
Definition ends_after (bound step : Q) (n : nat) : Prop :=
  (forall k : nat, (k < n)%nat -> counter step k < bound)
  /\ ~ counter step n < bound.

Section EgoProjection.

Variable convertToFrenetPoint :
  list PathPointWithLaneId.t -> Point.t -> nat -> FrenetPoint.t.
Variable calcInterpolatedPose : list PathPointWithLaneId.t -> Q -> Pose.t.

(** One sample of the ego path, as the loop body computes it at time [t]. *)
Definition ego_sample
    (ego_predicted_path_params : EgoPredictedPathParams.t)
    (path_points : list PathPointWithLaneId.t)
    (vehicle_pose_frenet : FrenetPoint.t) (current_velocity : Q) (t : Q)
  : PoseWithVelocityStamped.t :=
  let min_slow_down_speed :=
    ego_predicted_path_params.(EgoPredictedPathParams.min_slow_speed) in
  let acceleration :=
    ego_predicted_path_params.(EgoPredictedPathParams.acceleration) in
  let velocity :=
    std_max
      (DoubleArith.add A current_velocity (DoubleArith.mul A acceleration t))
      min_slow_down_speed in
  let length :=
    DoubleArith.add A
      (DoubleArith.mul A current_velocity t)
      (DoubleArith.mul A
         (DoubleArith.mul A
            (DoubleArith.mul A (DoubleArith.lit A (1 # 2)) acceleration) t)
         t) in
  let pose :=
    calcInterpolatedPose path_points
      (DoubleArith.add A vehicle_pose_frenet.(FrenetPoint.length) length) in
  PoseWithVelocityStamped.mk t pose velocity.

Definition createPredictedPath (fuel : nat)
    (ego_predicted_path_params : EgoPredictedPathParams.t)
    (path_points : list PathPointWithLaneId.t) (vehicle_pose : Pose.t)
    (current_velocity : Q) (ego_seg_idx : nat)
  : option (list PoseWithVelocityStamped.t) :=
  match path_points with
  | [] => Some []
  | _ :: _ =>
      let time_horizon :=
        ego_predicted_path_params.(EgoPredictedPathParams.time_horizon) in
      let time_resolution :=
        ego_predicted_path_params.(EgoPredictedPathParams.time_resolution) in
      let predicted_path := [] in
      let vehicle_pose_frenet :=
        convertToFrenetPoint path_points vehicle_pose.(Pose.position) ego_seg_idx in
      for_double fuel
        (DoubleArith.add A time_horizon (DoubleArith.lit A (1 # 1000)))
        time_resolution
        (fun t predicted_path =>
           predicted_path
             ++ [ego_sample ego_predicted_path_params path_points
                            vehicle_pose_frenet current_velocity t])
        0 predicted_path
  end.

End EgoProjection.

Section OtherAgentProjection.

Variable calcInterpolatedPose : PredictedPath.t -> Q -> option Pose.t.
Variable toPolygon2d : Pose.t -> Shape.t -> Polygon2d.t.

(** The loop [for (size_t i = 0; i < predicted_paths.size(); ++i)], run over
    the indices still to visit. *)
Fixpoint transform_paths (fuel : nat)
    (object : PredictedObject.t)
    (safety_check_time_horizon safety_check_time_resolution obj_velocity : Q)
    (indices : list nat) (extended_object : ExtendedPredictedObject.t)
  : option ExtendedPredictedObject.t :=
  match indices with
  | [] => Some extended_object
  | i :: indices' =>
      path ← object.(PredictedObject.kinematics)
                   .(PredictedObjectKinematics.predicted_paths) !! i;
      let extended_object :=
        update_predicted_paths
          (alter (set_confidence path.(PredictedPath.confidence)) i)
          extended_object in
      extended_object ←
        for_double fuel
          (DoubleArith.add A safety_check_time_horizon
             (DoubleArith.lit A (1 # 1000)))
          safety_check_time_resolution
          (transform_body calcInterpolatedPose toPolygon2d object obj_velocity
             i path)
          0 extended_object;
      transform_paths fuel object safety_check_time_horizon
        safety_check_time_resolution obj_velocity indices' extended_object
  end.

Definition transform (fuel : nat) (object : PredictedObject.t)
    (safety_check_time_horizon safety_check_time_resolution : Q)
  : option ExtendedPredictedObject.t :=
  let kinematics := object.(PredictedObject.kinematics) in
  let extended_object :=
    ExtendedPredictedObject.mk
      object.(PredictedObject.object_id)
      kinematics.(PredictedObjectKinematics.initial_pose_with_covariance)
      kinematics.(PredictedObjectKinematics.initial_twist_with_covariance)
      kinematics.(PredictedObjectKinematics.initial_acceleration_with_covariance)
      object.(PredictedObject.shape)
      [] in
  let obj_velocity :=
    extended_object.(ExtendedPredictedObject.initial_twist)
      .(TwistWithCovariance.twist).(Twist.linear).(Vector3.x) in
  let size := length kinematics.(PredictedObjectKinematics.predicted_paths) in
  (* predicted_paths.resize(size) *)
  let extended_object :=
    update_predicted_paths
      (fun paths =>
         take size paths
           ++ replicate (size - length paths) PredictedPathWithPolygon.default)
      extended_object in
  transform_paths fuel object safety_check_time_horizon
    safety_check_time_resolution obj_velocity (seq 0 size) extended_object.

(** The samples expected for [path] when the loop ends at the [n]-th test
    of its condition, the projected path made of them, and the extended
    object made of the projected paths. *)
Definition projected_samples
    (object : PredictedObject.t) (step : Q) (n : nat) (path : PredictedPath.t)
  : list PoseWithVelocityAndPolygonStamped.t :=
  omap (fun k =>
          emitted_sample calcInterpolatedPose toPolygon2d object path
            (counter step k))
       (seq 0 n).

Definition projected_path
    (object : PredictedObject.t) (step : Q) (n : nat) (path : PredictedPath.t)
  : PredictedPathWithPolygon.t :=
  PredictedPathWithPolygon.mk path.(PredictedPath.confidence)
                              (projected_samples object step n path).

Definition transformed (step : Q) (n : nat) (object : PredictedObject.t)
  : ExtendedPredictedObject.t :=
  ExtendedPredictedObject.mk
    object.(PredictedObject.object_id)
    object.(PredictedObject.kinematics)
      .(PredictedObjectKinematics.initial_pose_with_covariance)
    object.(PredictedObject.kinematics)
      .(PredictedObjectKinematics.initial_twist_with_covariance)
    object.(PredictedObject.kinematics)
      .(PredictedObjectKinematics.initial_acceleration_with_covariance)
    object.(PredictedObject.shape)
    (map (projected_path object step n)
         object.(PredictedObject.kinematics)
           .(PredictedObjectKinematics.predicted_paths)).

End OtherAgentProjection.

Section LaneBuckets.

Variable within : Point2d.t -> list Point2d.t -> bool.
Variable getAllLeftSharedLinestringLanelets :
  ConstLanelet.t -> bool -> bool -> list ConstLanelet.t.
Variable getAllRightSharedLinestringLanelets :
  ConstLanelet.t -> bool -> bool -> list ConstLanelet.t.
Variable calcInterpolatedPose : PredictedPath.t -> Q -> option Pose.t.
Variable toPolygon2d : Pose.t -> Shape.t -> Polygon2d.t.

(** The lambda [append_objects_on_lane]: the [std::for_each] over the
    filtered objects, run on the objects still to visit. *)
Fixpoint append_objects_on_lane (fuel : nat)
    (safety_check_time_horizon safety_check_time_resolution : Q)
    (objects : list PredictedObject.t) (check_lanes : list ConstLanelet.t)
    (lane_objects : list ExtendedPredictedObject.t)
  : option (list ExtendedPredictedObject.t) :=
  match objects with
  | [] => Some lane_objects
  | object :: rest =>
      if isCentroidWithinLanelets within object check_lanes
      then
        extended_object ←
          transform calcInterpolatedPose toPolygon2d fuel object
            safety_check_time_horizon safety_check_time_resolution;
        append_objects_on_lane fuel safety_check_time_horizon
          safety_check_time_resolution rest check_lanes
          (lane_objects ++ [extended_object])
      else
        append_objects_on_lane fuel safety_check_time_horizon
          safety_check_time_resolution rest check_lanes lane_objects
  end.

Definition createTargetObjectsOnLane (fuel : nat)
    (current_lanes : list ConstLanelet.t)
    (filtered_objects : PredictedObjects.t) (params : ObjectsFilteringParams.t)
  : option TargetObjectsOnLane.t :=
  let object_lane_configuration :=
    params.(ObjectsFilteringParams.object_lane_configuration) in
  let include_opposite := params.(ObjectsFilteringParams.include_opposite_lane) in
  let invert_opposite := params.(ObjectsFilteringParams.invert_opposite_lane) in
  let safety_check_time_horizon :=
    params.(ObjectsFilteringParams.safety_check_time_horizon) in
  let safety_check_time_resolution :=
    params.(ObjectsFilteringParams.safety_check_time_resolution) in
  let '(all_left_lanelets, all_right_lanelets) :=
    gather_adjacent_lanelets getAllLeftSharedLinestringLanelets
      getAllRightSharedLinestringLanelets current_lanes include_opposite
      invert_opposite in
  let target_objects_on_lane := TargetObjectsOnLane.default in
  let append := fun lane_objects check_lanes =>
    append_objects_on_lane fuel safety_check_time_horizon
      safety_check_time_resolution
      filtered_objects.(PredictedObjects.objects) check_lanes lane_objects in
  on_current_lane ←
    (if object_lane_configuration.(ObjectLaneConfiguration.check_current_lane)
        && not_empty current_lanes
     then append target_objects_on_lane.(TargetObjectsOnLane.on_current_lane)
                 current_lanes
     else Some target_objects_on_lane.(TargetObjectsOnLane.on_current_lane));
  on_left_lane ←
    (if object_lane_configuration.(ObjectLaneConfiguration.check_left_lane)
        && not_empty all_left_lanelets
     then append target_objects_on_lane.(TargetObjectsOnLane.on_left_lane)
                 all_left_lanelets
     else Some target_objects_on_lane.(TargetObjectsOnLane.on_left_lane));
  on_right_lane ←
    (if object_lane_configuration.(ObjectLaneConfiguration.check_right_lane)
        && not_empty all_right_lanelets
     then append target_objects_on_lane.(TargetObjectsOnLane.on_right_lane)
                 all_right_lanelets
     else Some target_objects_on_lane.(TargetObjectsOnLane.on_right_lane));
  Some (TargetObjectsOnLane.mk on_current_lane on_left_lane on_right_lane).

End LaneBuckets.

End Arithmetic.
End Rounded.

(** ** Virtual wall markers

    [motion_utils/src/marker/virtual_wall_marker_creator.cpp].  The class
    keeps the walls added since the last call of [create_markers] and, for
    each marker namespace, how many markers it published in the previous
    and in the current call.  The counts are [size_t] values, the marker
    identifiers [int32] values; both conversions are written out. *)

(** A value reduced to [size_t]. *)
Definition size_t_wrap (z : Z) : Z := (z mod 2 ^ 64)%Z.

(** The conversion of a [size_t] value to [int]. *)
Definition to_int (z : Z) : Z := ((z + 2 ^ 31) mod 2 ^ 32 - 2 ^ 31)%Z.

Inductive VirtualWallType : Type := stop | slowdown | deadline.

Module VirtualWall.
Record t := mk {
  text : string;
  ns : string;
  style : VirtualWallType;
  longitudinal_offset : Q;
  pose : Pose.t }.
End VirtualWall.

(** [visualization_msgs::msg::Marker], with the fields that the code
    assigns and the pose and the text as its payload. *)
Module Marker.
Record t := mk { ns : string; id : Z; action : Z; pose : Pose.t; text : string }.
Definition ADD : Z := 0.
Definition DELETE : Z := 2.
Definition default : t := mk EmptyString 0 ADD Pose.default EmptyString.
(** [marker.id = id] *)
Definition set_id (id : Z) (m : t) : t := mk m.(ns) id m.(action) m.(pose) m.(text).
End Marker.

Module MarkerCount.
Record t := mk { previous : Z; current : Z }.
Definition default : t := mk 0 0.
End MarkerCount.

Module VirtualWallMarkerCreator.
Record t := mk {
  virtual_walls : list VirtualWall.t;
  marker_count_per_namespace : gmap string MarkerCount.t }.
End VirtualWallMarkerCreator.

(** [is_unused_namespace] of [cleanup] *)
Definition is_unused_namespace (marker_count : MarkerCount.t) : Prop :=
  marker_count.(MarkerCount.previous) = 0%Z
  /\ marker_count.(MarkerCount.current) = 0%Z.

#[global] Instance is_unused_namespace_dec marker_count :
  Decision (is_unused_namespace marker_count).
Proof. unfold is_unused_namespace. apply _. Defined.

(** [cleanup()]: the entries of unused namespaces are erased, the walls
    are cleared. *)
Definition cleanup (c : VirtualWallMarkerCreator.t) : VirtualWallMarkerCreator.t :=
  VirtualWallMarkerCreator.mk []
    (filter (fun entry => ~ is_unused_namespace entry.2)
            c.(VirtualWallMarkerCreator.marker_count_per_namespace)).

Definition add_virtual_wall
    (c : VirtualWallMarkerCreator.t) (virtual_wall : VirtualWall.t)
  : VirtualWallMarkerCreator.t :=
  VirtualWallMarkerCreator.mk
    (c.(VirtualWallMarkerCreator.virtual_walls) ++ [virtual_wall])
    c.(VirtualWallMarkerCreator.marker_count_per_namespace).

Definition add_virtual_walls
    (c : VirtualWallMarkerCreator.t) (walls : list VirtualWall.t)
  : VirtualWallMarkerCreator.t :=
  VirtualWallMarkerCreator.mk
    (c.(VirtualWallMarkerCreator.virtual_walls) ++ walls)
    c.(VirtualWallMarkerCreator.marker_count_per_namespace).

Section CreateMarkers.

(** The three marker factories of [motion_utils], given the pose, the
    text, the time, the identifier, the longitudinal offset and the
    namespace prefix; each returns the markers of a marker array. *)
Variable createStopVirtualWallMarker :
  Pose.t -> string -> Time.t -> Z -> Q -> string -> list Marker.t.
Variable createSlowDownVirtualWallMarker :
  Pose.t -> string -> Time.t -> Z -> Q -> string -> list Marker.t.
Variable createDeadLineVirtualWallMarker :
  Pose.t -> string -> Time.t -> Z -> Q -> string -> list Marker.t.

(** The [switch] on the style of the wall. *)
Definition create_fn_of (style : VirtualWallType)
  : Pose.t -> string -> Time.t -> Z -> Q -> string -> list Marker.t :=
  match style with
  | stop => createStopVirtualWallMarker
  | slowdown => createSlowDownVirtualWallMarker
  | deadline => createDeadLineVirtualWallMarker
  end.

(** [marker.id = marker_count_per_namespace[marker.ns].current++;
    marker_array.markers.push_back(marker)]: [operator[]] inserts a
    zero count for a namespace that has none. *)
Definition assign_id
    (acc : gmap string MarkerCount.t * list Marker.t) (marker : Marker.t)
  : gmap string MarkerCount.t * list Marker.t :=
  let count := default MarkerCount.default (acc.1 !! marker.(Marker.ns)) in
  let marker' := Marker.set_id (to_int count.(MarkerCount.current)) marker in
  (<[marker.(Marker.ns) :=
       MarkerCount.mk count.(MarkerCount.previous)
                      (size_t_wrap (count.(MarkerCount.current) + 1))]> acc.1,
   acc.2 ++ [marker']).

(** The body of the loop over the walls. *)
Definition convert_wall (now : Time.t)
    (acc : gmap string MarkerCount.t * list Marker.t)
    (virtual_wall : VirtualWall.t)
  : gmap string MarkerCount.t * list Marker.t :=
  let create_fn := create_fn_of virtual_wall.(VirtualWall.style) in
  let markers :=
    create_fn virtual_wall.(VirtualWall.pose) virtual_wall.(VirtualWall.text)
      now 0%Z virtual_wall.(VirtualWall.longitudinal_offset)
      virtual_wall.(VirtualWall.ns) in
  foldl assign_id acc markers.

(** The delete markers of one namespace: the loop
    [for (marker.id = count.current; marker.id < static_cast<int>(count.previous); ++marker.id)]
    on the default marker with the action [DELETE]. *)
Definition delete_markers_of (entry : string * MarkerCount.t) : list Marker.t :=
  let first := to_int entry.2.(MarkerCount.current) in
  let bound := to_int entry.2.(MarkerCount.previous) in
  (fun id =>
     Marker.mk entry.1 id Marker.DELETE
               Marker.default.(Marker.pose) Marker.default.(Marker.text))
    <$> seqZ first (bound - first).

(** [create_markers(now)]: the marker array and the creator after the
    call.  The namespaces are visited in the order of [map_to_list]. *)
Definition create_markers (now : Time.t) (c : VirtualWallMarkerCreator.t)
  : list Marker.t * VirtualWallMarkerCreator.t :=
  (* update marker counts *)
  let counts :=
    (fun count => MarkerCount.mk count.(MarkerCount.current) 0%Z)
      <$> c.(VirtualWallMarkerCreator.marker_count_per_namespace) in
  (* convert to markers *)
  let converted :=
    foldl (convert_wall now) (counts, []) c.(VirtualWallMarkerCreator.virtual_walls) in
  (* create delete markers *)
  let marker_array :=
    converted.2 ++ (map_to_list converted.1 ≫= delete_markers_of) in
  (marker_array,
   cleanup (VirtualWallMarkerCreator.mk
              c.(VirtualWallMarkerCreator.virtual_walls) converted.1)).

(** The markers that the factories return for the walls, wall after wall. *)
Definition created_markers (now : Time.t) (walls : list VirtualWall.t)
  : list Marker.t :=
  walls ≫= (fun virtual_wall =>
    create_fn_of virtual_wall.(VirtualWall.style)
      virtual_wall.(VirtualWall.pose) virtual_wall.(VirtualWall.text)
      now 0%Z virtual_wall.(VirtualWall.longitudinal_offset)
      virtual_wall.(VirtualWall.ns)).

End CreateMarkers.

(** How many markers of [l] have the namespace [ns]. *)
Definition count_ns (ns : string) (l : list Marker.t) : nat :=
  length (filter (fun m => m.(Marker.ns) = ns) l).

(** The markers of [l], each with the identifier that counts the markers
    of the same namespace listed before it, reduced as the code reduces
    it. *)
Definition with_ids (l : list Marker.t) : list Marker.t :=
  imap (fun i m =>
          Marker.set_id
            (to_int (size_t_wrap (Z.of_nat (count_ns m.(Marker.ns) (take i l)))))
            m)
       l.

(** The counts after the markers of [l] got their identifiers, starting
    from the counts [counts0], for the namespace [ns]. *)
Definition counts_after
    (counts0 : gmap string MarkerCount.t) (l : list Marker.t) (ns : string)
  : option MarkerCount.t :=
  match counts0 !! ns with
  | Some count =>
      Some (MarkerCount.mk count.(MarkerCount.previous)
              (size_t_wrap (Z.of_nat (count_ns ns l))))
  | None =>
      if decide (count_ns ns l = 0%nat) then None
      else Some (MarkerCount.mk 0 (size_t_wrap (Z.of_nat (count_ns ns l))))
  end.

(** The count of current markers that the creator remembers for [ns];
    zero for a namespace without entry. *)
Definition current_count (c : VirtualWallMarkerCreator.t) (ns : string) : Z :=
  (default MarkerCount.default
     (c.(VirtualWallMarkerCreator.marker_count_per_namespace) !! ns))
    .(MarkerCount.current).

(** ** Data of the examples

    Concrete collaborators and inputs on which the definitions are run: a
    centerline along the [x] axis, footprints reduced to the position of the
    object, lanelets as rectangles. *)

(** The integer part of the Euclidean norm, which is the norm itself on
    the velocities of the examples. *)
Definition ex_hypot (x y : Q) : Q :=
  inject_Z (Z.sqrt (Qfloor (x * x + y * y))).

(** The signed arc length along a centerline that follows the [x] axis. *)
Definition ex_arc (points : list PathPointWithLaneId.t) (src dst : Point.t) : Q :=
  dst.(Point.x) - src.(Point.x).

Definition ex_pose (x y : Q) : Pose.t :=
  Pose.mk (Point.mk x y 0) Quaternion.default.

Definition ex_frenet
    (points : list PathPointWithLaneId.t) (p : Point.t) (seg_idx : nat)
  : FrenetPoint.t :=
  FrenetPoint.mk p.(Point.x) p.(Point.y).

Definition ex_centerline_pose (points : list PathPointWithLaneId.t) (s : Q) : Pose.t :=
  ex_pose s 0.

Definition ex_centerline : list PathPointWithLaneId.t :=
  [PathPointWithLaneId.mk (ex_pose 0 0) [1%Z];
   PathPointWithLaneId.mk (ex_pose 100 0) [1%Z]].

Definition ex_route : RouteHandler.t :=
  RouteHandler.mk (fun _ _ _ => ex_centerline).

Definition ex_footprint (obj : PredictedObject.t) : Polygon2d.t :=
  Polygon2d.mk [Point2d.mk (pose_position obj).(Point.x) (pose_position obj).(Point.y)].

Definition ex_pose_footprint (pose : Pose.t) (shape : Shape.t) : Polygon2d.t :=
  Polygon2d.mk [Point2d.mk pose.(Pose.position).(Point.x) pose.(Pose.position).(Point.y)].

(** A vertex lies in the bounding box of a ring. *)
Definition ex_in_box (ring : list Point2d.t) (p : Point2d.t) : bool :=
  existsb (fun a => Qle_bool a.(Point2d.x) p.(Point2d.x)) ring
  && existsb (fun a => Qle_bool p.(Point2d.x) a.(Point2d.x)) ring
  && existsb (fun a => Qle_bool a.(Point2d.y) p.(Point2d.y)) ring
  && existsb (fun a => Qle_bool p.(Point2d.y) a.(Point2d.y)) ring.

(** Two polygons are taken as disjoint when no vertex of the second lies in
    the bounding box of the first. *)
Definition ex_disjoint (a b : Polygon2d.t) : bool :=
  negb (existsb (ex_in_box a.(Polygon2d.outer)) b.(Polygon2d.outer)).

(** The rectangle between [x0] and [x1], two units to each side of the
    axis. *)
Definition ex_lanelet (id : Z) (x0 x1 : Q) : ConstLanelet.t :=
  ConstLanelet.mk id
    [Point2d.mk x0 (-2); Point2d.mk x1 (-2); Point2d.mk x1 2; Point2d.mk x0 2].

(** The pose between two poses: the position moves linearly, the
    orientation is the one of the first pose. *)
Definition ex_interpolate (p0 p1 : Pose.t) (ratio : Q) : Pose.t :=
  let a := p0.(Pose.position) in
  let b := p1.(Pose.position) in
  Pose.mk
    (Point.mk (a.(Point.x) + ratio * (b.(Point.x) - a.(Point.x)))
              (a.(Point.y) + ratio * (b.(Point.y) - a.(Point.y)))
              (a.(Point.z) + ratio * (b.(Point.z) - a.(Point.z))))
    p0.(Pose.orientation).

(** An object of the given class at position [(px, 0)] with planar
    velocity [(vx, vy)]. *)
Definition ex_object (id label : Z) (vx vy px : Q) (paths : list PredictedPath.t)
  : PredictedObject.t :=
  PredictedObject.mk [id]
    [ObjectClassification.mk label 1]
    (PredictedObjectKinematics.mk
       (PoseWithCovariance.mk (ex_pose px 0) [])
       (TwistWithCovariance.mk (Twist.mk (Vector3.mk vx vy 0) Vector3.default) [])
       AccelWithCovariance.default
       paths)
    Shape.default.

(** A predicted path with one sample at [t = 0], and one with the two
    samples [t = 0] and [t = 1]. *)
Definition ex_path_1 : PredictedPath.t :=
  PredictedPath.mk [(0, ex_pose 0 0)] (1 # 2).

Definition ex_path_2 : PredictedPath.t :=
  PredictedPath.mk [(0, ex_pose 0 0); (1, ex_pose 3 4)] (1 # 2).

(** A car moving with velocity [(3, 4)], of speed [5]. *)
Definition ex_car : PredictedObject.t :=
  ex_object 1 ObjectClassification.CAR 3 4 10 [ex_path_2; ex_path_1].

Definition ex_pedestrian : PredictedObject.t :=
  ex_object 2 ObjectClassification.PEDESTRIAN 0 0 2 [].

Definition ex_truck : PredictedObject.t :=
  ex_object 3 ObjectClassification.TRUCK 6 8 (-10) [ex_path_1].

Definition ex_header : Header.t := Header.mk (Time.mk 12 500) "map".

Definition ex_batch : PredictedObjects.t :=
  PredictedObjects.mk ex_header [ex_pedestrian; ex_car; ex_truck].

Definition ex_no_pedestrian : ObjectTypesToCheck.t :=
  ObjectTypesToCheck.mk true true true true true true true false.

Definition ex_ego_params : EgoPredictedPathParams.t :=
  EgoPredictedPathParams.mk (-10) 1 (1 # 2) 1.

Definition ex_paths_with_polygon : list PredictedPathWithPolygon.t :=
  [PredictedPathWithPolygon.mk (3 # 10) [];
   PredictedPathWithPolygon.mk (7 # 10)
     [PoseWithVelocityAndPolygonStamped.mk 0 (ex_pose 1 0) 3 (Polygon2d.mk [])];
   PredictedPathWithPolygon.mk (7 # 10) []].

Definition ex_extended_object : ExtendedPredictedObject.t :=
  ExtendedPredictedObject.mk [1%Z] PoseWithCovariance.default
    TwistWithCovariance.default AccelWithCovariance.default Shape.default
    ex_paths_with_polygon.

(** A point is taken as within a polygon when it lies in its bounding
    box. *)
Definition ex_within (p : Point2d.t) (polygon : list Point2d.t) : bool :=
  ex_in_box polygon p.

(** Lanes along the [x] axis: a lanelet has no left neighbour and, as its
    right neighbour, the lanelet of the same extent ten units further. *)
Definition ex_left (lane : ConstLanelet.t) (include_opposite invert_opposite : bool)
  : list ConstLanelet.t := [].

Definition ex_right (lane : ConstLanelet.t) (include_opposite invert_opposite : bool)
  : list ConstLanelet.t :=
  [ex_lanelet (lane.(ConstLanelet.id) + 100) 10 20].

Definition ex_filtering_params (resolution : Q) : ObjectsFilteringParams.t :=
  ObjectsFilteringParams.mk 3 resolution 100 5 (1 # 2) ex_no_pedestrian
    (ObjectLaneConfiguration.mk true true true) false false.

(** Doubles of binary64: the horizon [0.999] and the resolution [0.1], and
    ego parameters with them. *)
Definition ex_horizon_b64 : Q := Binary64.round (999 # 1000).

Definition ex_resolution_b64 : Q := Binary64.round (1 # 10).

Definition ex_ego_params_b64 : EgoPredictedPathParams.t :=
  EgoPredictedPathParams.mk (-10) ex_horizon_b64 ex_resolution_b64 1.

(** A predicted path that spans the times [0] to [2], and a bus that
    follows it. *)
Definition ex_path_long : PredictedPath.t :=
  PredictedPath.mk [(0, ex_pose 0 0); (2, ex_pose 6 8)] (1 # 2).

Definition ex_bus : PredictedObject.t :=
  ex_object 4 ObjectClassification.BUS 3 4 10 [ex_path_long].

(** Marker factories for the examples: a wall marker and a text marker in
    two namespaces derived from the prefix. *)
Definition ex_factory (kind : string)
    (pose : Pose.t) (text : string) (now : Time.t) (id : Z) (offset : Q)
    (ns_prefix : string) : list Marker.t :=
  [Marker.mk (ns_prefix +:+ kind +:+ "_virtual_wall") id Marker.ADD pose text;
   Marker.mk (ns_prefix +:+ kind +:+ "_factor_text") id Marker.ADD pose text].

Definition ex_wall (ns : string) (style : VirtualWallType) (x : Q) : VirtualWall.t :=
  VirtualWall.mk "obstacle" ns style 0 (ex_pose x 0).

(** A creator that published three markers in the namespace
    ["a_stop_virtual_wall"] in the call before and now holds two stop walls
    of the prefix ["a_"] and a slow-down wall of the prefix ["b_"]. *)
Definition ex_creator : VirtualWallMarkerCreator.t :=
  VirtualWallMarkerCreator.mk
    [ex_wall "a_" stop 1; ex_wall "b_" slowdown 2; ex_wall "a_" stop 3]
    {[ "a_stop_virtual_wall" := MarkerCount.mk 0 3 ]}.

Definition ex_idle_creator : VirtualWallMarkerCreator.t :=
  VirtualWallMarkerCreator.mk [] {[ "a_stop_virtual_wall" := MarkerCount.mk 0 3 ]}.

(** ** Vocabulary of the properties *)

(** The class [t] is one of the eight classes of the configuration and its
    flag is set. *)
Inductive class_enabled (c : ObjectTypesToCheck.t) : Z -> Prop :=
  | enabled_car :
      c.(ObjectTypesToCheck.check_car) = true ->
      class_enabled c ObjectClassification.CAR
  | enabled_truck :
      c.(ObjectTypesToCheck.check_truck) = true ->
      class_enabled c ObjectClassification.TRUCK
  | enabled_bus :
      c.(ObjectTypesToCheck.check_bus) = true ->
      class_enabled c ObjectClassification.BUS
  | enabled_trailer :
      c.(ObjectTypesToCheck.check_trailer) = true ->
      class_enabled c ObjectClassification.TRAILER
  | enabled_unknown :
      c.(ObjectTypesToCheck.check_unknown) = true ->
      class_enabled c ObjectClassification.UNKNOWN
  | enabled_bicycle :
      c.(ObjectTypesToCheck.check_bicycle) = true ->
      class_enabled c ObjectClassification.BICYCLE
  | enabled_motorcycle :
      c.(ObjectTypesToCheck.check_motorcycle) = true ->
      class_enabled c ObjectClassification.MOTORCYCLE
  | enabled_pedestrian :
      c.(ObjectTypesToCheck.check_pedestrian) = true ->
      class_enabled c ObjectClassification.PEDESTRIAN.

(** [a] is the element at position [k] of [l], no element of [l] has a
    greater key and every element listed before it has a smaller key: the
    first-listed maximum. *)
Definition first_maximum {A : Type} (key : A -> Q) (l : list A) (k : nat) (a : A) : Prop :=
  l !! k = Some a
  /\ (forall j b, l !! j = Some b -> key b <= key a)
  /\ (forall j b, (j < k)%nat -> l !! j = Some b -> key b < key a).

(** The strict comparison of two elements by their key, the comparator
    handed to [std::max_element]. *)
Definition key_lt {A : Type} (key : A -> Q) (a b : A) : bool :=
  bool_decide (key a < key b).

(** The positions, counted from [a], of the elements of [l] that satisfy
    [P], in increasing order. *)
Fixpoint positions {A : Type} (P : A -> Prop) `{!forall x, Decision (P x)}
    (a : nat) (l : list A) : list nat :=
  match l with
  | [] => []
  | x :: l' =>
      if decide (P x) then a :: positions P (S a) l' else positions P (S a) l'
  end.

(** [s] is the magnitude of the planar velocity of [obj]. *)
Definition is_planar_speed (obj : PredictedObject.t) (s : Q) : Prop :=
  0 <= s
  /\ s * s == (twist_linear obj).(Vector3.x) * (twist_linear obj).(Vector3.x)
              + (twist_linear obj).(Vector3.y) * (twist_linear obj).(Vector3.y).

(** All the samples that the loop over [t] appends to the path of index
    [i], appended at once. *)
Definition append_samples
    (samples : list PoseWithVelocityAndPolygonStamped.t)
    (p : PredictedPathWithPolygon.t) : PredictedPathWithPolygon.t :=
  PredictedPathWithPolygon.mk p.(PredictedPathWithPolygon.confidence)
                              (p.(PredictedPathWithPolygon.path) ++ samples).

(** Two extended objects agree on everything but the samples of their
    projected paths: identity, initial pose, twist and acceleration, shape
    and number of projected paths. *)
Definition same_frame (a b : ExtendedPredictedObject.t) : Prop :=
  a.(ExtendedPredictedObject.uuid) = b.(ExtendedPredictedObject.uuid)
  /\ a.(ExtendedPredictedObject.initial_pose)
     = b.(ExtendedPredictedObject.initial_pose)
  /\ a.(ExtendedPredictedObject.initial_twist)
     = b.(ExtendedPredictedObject.initial_twist)
  /\ a.(ExtendedPredictedObject.initial_acceleration)
     = b.(ExtendedPredictedObject.initial_acceleration)
  /\ a.(ExtendedPredictedObject.shape) = b.(ExtendedPredictedObject.shape)
  /\ length a.(ExtendedPredictedObject.predicted_paths)
     = length b.(ExtendedPredictedObject.predicted_paths).

(** * Properties *)

(** ** Filters that push the retained objects on a fresh batch *)

Section PushBackLoop.

Variable P : PredictedObject.t -> Prop.
Context `{!forall obj, Decision (P obj)}.

Lemma foldl_push_back_step
    (step : PredictedObjects.t -> PredictedObject.t -> PredictedObjects.t)
    (l : list PredictedObject.t) (filtered : PredictedObjects.t) :
  (forall filtered obj,
     step filtered obj
     = if decide (P obj) then push_back_object filtered obj else filtered) ->
  foldl step filtered l
  = PredictedObjects.mk filtered.(PredictedObjects.header)
      (filtered.(PredictedObjects.objects) ++ filter P l).
Proof.
  intros Hstep. revert filtered.
  induction l as [|obj l IH]; intros filtered; simpl.
  - rewrite app_nil_r. by destruct filtered.
  - rewrite IH, Hstep. destruct (decide (P obj)) as [HP|HP].
    + rewrite (filter_cons_True P obj l HP). simpl. by rewrite <- app_assoc.
    + by rewrite (filter_cons_False P obj l HP).
Qed.

Lemma foldl_push_back (l : list PredictedObject.t) (filtered : PredictedObjects.t) :
  foldl (fun filtered obj =>
           if decide (P obj) then push_back_object filtered obj else filtered)
        filtered l
  = PredictedObjects.mk filtered.(PredictedObjects.header)
      (filtered.(PredictedObjects.objects) ++ filter P l).
Proof. by apply foldl_push_back_step. Qed.

End PushBackLoop.

(** ** Velocity gate *)

Section VelocityProperties.

Variable hypot : Q -> Q -> Q.

Lemma filterObjectsByVelocity_unfold objects v vmax :
  filterObjectsByVelocity hypot objects v vmax
  = PredictedObjects.mk objects.(PredictedObjects.header)
      (filter (fun obj => v < v_norm hypot obj /\ v_norm hypot obj < vmax)
              objects.(PredictedObjects.objects)).
Proof. unfold filterObjectsByVelocity. by rewrite foldl_push_back. Qed.

(** C3.  The velocity filter returns exactly the objects whose speed
    magnitude [s = hypot(vx, vy)] satisfies [v < s < max], both bounds
    strict, in the order of the input: the output list is the input list
    with the other objects deleted, it is a sublist of the input, and an
    object is in the output iff it is in the input and passes the test. *)
Theorem filterObjectsByVelocity_exact
    (objects : PredictedObjects.t) (v vmax : Q) :
  (filterObjectsByVelocity hypot objects v vmax).(PredictedObjects.objects)
  = filter (fun obj => v < v_norm hypot obj /\ v_norm hypot obj < vmax)
           objects.(PredictedObjects.objects)
  /\ (filterObjectsByVelocity hypot objects v vmax).(PredictedObjects.objects)
       `sublist_of` objects.(PredictedObjects.objects)
  /\ (forall obj,
        obj ∈ (filterObjectsByVelocity hypot objects v vmax).(PredictedObjects.objects)
        <-> obj ∈ objects.(PredictedObjects.objects)
            /\ v < hypot (twist_linear obj).(Vector3.x) (twist_linear obj).(Vector3.y)
            /\ hypot (twist_linear obj).(Vector3.x) (twist_linear obj).(Vector3.y) < vmax).
Proof.
  rewrite filterObjectsByVelocity_unfold. simpl. split_and!.
  - done.
  - apply sublist_filter.
  - intros obj. rewrite list_elem_of_filter. unfold v_norm. tauto.
Qed.

Lemma filterObjectsByVelocity_header objects v vmax :
  (filterObjectsByVelocity hypot objects v vmax).(PredictedObjects.header)
  = objects.(PredictedObjects.header).
Proof. by rewrite filterObjectsByVelocity_unfold. Qed.

End VelocityProperties.

(** ** First-listed maximum *)

Section FirstMaximum.

Context {A : Type}.
Variable key : A -> Q.

Lemma first_maximum_singleton (a : A) : first_maximum key [a] 0 a.
Proof.
  split_and!; [done | |].
  - intros [|j] b Hb; simplify_eq/=. apply Qle_refl.
  - intros j b Hj. lia.
Qed.

Lemma first_maximum_snoc_keep (pre : list A) (k : nat) (a b : A) :
  first_maximum key pre k a -> ~ key a < key b ->
  first_maximum key (pre ++ [b]) k a.
Proof.
  intros (Hk & Hle & Hlt) Hab. apply Qnot_lt_le in Hab.
  pose proof (lookup_lt_Some _ _ _ Hk) as Hklen.
  split_and!.
  - by rewrite lookup_app_l.
  - intros j c Hc. apply lookup_app_Some in Hc as [Hc|[_ Hc]]; [by eauto|].
    apply list_lookup_singleton_Some in Hc as [_ <-]. done.
  - intros j c Hj Hc. rewrite lookup_app_l in Hc by lia. eauto.
Qed.

Lemma first_maximum_snoc_move (pre : list A) (k : nat) (a b : A) :
  first_maximum key pre k a -> key a < key b ->
  first_maximum key (pre ++ [b]) (length pre) b.
Proof.
  intros (Hk & Hle & Hlt) Hab. split_and!.
  - rewrite lookup_app_r by lia. by rewrite Nat.sub_diag.
  - intros j c Hc. apply lookup_app_Some in Hc as [Hc|[_ Hc]].
    + apply Qlt_le_weak. eapply Qle_lt_trans; [by eapply Hle | done].
    + apply list_lookup_singleton_Some in Hc as [_ <-]. apply Qle_refl.
  - intros j c Hj Hc. rewrite lookup_app_l in Hc by lia.
    eapply Qle_lt_trans; [by eapply Hle | done].
Qed.

Lemma max_element_from_first_maximum (rest pre : list A) (k : nat) (a : A) :
  first_maximum key pre k a ->
  first_maximum key (pre ++ rest)
    (max_element_from (key_lt key) (k, a) (length pre) rest).1
    (max_element_from (key_lt key) (k, a) (length pre) rest).2.
Proof.
  revert pre k a. induction rest as [|b rest IH]; intros pre k a Hmax; simpl.
  - by rewrite app_nil_r.
  - rewrite cons_middle, app_assoc.
    replace (S (length pre)) with (length (pre ++ [b]))
      by (rewrite length_app; simpl; lia).
    destruct (key_lt key a b) eqn:Hab; unfold key_lt in Hab.
    + apply bool_decide_eq_true in Hab.
      apply IH. by eapply first_maximum_snoc_move.
    + apply bool_decide_eq_false in Hab.
      apply IH. by apply first_maximum_snoc_keep.
Qed.

Lemma max_element_first_maximum (l : list A) :
  l <> [] ->
  exists k a, max_element (key_lt key) l = Some (k, a) /\ first_maximum key l k a.
Proof.
  destruct l as [|a rest]; [done|intros _]. simpl.
  pose proof (max_element_from_first_maximum rest [a] 0 a
                (first_maximum_singleton a)) as Hmax.
  simpl in Hmax.
  destruct (max_element_from (key_lt key) (0%nat, a) 1 rest) as [k b] eqn:E.
  by exists k, b.
Qed.

End FirstMaximum.

(** ** Class gate *)

Lemma is_object_type_enabled (t : Z) (c : ObjectTypesToCheck.t) :
  is_object_type t c = true <-> class_enabled c t.
Proof.
  unfold is_object_type. split.
  - rewrite !orb_true_iff, !andb_true_iff, !bool_decide_eq_true.
    intros H. destruct_or! H; destruct H as [-> H]; by constructor.
  - intros []; rewrite !orb_true_iff, !andb_true_iff, !bool_decide_eq_true;
      tauto.
Qed.

Lemma filterObjectsByClass_unfold
    (getHighestProbLabel : list ObjectClassification.t -> Z) objects types :
  filterObjectsByClass getHighestProbLabel objects types
  = PredictedObjects.mk Header.default
      (filter (fun obj =>
                 is_object_type
                   (getHighestProbLabel obj.(PredictedObject.classification)) types
                 = true)
              objects.(PredictedObjects.objects)).
Proof.
  unfold filterObjectsByClass.
  apply (foldl_push_back_step _ _ objects.(PredictedObjects.objects)
           PredictedObjects.default).
  intros filtered obj. by destruct (is_object_type _ _); case_decide.
Qed.

Lemma highest_prob_entry_max_element
    (rest : list ObjectClassification.t) (c : ObjectClassification.t) (k i : nat) :
  highest_prob_entry c rest
  = (max_element_from (key_lt ObjectClassification.probability) (k, c) i rest).2.
Proof.
  revert c k i. induction rest as [|d rest IH]; intros c k i; simpl; [done|].
  unfold key_lt at 2. simpl. case_decide.
  - rewrite bool_decide_eq_true_2 by done. apply IH.
  - rewrite bool_decide_eq_false_2 by done. apply IH.
Qed.

Lemma getHighestProbLabel_spec_first_maximum
    (classification : list ObjectClassification.t) :
  classification <> [] ->
  exists k c,
    first_maximum ObjectClassification.probability classification k c
    /\ getHighestProbLabel_spec classification = c.(ObjectClassification.label).
Proof.
  intros Hne.
  destruct (max_element_first_maximum ObjectClassification.probability
              classification Hne) as (k & c & Hmax & Hfirst).
  exists k, c. split; [done|].
  destruct classification as [|c0 rest]; [done|]. simpl in *.
  rewrite (highest_prob_entry_max_element rest c0 0 1).
  injection Hmax as Hmax. by rewrite Hmax.
Qed.

(** C7.  The class gate keeps an object iff its highest-probability label
    is one of the eight classes of the configuration with its flag set; the
    kept objects stay in their order.  The label of an object with at least
    one classification entry is the label of the entry of maximum
    probability, the first-listed one among equals. *)
Theorem filterObjectsByClass_keeps_enabled
    (objects : PredictedObjects.t) (types : ObjectTypesToCheck.t) :
  (forall obj,
     obj ∈ (filterObjectsByClass getHighestProbLabel_spec objects types)
             .(PredictedObjects.objects)
     <-> obj ∈ objects.(PredictedObjects.objects)
         /\ class_enabled types
              (getHighestProbLabel_spec obj.(PredictedObject.classification)))
  /\ (filterObjectsByClass getHighestProbLabel_spec objects types)
       .(PredictedObjects.objects)
     `sublist_of` objects.(PredictedObjects.objects)
  /\ (forall (obj : PredictedObject.t) k c,
        obj.(PredictedObject.classification) !! k = Some c ->
        exists k' c',
          first_maximum ObjectClassification.probability
            obj.(PredictedObject.classification) k' c'
          /\ getHighestProbLabel_spec obj.(PredictedObject.classification)
             = c'.(ObjectClassification.label)
          /\ c.(ObjectClassification.probability)
             <= c'.(ObjectClassification.probability)).
Proof.
  rewrite filterObjectsByClass_unfold. simpl. split_and!.
  - intros obj. rewrite list_elem_of_filter, is_object_type_enabled. tauto.
  - apply sublist_filter.
  - intros obj k c Hk.
    destruct (getHighestProbLabel_spec_first_maximum
                obj.(PredictedObject.classification)) as (k' & c' & Hmax & Hlabel).
    { intros Hnil. by rewrite Hnil in Hk. }
    exists k', c'. split_and!; [done..|].
    destruct Hmax as (_ & Hle & _). by eapply Hle.
Qed.

(** ** Longitudinal-window gate *)

Section PositionProperties.

Variable calcSignedArcLength :
  list PathPointWithLaneId.t -> Point.t -> Point.t -> Q.

Lemma filterObjectsByPosition_unfold objects path_points current_pose fwd bwd :
  filterObjectsByPosition calcSignedArcLength objects path_points current_pose fwd bwd
  = PredictedObjects.mk objects.(PredictedObjects.header)
      (filter (fun obj =>
                 - bwd < calcSignedArcLength path_points current_pose (pose_position obj)
                 /\ calcSignedArcLength path_points current_pose (pose_position obj) < fwd)
              objects.(PredictedObjects.objects)).
Proof. unfold filterObjectsByPosition. by rewrite foldl_push_back. Qed.

(** C4.  The longitudinal-window gate keeps an object iff the signed arc
    length [d] from the ego position to the object's position along the
    centerline satisfies [-backward < d < forward], both bounds strict, and
    keeps the order; with [backward = 0] and [forward = 0] no object is
    kept, so every object of nonzero arc length is removed. *)
Theorem filterObjectsByPosition_window
    (objects : PredictedObjects.t) (path_points : list PathPointWithLaneId.t)
    (current_pose : Point.t) (forward_distance backward_distance : Q) :
  (forall obj,
     obj ∈ (filterObjectsByPosition calcSignedArcLength objects path_points
              current_pose forward_distance backward_distance)
             .(PredictedObjects.objects)
     <-> obj ∈ objects.(PredictedObjects.objects)
         /\ - backward_distance
            < calcSignedArcLength path_points current_pose (pose_position obj)
         /\ calcSignedArcLength path_points current_pose (pose_position obj)
            < forward_distance)
  /\ (filterObjectsByPosition calcSignedArcLength objects path_points
        current_pose forward_distance backward_distance)
       .(PredictedObjects.objects)
     `sublist_of` objects.(PredictedObjects.objects)
  /\ (filterObjectsByPosition calcSignedArcLength objects path_points
        current_pose 0 0).(PredictedObjects.objects) = []
  /\ (forall obj,
        ~ calcSignedArcLength path_points current_pose (pose_position obj) == 0 ->
        obj ∉ (filterObjectsByPosition calcSignedArcLength objects path_points
                 current_pose 0 0).(PredictedObjects.objects)).
Proof.
  assert (Hzero :
    (filterObjectsByPosition calcSignedArcLength objects path_points
       current_pose 0 0).(PredictedObjects.objects) = []).
  { rewrite filterObjectsByPosition_unfold. simpl.
    induction objects.(PredictedObjects.objects) as [|obj l IH]; [done|].
    rewrite filter_cons_False; [done|].
    intros [Hlo Hhi].
    apply (Qlt_irrefl 0). eapply Qlt_trans; [|exact Hhi]. exact Hlo. }
  split_and!.
  - rewrite filterObjectsByPosition_unfold. simpl.
    intros obj. rewrite list_elem_of_filter. tauto.
  - rewrite filterObjectsByPosition_unfold. simpl. apply sublist_filter.
  - exact Hzero.
  - intros obj _. rewrite Hzero. apply not_elem_of_nil.
Qed.

End PositionProperties.

(** ** The header through the pipeline *)

Section PipelineProperties.

Variable hypot : Q -> Q -> Q.
Variable getHighestProbLabel : list ObjectClassification.t -> Z.
Variable calcSignedArcLength :
  list PathPointWithLaneId.t -> Point.t -> Point.t -> Q.

(** C10.  The batch returned by [filterObjects] carries the
    default-constructed header, whatever the header of the input batch: the
    velocity stage copies the input header, the class stage replaces the
    batch by a fresh one whose header is never assigned, and the position
    stage assigns the objects only. *)
Theorem filterObjects_header_default
    (objects : PredictedObjects.t) (route_handler : RouteHandler.t)
    (current_lanes : list ConstLanelet.t) (current_pose : Point.t)
    (params : ObjectsFilteringParams.t) :
  (filterObjects hypot getHighestProbLabel calcSignedArcLength objects
     route_handler current_lanes current_pose params).(PredictedObjects.header)
  = Header.default
  /\ (forall v remove_above_threshold,
        (filterObjectsByVelocity_flag hypot objects v remove_above_threshold)
          .(PredictedObjects.header)
        = objects.(PredictedObjects.header))
  /\ (forall types,
        (filterObjectsByClass getHighestProbLabel objects types)
          .(PredictedObjects.header)
        = Header.default)
  /\ (forall path_points fwd bwd,
        (filterObjectsByPosition calcSignedArcLength objects path_points
           current_pose fwd bwd).(PredictedObjects.header)
        = objects.(PredictedObjects.header)).
Proof.
  split_and!.
  - unfold filterObjects.
    destruct objects.(PredictedObjects.objects); [done|].
    by rewrite filterObjectsByPosition_unfold, filterObjectsByClass_unfold.
  - intros v []; apply filterObjectsByVelocity_header.
  - intros types. by rewrite filterObjectsByClass_unfold.
  - intros path_points fwd bwd. by rewrite filterObjectsByPosition_unfold.
Qed.

End PipelineProperties.

(** ** Selection of the predicted paths *)

Lemma getPredictedPathFromObj_all (obj : ExtendedPredictedObject.t) :
  getPredictedPathFromObj obj true = obj.(ExtendedPredictedObject.predicted_paths).
Proof. done. Qed.

(** C8.  With the use-all flag false and a non-empty path list,
    [getPredictedPathFromObj] returns exactly one path: the path of maximum
    confidence, and the first-listed one among those of maximum
    confidence. *)
Theorem getPredictedPathFromObj_first_max (obj : ExtendedPredictedObject.t) :
  obj.(ExtendedPredictedObject.predicted_paths) <> [] ->
  exists k p,
    getPredictedPathFromObj obj false = [p]
    /\ obj.(ExtendedPredictedObject.predicted_paths) !! k = Some p
    /\ (forall j q,
          obj.(ExtendedPredictedObject.predicted_paths) !! j = Some q ->
          q.(PredictedPathWithPolygon.confidence)
          <= p.(PredictedPathWithPolygon.confidence))
    /\ (forall j q,
          (j < k)%nat ->
          obj.(ExtendedPredictedObject.predicted_paths) !! j = Some q ->
          q.(PredictedPathWithPolygon.confidence)
          < p.(PredictedPathWithPolygon.confidence)).
Proof.
  intros Hne.
  destruct (max_element_first_maximum PredictedPathWithPolygon.confidence
              _ Hne) as (k & p & Hmax & Hfirst).
  exists k, p. split; [|exact Hfirst].
  unfold getPredictedPathFromObj. simpl.
  fold (key_lt PredictedPathWithPolygon.confidence). by rewrite Hmax.
Qed.

(** ** Partition by lanelets *)

Section Positions.

Context {A : Type}.
Variable P : A -> Prop.
Context `{!forall x, Decision (P x)}.

Lemma elem_of_positions (l : list A) (a i : nat) :
  i ∈ positions P a l
  <-> (a <= i)%nat /\ exists x, l !! (i - a)%nat = Some x /\ P x.
Proof.
  revert a. induction l as [|x l IH]; intros a; simpl.
  - split; [by intros ?%elem_of_nil | by intros (_ & ? & ? & _)].
  - assert (Hrest : i ∈ positions P (S a) l
                    <-> (a < i)%nat /\ exists y, (x :: l) !! (i - a)%nat = Some y /\ P y).
    { rewrite IH. split.
      - intros (Hle & y & Hy & HP). split; [lia|]. exists y. split; [|done].
        by replace (i - a)%nat with (S (i - S a)) by lia.
      - intros (Hlt & y & Hy & HP). split; [lia|]. exists y. split; [|done].
        by replace (i - a)%nat with (S (i - S a)) in Hy by lia. }
    destruct (decide (P x)) as [HP|HP].
    + rewrite elem_of_cons, Hrest. split.
      * intros [->|(Hlt & y & Hy & HPy)].
        -- split; [lia|]. exists x. by rewrite Nat.sub_diag.
        -- split; [lia|]. by exists y.
      * intros (Hle & y & Hy & HPy).
        destruct (decide (i = a)) as [->|Hne]; [by left|right].
        split; [lia|]. by exists y.
    + rewrite Hrest. split.
      * intros (Hlt & y & Hy & HPy). split; [lia|]. by exists y.
      * intros (Hle & y & Hy & HPy).
        destruct (decide (i = a)) as [->|Hne].
        -- rewrite Nat.sub_diag in Hy. by simplify_eq/=.
        -- split; [lia|]. by exists y.
Qed.

Lemma positions_complement (l : list A) (a : nat) :
  positions P a l ++ positions (fun x => ~ P x) a l ≡ₚ seq a (length l).
Proof.
  revert a. induction l as [|x l IH]; intros a; simpl; [done|].
  destruct (decide (P x)) as [HP|HP].
  - rewrite decide_False by tauto. simpl. by rewrite IH.
  - rewrite decide_True by done. rewrite <- Permutation_middle. by rewrite IH.
Qed.

End Positions.

Section PartitionProperties.

Variable toPolygon2d : PredictedObject.t -> Polygon2d.t.
Variable disjoint : Polygon2d.t -> Polygon2d.t -> bool.

Local Abbreviation meets := (meets_some_lanelet toPolygon2d disjoint).

Lemma make_lanelet_polygon_closed (p : Point2d.t) (ps : list Point2d.t) :
  (make_lanelet_polygon (p :: ps)).(Polygon2d.outer) = p :: ps ++ [p].
Proof.
  unfold make_lanelet_polygon.
  assert (Hcopy : forall l acc,
            foldl (fun outer q => outer ++ [Point2d.mk q.(Point2d.x) q.(Point2d.y)])
                  acc l = acc ++ l).
  { induction l as [|[qx qy] l IH]; intros acc; simpl.
    - by rewrite app_nil_r.
    - rewrite IH. by rewrite <- app_assoc. }
  simpl. rewrite Hcopy. by destruct p.
Qed.

Lemma lanelet_loop_spec (i : nat) (obj : PredictedObject.t)
    (target_lanelets : list ConstLanelet.t) (target_indices : list nat) :
  lanelet_loop disjoint i (toPolygon2d obj) target_lanelets target_indices
  = if decide (meets target_lanelets obj)
    then (target_indices ++ [i], true)
    else (target_indices, false).
Proof.
  induction target_lanelets as [|llt rest IH]; cbn [lanelet_loop].
  - rewrite decide_False; [done|]. by intros ?%Exists_nil.
  - destruct (decide (meets_lanelet toPolygon2d disjoint obj llt)) as [Hm|Hm].
    + rewrite decide_True by (by apply Exists_cons_hd).
      destruct Hm as [Hne Hdis].
      destruct (ConstLanelet.basicPolygon llt) as [|p ps] eqn:Epoly; [done|].
      by rewrite Hdis.
    + assert (Hskip :
        (match ConstLanelet.basicPolygon llt with
         | [] => lanelet_loop disjoint i (toPolygon2d obj) rest target_indices
         | _ :: _ =>
             if negb (disjoint (make_lanelet_polygon (ConstLanelet.basicPolygon llt))
                               (toPolygon2d obj))
             then (target_indices ++ [i], true)
             else lanelet_loop disjoint i (toPolygon2d obj) rest target_indices
         end)
        = lanelet_loop disjoint i (toPolygon2d obj) rest target_indices).
      { unfold meets_lanelet in Hm.
        destruct (ConstLanelet.basicPolygon llt) as [|p ps] eqn:Epoly; [done|].
        destruct (disjoint _ _) eqn:Hdis; [done|].
        exfalso. apply Hm. by split. }
      rewrite Hskip, IH.
      destruct (decide (meets rest obj)) as [Hr|Hr].
      * by rewrite decide_True by (by apply Exists_cons_tl).
      * rewrite decide_False; [done|].
        by intros [?|?]%Exists_cons.
Qed.

Lemma object_loop_positions (objects : PredictedObjects.t)
    (target_lanelets : list ConstLanelet.t)
    (suf pre : list PredictedObject.t) (target_indices other_indices : list nat) :
  objects.(PredictedObjects.objects) = pre ++ suf ->
  object_loop toPolygon2d disjoint objects target_lanelets
    (seq (length pre) (length suf)) target_indices other_indices
  = Some (target_indices
            ++ positions (meets target_lanelets) (length pre) suf,
          other_indices
            ++ positions (fun obj => ~ meets target_lanelets obj) (length pre) suf).
Proof.
  revert pre target_indices other_indices.
  induction suf as [|obj suf IH]; intros pre tis ois Hobjs;
    cbn [length seq object_loop positions].
  - by rewrite !app_nil_r.
  - rewrite Hobjs, list_lookup_middle by done.
    cbn [mbind option_bind].
    rewrite lanelet_loop_spec.
    assert (Hobjs' : objects.(PredictedObjects.objects) = (pre ++ [obj]) ++ suf)
      by (by rewrite <- app_assoc).
    specialize (IH (pre ++ [obj])).
    rewrite length_app in IH. simpl in IH.
    rewrite Nat.add_1_r in IH.
    destruct (decide (meets target_lanelets obj)) as [Hm|Hm].
    + rewrite decide_False by tauto. simpl.
      rewrite (IH _ _ Hobjs'). by rewrite <- !app_assoc.
    + rewrite decide_True by done. simpl.
      rewrite (IH _ _ Hobjs'). by rewrite <- !app_assoc.
Qed.

Lemma push_back_at_positions (P : PredictedObject.t -> Prop)
    `{!forall obj, Decision (P obj)} (objects : PredictedObjects.t)
    (suf pre : list PredictedObject.t) (out : PredictedObjects.t) :
  objects.(PredictedObjects.objects) = pre ++ suf ->
  push_back_at objects (positions P (length pre) suf) out
  = Some (PredictedObjects.mk out.(PredictedObjects.header)
            (out.(PredictedObjects.objects) ++ filter P suf)).
Proof.
  revert pre out. induction suf as [|obj suf IH]; intros pre out Hobjs; simpl.
  - rewrite app_nil_r. by destruct out.
  - assert (Hobjs' : objects.(PredictedObjects.objects) = (pre ++ [obj]) ++ suf)
      by (by rewrite <- app_assoc).
    specialize (IH (pre ++ [obj])).
    rewrite length_app in IH. simpl in IH. rewrite Nat.add_1_r in IH.
    destruct (decide (P obj)) as [HP|HP].
    + rewrite (filter_cons_True P obj suf HP). simpl.
      rewrite Hobjs, list_lookup_middle by done. simpl.
      rewrite (IH _ Hobjs'). simpl. by rewrite <- app_assoc.
    + rewrite (filter_cons_False P obj suf HP). by apply IH.
Qed.

(** C9.  With an empty list of target lanelets both outputs are empty,
    whatever the batch: neither holds the original objects. *)
Theorem separateObjectsByLanelets_no_lanelets (objects : PredictedObjects.t) :
  separateObjectIndicesByLanelets toPolygon2d disjoint objects [] = Some ([], [])
  /\ exists target_objects other_objects,
       separateObjectsByLanelets toPolygon2d disjoint objects []
       = Some (target_objects, other_objects)
       /\ target_objects.(PredictedObjects.objects) = []
       /\ other_objects.(PredictedObjects.objects) = [].
Proof.
  split; [done|].
  by exists PredictedObjects.default, PredictedObjects.default.
Qed.

(** C5.  With a non-empty list of target lanelets, an object goes to the
    first output iff its footprint is not disjoint from the closed ring of
    at least one target lanelet whose polygon is not empty, and to the
    second output otherwise; each index is listed once, in exactly one of
    the two index lists, and both outputs keep the order of the input.  The
    loop over the lanelets pushes the index once and reports a match as
    soon as one lanelet matches, whatever follows it; the ring of a lanelet
    is its polygon followed by its first point. *)
Theorem separateObjectsByLanelets_partition
    (objects : PredictedObjects.t) (target_lanelets : list ConstLanelet.t) :
  target_lanelets <> [] ->
  exists target_indices other_indices target_objects other_objects,
    separateObjectIndicesByLanelets toPolygon2d disjoint objects target_lanelets
    = Some (target_indices, other_indices)
    /\ separateObjectsByLanelets toPolygon2d disjoint objects target_lanelets
       = Some (target_objects, other_objects)
    /\ (forall i,
          i ∈ target_indices
          <-> exists obj llt,
                objects.(PredictedObjects.objects) !! i = Some obj
                /\ llt ∈ target_lanelets
                /\ llt.(ConstLanelet.basicPolygon) <> []
                /\ disjoint (make_lanelet_polygon llt.(ConstLanelet.basicPolygon))
                            (toPolygon2d obj) = false)
    /\ (forall i,
          i ∈ other_indices
          <-> exists obj,
                objects.(PredictedObjects.objects) !! i = Some obj
                /\ forall llt,
                     llt ∈ target_lanelets ->
                     llt.(ConstLanelet.basicPolygon) = []
                     \/ disjoint (make_lanelet_polygon llt.(ConstLanelet.basicPolygon))
                                 (toPolygon2d obj) = true)
    /\ target_indices ++ other_indices
       ≡ₚ seq 0 (length objects.(PredictedObjects.objects))
    /\ target_objects.(PredictedObjects.objects)
       = filter (meets target_lanelets) objects.(PredictedObjects.objects)
    /\ other_objects.(PredictedObjects.objects)
       = filter (fun obj => ~ meets target_lanelets obj)
                objects.(PredictedObjects.objects)
    /\ target_objects.(PredictedObjects.objects)
         ++ other_objects.(PredictedObjects.objects)
       ≡ₚ objects.(PredictedObjects.objects)
    /\ (forall i obj llt indices,
          llt ∈ target_lanelets ->
          llt.(ConstLanelet.basicPolygon) <> [] ->
          disjoint (make_lanelet_polygon llt.(ConstLanelet.basicPolygon))
                   (toPolygon2d obj) = false ->
          lanelet_loop disjoint i (toPolygon2d obj) target_lanelets indices
          = (indices ++ [i], true))
    /\ (forall p ps,
          (make_lanelet_polygon (p :: ps)).(Polygon2d.outer) = p :: ps ++ [p]).
Proof.
  intros Hne.
  pose (tis := positions (meets target_lanelets) 0 objects.(PredictedObjects.objects)).
  pose (ois := positions (fun obj => ~ meets target_lanelets obj) 0
                 objects.(PredictedObjects.objects)).
  assert (Hidx :
    separateObjectIndicesByLanelets toPolygon2d disjoint objects target_lanelets
    = Some (tis, ois)).
  { unfold separateObjectIndicesByLanelets.
    destruct target_lanelets as [|llt rest]; [done|].
    exact (object_loop_positions objects (llt :: rest)
             objects.(PredictedObjects.objects) [] [] [] eq_refl). }
  exists tis, ois,
    (PredictedObjects.mk Header.default
       (filter (meets target_lanelets) objects.(PredictedObjects.objects))),
    (PredictedObjects.mk Header.default
       (filter (fun obj => ~ meets target_lanelets obj)
               objects.(PredictedObjects.objects))).
  split_and!; try done.
  - unfold separateObjectsByLanelets. rewrite Hidx. simpl.
    unfold tis, ois.
    rewrite (push_back_at_positions _ objects
               objects.(PredictedObjects.objects) [] _ eq_refl). simpl.
    by rewrite (push_back_at_positions _ objects
                  objects.(PredictedObjects.objects) [] _ eq_refl).
  - intros i. unfold tis. rewrite elem_of_positions, Nat.sub_0_r.
    unfold meets_some_lanelet, meets_lanelet. setoid_rewrite Exists_exists.
    split.
    + intros (_ & obj & Hobj & llt & Hin & Hpoly & Hdis). by exists obj, llt.
    + intros (obj & llt & Hobj & Hin & Hpoly & Hdis).
      split; [lia|]. exists obj. split; [done|]. by exists llt.
  - intros i. unfold ois. rewrite elem_of_positions, Nat.sub_0_r.
    unfold meets_some_lanelet, meets_lanelet. setoid_rewrite Exists_exists.
    split.
    + intros (_ & obj & Hobj & Hnone). exists obj. split; [done|].
      intros llt Hin.
      destruct (decide (ConstLanelet.basicPolygon llt = [])) as [|Hpoly]; [by left|].
      right. destruct (disjoint _ _) eqn:Hdis; [done|].
      exfalso. apply Hnone. by exists llt.
    + intros (obj & Hobj & Hall). split; [lia|]. exists obj. split; [done|].
      intros (llt & Hin & Hpoly & Hdis).
      destruct (Hall llt Hin) as [?|Htrue]; [done|]. by rewrite Hdis in Htrue.
  - apply positions_complement.
  - simpl. apply filter_app_complement.
  - intros i obj llt indices Hin Hpoly Hdis.
    rewrite lanelet_loop_spec. rewrite decide_True; [done|].
    apply Exists_exists. by exists llt.
  - apply make_lanelet_polygon_closed.
Qed.

End PartitionProperties.

(** ** Loops over sample times *)

Lemma sample_time_eq (step : Q) (k : nat) :
  sample_time step k == inject_Z (Z.of_nat k) * step.
Proof.
  induction k as [|k IH]; simpl sample_time.
  - ring.
  - rewrite IH, Nat2Z.inj_succ. unfold Z.succ. rewrite inject_Z_plus. ring.
Qed.

Lemma below_ceiling (x : Q) (k : Z) :
  (k < Qceiling x)%Z <-> inject_Z k < x.
Proof.
  split.
  - intros Hk. eapply Qle_lt_trans; [|apply Qceiling_lt].
    rewrite <- Zle_Qle. lia.
  - intros Hk. rewrite Zlt_Qlt.
    eapply Qlt_le_trans; [exact Hk | apply Qle_ceiling].
Qed.

Lemma sample_count_spec (bound step : Q) (k : nat) :
  0 < step ->
  (k < sample_count bound step)%nat <-> sample_time step k < bound.
Proof.
  intros Hstep. unfold sample_count. rewrite sample_time_eq.
  assert (Hnz : ~ step == 0).
  { intros Heq. rewrite Heq in Hstep. by apply Qlt_irrefl in Hstep. }
  transitivity (Z.of_nat k < Qceiling (bound / step))%Z; [lia|].
  rewrite below_ceiling. split.
  - intros Hk. apply (Qmult_lt_compat_r _ _ step Hstep) in Hk.
    rewrite (Qmult_comm (bound / step)), Qmult_div_r in Hk by done. exact Hk.
  - intros Hk. by apply Qlt_shift_div_l.
Qed.

Section ForDouble.

Context {St : Type}.
Variables (bound step : Q) (body : Q -> St -> St).

Lemma for_double_run (n : nat) :
  forall (fuel k : nat) (s : St),
    (forall j, (k <= j < k + n)%nat -> sample_time step j < bound) ->
    ~ sample_time step (k + n) < bound ->
    (n < fuel)%nat ->
    for_double fuel bound step body (sample_time step k) s
    = Some (foldl (fun s j => body (sample_time step j) s) s (seq k n)).
Proof.
  induction n as [|n IH]; intros fuel k s Hbelow Hstop Hfuel;
    (destruct fuel as [|fuel]; [lia|]); simpl.
  - rewrite Nat.add_0_r in Hstop. by rewrite decide_False.
  - rewrite decide_True by (apply Hbelow; lia).
    change (sample_time step k + step) with (sample_time step (S k)).
    apply IH; [| |lia].
    + intros j Hj. apply Hbelow. lia.
    + by replace (S k + n)%nat with (k + S n)%nat by lia.
Qed.


Lemma for_double_diverges (fuel : nat) (t : Q) (s : St) :
  step <= 0 -> t < bound ->
  for_double fuel bound step body t s = None.
Proof.
  intros Hstep. revert t s.
  induction fuel as [|fuel IH]; intros t s Ht; simpl; [done|].
  rewrite decide_True by done. apply IH.
  eapply Qle_lt_trans; [|exact Ht].
  rewrite <- (Qplus_0_r t) at 2. by apply Qplus_le_r.
Qed.

End ForDouble.


(** ** Loops in the arithmetic of doubles *)

Section RoundedLoop.

Variable A : DoubleArith.t.
Context {St : Type}.
Variables (bound step : Q) (body : Q -> St -> St).

Lemma rounded_for_double_run (n : nat) :
  forall (fuel k : nat) (s : St),
    (forall j, (k <= j < k + n)%nat -> Rounded.counter A step j < bound) ->
    ~ Rounded.counter A step (k + n) < bound ->
    (n < fuel)%nat ->
    Rounded.for_double A fuel bound step body (Rounded.counter A step k) s
    = Some (foldl (fun s j => body (Rounded.counter A step j) s) s (seq k n)).
Proof.
  induction n as [|n IH]; intros fuel k s Hbelow Hstop Hfuel;
    (destruct fuel as [|fuel]; [lia|]); simpl.
  - rewrite Nat.add_0_r in Hstop. by rewrite decide_False.
  - rewrite decide_True by (apply Hbelow; lia).
    change (DoubleArith.add A (Rounded.counter A step k) step)
      with (Rounded.counter A step (S k)).
    apply IH; [| |lia].
    + intros j Hj. apply Hbelow. lia.
    + by replace (S k + n)%nat with (k + S n)%nat by lia.
Qed.

Lemma rounded_for_double_ends (n fuel : nat) (s : St) :
  Rounded.ends_after A bound step n ->
  (n < fuel)%nat ->
  Rounded.for_double A fuel bound step body 0 s
  = Some (foldl (fun s j => body (Rounded.counter A step j) s) s (seq 0 n)).
Proof.
  intros [Hbelow Hstop] Hfuel.
  apply (rounded_for_double_run n fuel 0 s); [| done | done].
  intros j Hj. apply Hbelow. lia.
Qed.

Lemma rounded_for_double_Some (fuel : nat) :
  forall (k : nat) (s s' : St),
    Rounded.for_double A fuel bound step body (Rounded.counter A step k) s
    = Some s' ->
    exists n : nat,
      (n < fuel)%nat
      /\ (forall j, (k <= j < k + n)%nat -> Rounded.counter A step j < bound)
      /\ ~ Rounded.counter A step (k + n) < bound
      /\ s' = foldl (fun s j => body (Rounded.counter A step j) s) s (seq k n).
Proof.
  induction fuel as [|fuel IH]; intros k s s' Hrun; simpl in Hrun; [done|].
  case_decide as Hlt.
  - change (DoubleArith.add A (Rounded.counter A step k) step)
      with (Rounded.counter A step (S k)) in Hrun.
    apply IH in Hrun as (n & Hfuel & Hbelow & Hstop & ->).
    exists (S n). split_and!; [lia| | |done].
    + intros j Hj. destruct (decide (j = k)) as [->|Hne]; [done|].
      apply Hbelow. lia.
    + by replace (k + S n)%nat with (S k + n)%nat by lia.
  - injection Hrun as <-. exists 0%nat. rewrite Nat.add_0_r.
    split_and!; [lia| |done|done]. intros j Hj. lia.
Qed.



Lemma ends_after_check (n : nat) :
  forallb (fun k => bool_decide (Rounded.counter A step k < bound)) (seq 0 n)
  = true ->
  bool_decide (Rounded.counter A step n < bound) = false ->
  Rounded.ends_after A bound step n.
Proof.
  intros Hall Hstop. split.
  - intros k Hk. rewrite forallb_forall in Hall.
    assert (Hin : In k (seq 0 n)) by (apply in_seq; lia).
    apply Hall in Hin. by apply bool_decide_eq_true in Hin.
  - by apply bool_decide_eq_false in Hstop.
Qed.

End RoundedLoop.

(** Without rounding the loop is the one of [for_double], the counter is
    [sample_time], and for a positive step the loop ends after
    [sample_count] tests. *)
Lemma rounded_exact_for_double {St : Type} (fuel : nat) (bound step : Q)
    (body : Q -> St -> St) (t : Q) (s : St) :
  Rounded.for_double DoubleArith.exact fuel bound step body t s
  = for_double fuel bound step body t s.
Proof.
  revert t s. induction fuel as [|fuel IH]; intros t s; simpl; [done|].
  case_decide; [apply IH|done].
Qed.

Lemma rounded_exact_counter (step : Q) (k : nat) :
  Rounded.counter DoubleArith.exact step k = sample_time step k.
Proof. induction k as [|k IH]; simpl; [done|]. by rewrite IH. Qed.

Lemma rounded_exact_ends_after (bound step : Q) :
  0 < step ->
  Rounded.ends_after DoubleArith.exact bound step (sample_count bound step).
Proof.
  intros Hstep. split.
  - intros k Hk. rewrite rounded_exact_counter. by apply sample_count_spec.
  - rewrite rounded_exact_counter, <- sample_count_spec by done. lia.
Qed.

Lemma rounded_exact_createPredictedPath
    (convertToFrenetPoint :
       list PathPointWithLaneId.t -> Point.t -> nat -> FrenetPoint.t)
    (calcInterpolatedPose : list PathPointWithLaneId.t -> Q -> Pose.t)
    (fuel : nat) (params : EgoPredictedPathParams.t)
    (path_points : list PathPointWithLaneId.t) (vehicle_pose : Pose.t)
    (current_velocity : Q) (ego_seg_idx : nat) :
  Rounded.createPredictedPath DoubleArith.exact convertToFrenetPoint
    calcInterpolatedPose fuel params path_points vehicle_pose current_velocity
    ego_seg_idx
  = createPredictedPath convertToFrenetPoint calcInterpolatedPose fuel params
      path_points vehicle_pose current_velocity ego_seg_idx.
Proof.
  unfold Rounded.createPredictedPath, createPredictedPath.
  destruct path_points; [done|]. apply rounded_exact_for_double.
Qed.

Lemma rounded_exact_transform
    (calcInterpolatedPose : PredictedPath.t -> Q -> option Pose.t)
    (toPolygon2d : Pose.t -> Shape.t -> Polygon2d.t)
    (fuel : nat) (object : PredictedObject.t) (horizon step : Q) :
  Rounded.transform DoubleArith.exact calcInterpolatedPose toPolygon2d fuel
    object horizon step
  = transform calcInterpolatedPose toPolygon2d fuel object horizon step.
Proof.
  unfold Rounded.transform, transform.
  generalize (seq 0 (length (PredictedObjectKinematics.predicted_paths
                               (PredictedObject.kinematics object)))).
  intros indices.
  match goal with
  | |- Rounded.transform_paths _ _ _ _ _ _ _ ?v _ ?e = _ =>
      generalize v; generalize e
  end.
  induction indices as [|i indices IH]; intros ext v; simpl; [done|].
  destruct (PredictedObjectKinematics.predicted_paths
              (PredictedObject.kinematics object) !! i) as [path|];
    cbn [mbind option_bind]; [|done].
  rewrite rounded_exact_for_double. unfold eps_1e_3.
  match goal with
  | |- context [for_double ?f ?b ?s ?body ?t ?x] =>
      destruct (for_double f b s body t x) as [ext'|];
        cbn [mbind option_bind]; [|done]
  end.
  apply IH.
Qed.

(** ** Ego projection *)

Section EgoProjectionProperties.

Variable convertToFrenetPoint :
  list PathPointWithLaneId.t -> Point.t -> nat -> FrenetPoint.t.
Variable calcInterpolatedPose : list PathPointWithLaneId.t -> Q -> Pose.t.

Lemma foldl_snoc_map {A B : Type} (f : A -> B) (l : list A) (acc : list B) :
  foldl (fun acc a => acc ++ [f a]) acc l = acc ++ map f l.
Proof.
  revert acc. induction l as [|a l IH]; intros acc; simpl.
  - by rewrite app_nil_r.
  - rewrite IH. by rewrite <- app_assoc.
Qed.

Variable A : DoubleArith.t.

Lemma rounded_createPredictedPath_run
    (params : EgoPredictedPathParams.t)
    (path_points : list PathPointWithLaneId.t) (vehicle_pose : Pose.t)
    (current_velocity : Q) (ego_seg_idx : nat) (n fuel : nat) :
  path_points <> [] ->
  Rounded.ends_after A
    (DoubleArith.add A params.(EgoPredictedPathParams.time_horizon)
       (DoubleArith.lit A (1 # 1000)))
    params.(EgoPredictedPathParams.time_resolution) n ->
  (n < fuel)%nat ->
  Rounded.createPredictedPath A convertToFrenetPoint calcInterpolatedPose fuel
    params path_points vehicle_pose current_velocity ego_seg_idx
  = Some (map (fun k =>
                 Rounded.ego_sample A calcInterpolatedPose params path_points
                   (convertToFrenetPoint path_points vehicle_pose.(Pose.position)
                      ego_seg_idx)
                   current_velocity
                   (Rounded.counter A
                      params.(EgoPredictedPathParams.time_resolution) k))
              (seq 0 n)).
Proof.
  intros Hne Hends Hfuel. unfold Rounded.createPredictedPath.
  destruct path_points as [|pt pts]; [done|].
  rewrite (rounded_for_double_ends A _ _ _ n) by done.
  by rewrite (foldl_snoc_map
                (fun k =>
                   Rounded.ego_sample A calcInterpolatedPose params (pt :: pts)
                     (convertToFrenetPoint (pt :: pts)
                        vehicle_pose.(Pose.position) ego_seg_idx)
                     current_velocity
                     (Rounded.counter A
                        params.(EgoPredictedPathParams.time_resolution) k))).
Qed.

Lemma rounded_createPredictedPath_Some
    (params : EgoPredictedPathParams.t)
    (path_points : list PathPointWithLaneId.t) (vehicle_pose : Pose.t)
    (current_velocity : Q) (ego_seg_idx : nat) (fuel : nat)
    (predicted_path : list PoseWithVelocityStamped.t) :
  path_points <> [] ->
  Rounded.createPredictedPath A convertToFrenetPoint calcInterpolatedPose fuel
    params path_points vehicle_pose current_velocity ego_seg_idx
  = Some predicted_path ->
  exists n : nat,
    (n < fuel)%nat
    /\ Rounded.ends_after A
         (DoubleArith.add A params.(EgoPredictedPathParams.time_horizon)
            (DoubleArith.lit A (1 # 1000)))
         params.(EgoPredictedPathParams.time_resolution) n
    /\ predicted_path
       = map (fun k =>
                Rounded.ego_sample A calcInterpolatedPose params path_points
                  (convertToFrenetPoint path_points vehicle_pose.(Pose.position)
                     ego_seg_idx)
                  current_velocity
                  (Rounded.counter A
                     params.(EgoPredictedPathParams.time_resolution) k))
             (seq 0 n).
Proof.
  intros Hne Hrun. unfold Rounded.createPredictedPath in Hrun.
  destruct path_points as [|pt pts]; [done|].
  apply (rounded_for_double_Some A _ _ _ fuel 0) in Hrun
    as (n & Hfuel & Hbelow & Hstop & ->).
  exists n. split_and!; [done| |].
  - split; [|done]. intros k Hk. apply Hbelow. lia.
  - by rewrite (foldl_snoc_map
                  (fun k =>
                     Rounded.ego_sample A calcInterpolatedPose params (pt :: pts)
                       (convertToFrenetPoint (pt :: pts)
                          vehicle_pose.(Pose.position) ego_seg_idx)
                       current_velocity
                       (Rounded.counter A
                          params.(EgoPredictedPathParams.time_resolution) k))).
Qed.


End EgoProjectionProperties.

(** ** Other-agent projection *)

Lemma update_predicted_paths_const
    (l : list PredictedPathWithPolygon.t)
    (f : list PredictedPathWithPolygon.t -> list PredictedPathWithPolygon.t)
    (ext : ExtendedPredictedObject.t) :
  update_predicted_paths (fun _ => l) (update_predicted_paths f ext)
  = update_predicted_paths (fun _ => l) ext.
Proof. done. Qed.

Lemma update_predicted_paths_compose
    (f g : list PredictedPathWithPolygon.t -> list PredictedPathWithPolygon.t)
    (ext : ExtendedPredictedObject.t) :
  update_predicted_paths f (update_predicted_paths g ext)
  = update_predicted_paths (fun l => f (g l)) ext.
Proof. done. Qed.

Lemma update_predicted_paths_eq
    (f g : list PredictedPathWithPolygon.t -> list PredictedPathWithPolygon.t)
    (ext : ExtendedPredictedObject.t) :
  f ext.(ExtendedPredictedObject.predicted_paths)
  = g ext.(ExtendedPredictedObject.predicted_paths) ->
  update_predicted_paths f ext = update_predicted_paths g ext.
Proof. unfold update_predicted_paths. by intros ->. Qed.

Section OtherAgentProperties.

Variable calcInterpolatedPose : PredictedPath.t -> Q -> option Pose.t.
Variable toPolygon2d : Pose.t -> Shape.t -> Polygon2d.t.

Local Abbreviation emitted := (emitted_sample calcInterpolatedPose toPolygon2d).
Local Abbreviation projected := (projected_path calcInterpolatedPose toPolygon2d).

Lemma transform_body_foldl (object : PredictedObject.t) (i : nat)
    (path : PredictedPath.t) (step : Q) (ks : list nat)
    (ext : ExtendedPredictedObject.t) :
  foldl (fun s k =>
           transform_body calcInterpolatedPose toPolygon2d object
             (twist_linear object).(Vector3.x) i path (sample_time step k) s)
        ext ks
  = update_predicted_paths
      (alter (append_samples
                (omap (fun k => emitted object path (sample_time step k)) ks))
             i)
      ext.
Proof.
  revert ext. induction ks as [|k ks IH]; intros ext; simpl.
  - destruct ext as [? ? ? ? ? paths]. unfold update_predicted_paths. simpl.
    f_equal. symmetry. apply list_alter_id.
    intros [c p]. unfold append_samples. simpl. by rewrite app_nil_r.
  - rewrite IH. unfold transform_body, emitted_sample.
    destruct (calcInterpolatedPose path (sample_time step k)) as [obj_pose|]; simpl.
    + rewrite update_predicted_paths_compose.
      apply update_predicted_paths_eq.
      rewrite list_alter_alter_eq. apply list_alter_ext; [|done].
      intros [c p] _. unfold append_samples. simpl. by rewrite <- app_assoc.
    + done.
Qed.



End OtherAgentProperties.

Lemma omap_all_None {A B : Type} (f : A -> option B) (l : list A) :
  (forall x, x ∈ l -> f x = None) -> omap f l = [].
Proof.
  induction l as [|x l IH]; intros Hnone; [done|].
  change (omap f (x :: l))
    with (match f x with Some y => y :: omap f l | None => omap f l end).
  rewrite (Hnone x) by apply list_elem_of_here.
  apply IH. intros y Hy. apply Hnone. by apply list_elem_of_further.
Qed.

Lemma length_omap_filter {A B : Type} (f : A -> option B) (l : list A) :
  length (omap f l) = length (filter (fun x => is_Some (f x)) l).
Proof.
  induction l as [|x l IH]; [done|].
  change (omap f (x :: l))
    with (match f x with Some y => y :: omap f l | None => omap f l end).
  destruct (f x) as [y|] eqn:E.
  - rewrite filter_cons_True by (by rewrite E). simpl. by rewrite IH.
  - rewrite filter_cons_False; [done|]. rewrite E. by intros [? ?].
Qed.

Lemma omap_all_Some_length {A B : Type} (f : A -> option B) (l : list A) :
  (forall x, x ∈ l -> is_Some (f x)) -> length (omap f l) = length l.
Proof.
  induction l as [|x l IH]; intros Hsome; [done|].
  change (omap f (x :: l))
    with (match f x with Some y => y :: omap f l | None => omap f l end).
  destruct (Hsome x) as [y ->]; [apply list_elem_of_here|]. simpl.
  rewrite IH; [done|]. intros z Hz. apply Hsome. by apply list_elem_of_further.
Qed.

Section SingleSample.

Variable interpolate : Pose.t -> Pose.t -> Q -> Pose.t.

Lemma interpolate_single_at_0 (p : Pose.t) :
  interpolate_samples interpolate [(0, p)] 0 = Some p.
Proof. done. Qed.

Lemma interpolate_single_after_0 (p : Pose.t) (t : Q) :
  0 < t -> interpolate_samples interpolate [(0, p)] t = None.
Proof.
  intros Ht. simpl.
  rewrite decide_False by (by apply Qle_not_lt, Qlt_le_weak).
  by rewrite decide_False by (by apply Qlt_not_le).
Qed.

End SingleSample.

Section RoundedOtherAgent.

Variable A : DoubleArith.t.
Variable calcInterpolatedPose : PredictedPath.t -> Q -> option Pose.t.
Variable toPolygon2d : Pose.t -> Shape.t -> Polygon2d.t.

Local Abbreviation emitted := (emitted_sample calcInterpolatedPose toPolygon2d).
Local Abbreviation projected :=
  (Rounded.projected_path A calcInterpolatedPose toPolygon2d).

Lemma transform_body_foldl_at (times : nat -> Q)
    (object : PredictedObject.t) (i : nat)
    (path : PredictedPath.t) (ks : list nat)
    (ext : ExtendedPredictedObject.t) :
  foldl (fun s k =>
           transform_body calcInterpolatedPose toPolygon2d object
             (twist_linear object).(Vector3.x) i path (times k) s)
        ext ks
  = update_predicted_paths
      (alter (append_samples (omap (fun k => emitted object path (times k)) ks))
             i)
      ext.
Proof.
  revert ext. induction ks as [|k ks IH]; intros ext; simpl.
  - destruct ext as [? ? ? ? ? paths]. unfold update_predicted_paths. simpl.
    f_equal. symmetry. apply list_alter_id.
    intros [c p]. unfold append_samples. simpl. by rewrite app_nil_r.
  - rewrite IH. unfold transform_body, emitted_sample.
    destruct (calcInterpolatedPose path (times k)) as [obj_pose|]; simpl.
    + rewrite update_predicted_paths_compose.
      apply update_predicted_paths_eq.
      rewrite list_alter_alter_eq. apply list_alter_ext; [|done].
      intros [c p] _. unfold append_samples. simpl. by rewrite <- app_assoc.
    + done.
Qed.

Lemma rounded_transform_paths_spec (fuel : nat) (object : PredictedObject.t)
    (horizon step : Q) (n : nat) :
  Rounded.ends_after A
    (DoubleArith.add A horizon (DoubleArith.lit A (1 # 1000))) step n ->
  (n < fuel)%nat ->
  forall (todo done_in : list PredictedPath.t)
         (done_out : list PredictedPathWithPolygon.t)
         (ext : ExtendedPredictedObject.t),
    object.(PredictedObject.kinematics).(PredictedObjectKinematics.predicted_paths)
    = done_in ++ todo ->
    ext.(ExtendedPredictedObject.predicted_paths)
    = done_out ++ replicate (length todo) PredictedPathWithPolygon.default ->
    length done_out = length done_in ->
    Rounded.transform_paths A calcInterpolatedPose toPolygon2d fuel object
      horizon step (twist_linear object).(Vector3.x)
      (seq (length done_in) (length todo)) ext
    = Some (update_predicted_paths
              (fun _ => done_out ++ map (projected object step n) todo)
              ext).
Proof.
  intros Hends Hfuel.
  induction todo as [|path todo IH];
    intros done_in done_out ext Hin Hout Hlen;
    cbn [length seq Rounded.transform_paths map].
  - simpl in Hout. rewrite app_nil_r in *.
    destruct ext. unfold update_predicted_paths. simpl in *. by subst.
  - rewrite Hin, list_lookup_middle by done. cbn [mbind option_bind].
    rewrite (rounded_for_double_ends A _ _ _ n) by done.
    cbn [mbind option_bind].
    rewrite (transform_body_foldl_at (Rounded.counter A step)).
    assert (Hin' :
      object.(PredictedObject.kinematics).(PredictedObjectKinematics.predicted_paths)
      = (done_in ++ [path]) ++ todo) by (by rewrite <- app_assoc).
    specialize (IH (done_in ++ [path])
                   (done_out ++ [projected object step n path])).
    replace (S (length done_in)) with (length (done_in ++ [path]))
      by (rewrite length_app; simpl; lia).
    rewrite IH; [| done | | by rewrite !length_app, Hlen].
    + rewrite !update_predicted_paths_const. by rewrite <- app_assoc.
    + simpl. rewrite Hout. rewrite list_alter_alter_eq. simpl.
      replace (length done_in) with (length done_out + 0)%nat by lia.
      rewrite alter_app_r. simpl. by rewrite <- app_assoc.
Qed.

Lemma rounded_transform_result (fuel : nat) (object : PredictedObject.t)
    (horizon step : Q) (n : nat) :
  Rounded.ends_after A
    (DoubleArith.add A horizon (DoubleArith.lit A (1 # 1000))) step n ->
  (n < fuel)%nat ->
  Rounded.transform A calcInterpolatedPose toPolygon2d fuel object horizon step
  = Some (Rounded.transformed A calcInterpolatedPose toPolygon2d step n object).
Proof.
  intros Hends Hfuel. unfold Rounded.transform.
  pose proof (rounded_transform_paths_spec fuel object horizon step n Hends Hfuel
                object.(PredictedObject.kinematics)
                  .(PredictedObjectKinematics.predicted_paths) [] []) as Hspec.
  simpl in Hspec. cbn [ExtendedPredictedObject.initial_twist].
  rewrite Hspec; [done|done| |done].
  simpl. by rewrite take_nil, Nat.sub_0_r.
Qed.

End RoundedOtherAgent.

Section OtherAgentClaims.

Variable A : DoubleArith.t.
Variable interpolate : Pose.t -> Pose.t -> Q -> Pose.t.
Variable calcInterpolatedPose : PredictedPath.t -> Q -> option Pose.t.
Variable toPolygon2d : Pose.t -> Shape.t -> Polygon2d.t.

Lemma rounded_projected_samples_single
    (object : PredictedObject.t) (path : PredictedPath.t) (p : Pose.t)
    (step : Q) (n : nat) :
  (0 < n)%nat ->
  (forall k : nat, (0 < k < n)%nat -> 0 < Rounded.counter A step k) ->
  path.(PredictedPath.path) = [(0, p)] ->
  Rounded.projected_samples A (calcInterpolatedPose_spec interpolate)
    toPolygon2d object step n path
  = [PoseWithVelocityAndPolygonStamped.mk 0 p
       (twist_linear object).(Vector3.x)
       (toPolygon2d p object.(PredictedObject.shape))].
Proof.
  intros Hn Hpos Hpath. destruct n as [|n]; [lia|].
  unfold Rounded.projected_samples. cbn [seq omap list_omap].
  unfold emitted_sample at 1, calcInterpolatedPose_spec at 1.
  rewrite Hpath. cbn [Rounded.counter]. rewrite interpolate_single_at_0.
  cbn [mbind option_bind]. f_equal.
  apply omap_all_None. intros k Hk. apply elem_of_seq in Hk.
  unfold emitted_sample, calcInterpolatedPose_spec. rewrite Hpath.
  rewrite interpolate_single_after_0; [done|].
  apply Hpos. lia.
Qed.

(** C2, as the code has it.  The loop of [transform] over the time tests
    its condition on the values [t_0 = 0], [t_(k+1) = t_k + resolution] of
    a [double] counter, each sum rounded, against [horizon + 1e-3].  When
    this loop ends at the [n]-th test, [transform] returns, as soon as the
    fuel exceeds [n], one projected path for each predicted path of the
    object, in the same order and with the same confidence.  The path
    holds, for the times [t_0], ..., [t_(n-1)] in this order, one sample
    for each time at which the interpolation of the predicted path is
    defined and none for the others; the sample has this time, the
    interpolated pose, the footprint at this pose and, as its velocity, the
    [x] component of the object's initial linear velocity, the same for all
    samples.  With the interpolation of the spec, a horizon for which
    [0 < horizon + 1e-3] and counter values that are positive after the
    first, a predicted path with the single sample [(0, p)] yields the
    single projected sample of time [0] and pose [p].  The statement holds
    for every arithmetic, so for the one of binary64. *)
Theorem transform_loop_samples
    (object : PredictedObject.t) (horizon r : Q) (n : nat) :
  Rounded.ends_after A
    (DoubleArith.add A horizon (DoubleArith.lit A (1 # 1000))) r n ->
  (exists ext,
     (forall fuel,
        (n < fuel)%nat ->
        Rounded.transform A calcInterpolatedPose toPolygon2d fuel object
          horizon r
        = Some ext)
     /\ length ext.(ExtendedPredictedObject.predicted_paths)
        = length object.(PredictedObject.kinematics)
                   .(PredictedObjectKinematics.predicted_paths)
     /\ forall i path,
          object.(PredictedObject.kinematics)
                .(PredictedObjectKinematics.predicted_paths) !! i = Some path ->
          exists pp,
            ext.(ExtendedPredictedObject.predicted_paths) !! i = Some pp
            /\ pp.(PredictedPathWithPolygon.confidence)
               = path.(PredictedPath.confidence)
            /\ pp.(PredictedPathWithPolygon.path)
               = omap (fun k =>
                         obj_pose ← calcInterpolatedPose path
                                      (Rounded.counter A r k);
                         Some (PoseWithVelocityAndPolygonStamped.mk
                                 (Rounded.counter A r k) obj_pose
                                 (twist_linear object).(Vector3.x)
                                 (toPolygon2d obj_pose
                                    object.(PredictedObject.shape))))
                      (seq 0 n)
            /\ forall s,
                 s ∈ pp.(PredictedPathWithPolygon.path) ->
                 s.(PoseWithVelocityAndPolygonStamped.velocity)
                 = (twist_linear object).(Vector3.x)
                 /\ calcInterpolatedPose path
                      s.(PoseWithVelocityAndPolygonStamped.time)
                    = Some s.(PoseWithVelocityAndPolygonStamped.pose)
                 /\ s.(PoseWithVelocityAndPolygonStamped.poly)
                    = toPolygon2d s.(PoseWithVelocityAndPolygonStamped.pose)
                        object.(PredictedObject.shape)
                 /\ exists k : nat,
                      (k < n)%nat
                      /\ s.(PoseWithVelocityAndPolygonStamped.time)
                         = Rounded.counter A r k)
  /\ (forall i path p,
        0 < DoubleArith.add A horizon (DoubleArith.lit A (1 # 1000)) ->
        (forall k : nat, (0 < k < n)%nat -> 0 < Rounded.counter A r k) ->
        object.(PredictedObject.kinematics)
              .(PredictedObjectKinematics.predicted_paths) !! i = Some path ->
        path.(PredictedPath.path) = [(0, p)] ->
        exists ext pp,
          (forall fuel,
             (n < fuel)%nat ->
             Rounded.transform A (calcInterpolatedPose_spec interpolate)
               toPolygon2d fuel object horizon r
             = Some ext)
          /\ ext.(ExtendedPredictedObject.predicted_paths) !! i = Some pp
          /\ pp.(PredictedPathWithPolygon.path)
             = [PoseWithVelocityAndPolygonStamped.mk 0 p
                  (twist_linear object).(Vector3.x)
                  (toPolygon2d p object.(PredictedObject.shape))]).
Proof.
  intros Hends. split.
  - eexists. split_and!.
    + intros fuel Hfuel. by apply rounded_transform_result.
    + simpl. by rewrite length_map.
    + intros i path Hpath. simpl.
      exists (Rounded.projected_path A calcInterpolatedPose toPolygon2d
                object r n path).
      split_and!; [|done|done|].
      * rewrite list_lookup_fmap. by rewrite Hpath.
      * intros s Hs. apply list_elem_of_omap in Hs as (k & Hk & Hs).
        apply elem_of_seq in Hk. unfold emitted_sample in Hs.
        destruct (calcInterpolatedPose path (Rounded.counter A r k))
          as [pose|] eqn:E; [|done].
        simpl in Hs. injection Hs as <-. simpl. split_and!; [done..|].
        exists k. split; [lia|done].
  - intros i path p Hpos Hlater Hpath Hsingle. eexists. eexists. split_and!.
    + intros fuel Hfuel. by apply rounded_transform_result.
    + simpl. rewrite list_lookup_fmap. rewrite Hpath. done.
    + simpl. apply rounded_projected_samples_single; [|done|done].
      destruct n as [|n]; [|lia]. by destruct Hends as [_ []].
Qed.

(** C6, as the code has it.  When the loop of [transform] over the time
    ends at the [n]-th test of its condition, the sample count of each
    projected path is the number of counter values [t_0], ..., [t_(n-1)] at
    which the interpolation of the predicted path is defined: at most the
    number [n] of iterations of the loop, and equal to it when the
    interpolation is defined at each of them.  The statement holds for
    every arithmetic, so for the one of binary64. *)
Theorem transform_loop_sample_count
    (object : PredictedObject.t) (horizon r : Q) (n : nat) :
  Rounded.ends_after A
    (DoubleArith.add A horizon (DoubleArith.lit A (1 # 1000))) r n ->
  exists ext,
    (forall fuel,
       (n < fuel)%nat ->
       Rounded.transform A calcInterpolatedPose toPolygon2d fuel object
         horizon r
       = Some ext)
    /\ forall i path pp,
         object.(PredictedObject.kinematics)
               .(PredictedObjectKinematics.predicted_paths) !! i = Some path ->
         ext.(ExtendedPredictedObject.predicted_paths) !! i = Some pp ->
         length pp.(PredictedPathWithPolygon.path)
         = length (filter (fun k : nat =>
                             is_Some (calcInterpolatedPose path
                                        (Rounded.counter A r k)))
                          (seq 0 n))
         /\ (length pp.(PredictedPathWithPolygon.path) <= n)%nat
         /\ ((forall k : nat,
                (k < n)%nat ->
                is_Some (calcInterpolatedPose path (Rounded.counter A r k))) ->
             length pp.(PredictedPathWithPolygon.path) = n).
Proof.
  intros Hends. eexists. split.
  - intros fuel Hfuel. by apply rounded_transform_result.
  - intros i path pp Hpath Hpp. simpl in Hpp.
    rewrite list_lookup_fmap, Hpath in Hpp. injection Hpp as <-.
    simpl. unfold Rounded.projected_samples.
    assert (Hsome : forall k,
              is_Some (emitted_sample calcInterpolatedPose toPolygon2d object path
                         (Rounded.counter A r k))
              <-> is_Some (calcInterpolatedPose path (Rounded.counter A r k))).
    { intros k. unfold emitted_sample.
      destruct (calcInterpolatedPose path (Rounded.counter A r k)); simpl;
        split; intros [? ?]; by eauto. }
    split_and!.
    + rewrite length_omap_filter. f_equal.
      apply list_filter_iff. intros k. apply Hsome.
    + rewrite length_omap_filter.
      etrans; [apply length_filter|]. by rewrite length_seq.
    + intros Hall. rewrite omap_all_Some_length; [by rewrite length_seq|].
      intros k Hk. apply elem_of_seq in Hk. apply Hsome, Hall. lia.
Qed.

End OtherAgentClaims.

(** * The definitions on concrete inputs *)

Example ex_velocity_filter_strict :
  map PredictedObject.object_id
    (filterObjectsByVelocity ex_hypot ex_batch 1 8).(PredictedObjects.objects)
  = [[1%Z]]
  /\ (filterObjectsByVelocity ex_hypot ex_batch 5 10).(PredictedObjects.objects) = [].
Proof. split; reflexivity. Qed.

Example ex_class_filter :
  map PredictedObject.object_id
    (filterObjectsByClass getHighestProbLabel_spec ex_batch ex_no_pedestrian)
      .(PredictedObjects.objects)
  = [[1%Z]; [3%Z]].
Proof. reflexivity. Qed.

Example ex_highest_prob_label_tie :
  getHighestProbLabel_spec
    [ObjectClassification.mk ObjectClassification.BUS (2 # 5);
     ObjectClassification.mk ObjectClassification.CAR (1 # 2);
     ObjectClassification.mk ObjectClassification.TRUCK (1 # 2)]
  = ObjectClassification.CAR.
Proof. reflexivity. Qed.

Example ex_position_filter :
  map PredictedObject.object_id
    (filterObjectsByPosition ex_arc ex_batch ex_centerline (Point.mk 0 0 0) 100 5)
      .(PredictedObjects.objects)
  = [[2%Z]; [1%Z]]
  /\ (filterObjectsByPosition ex_arc ex_batch ex_centerline (Point.mk 2 0 0) 0 0)
       .(PredictedObjects.objects) = [].
Proof. split; reflexivity. Qed.

(** The end-to-end example of the spec: a pedestrian at rest 2 m ahead, a
    car at 20 m/s 150 m ahead and a truck 10 m behind, with the velocity
    gate at 0.5, 100 m forward, 5 m backward and pedestrians disabled. *)
Example ex_filterObjects_end_to_end :
  filterObjects ex_hypot getHighestProbLabel_spec ex_arc
    (PredictedObjects.mk ex_header
       [ex_object 1 ObjectClassification.PEDESTRIAN 0 0 2 [];
        ex_object 2 ObjectClassification.CAR 20 0 150 [];
        ex_object 3 ObjectClassification.TRUCK 6 8 (-10) []])
    ex_route [] (Point.mk 0 0 0)
    (ObjectsFilteringParams.mk 3 1 100 5 (1 # 2) ex_no_pedestrian
       (ObjectLaneConfiguration.mk true true true) false false)
  = PredictedObjects.default.
Proof. reflexivity. Qed.

(** The header of a batch that keeps an object is lost all the same. *)
Example ex_filterObjects_header :
  let out :=
    filterObjects ex_hypot getHighestProbLabel_spec ex_arc ex_batch ex_route []
      (Point.mk 0 0 0)
      (ObjectsFilteringParams.mk 3 1 100 5 (1 # 2) ex_no_pedestrian
         (ObjectLaneConfiguration.mk true true true) false false) in
  out.(PredictedObjects.objects) = [ex_car]
  /\ out.(PredictedObjects.header) = Header.default
  /\ ex_batch.(PredictedObjects.header) <> Header.default.
Proof. split_and!; [reflexivity..|discriminate]. Qed.

Example ex_partition :
  separateObjectIndicesByLanelets ex_footprint ex_disjoint ex_batch
    [ConstLanelet.mk 7 []; ex_lanelet 8 0 5; ex_lanelet 9 1 20]
  = Some ([0; 1], [2])%nat.
Proof. reflexivity. Qed.

Example ex_max_confidence_path :
  getPredictedPathFromObj ex_extended_object false
  = [PredictedPathWithPolygon.mk (7 # 10)
       [PoseWithVelocityAndPolygonStamped.mk 0 (ex_pose 1 0) 3 (Polygon2d.mk [])]].
Proof. reflexivity. Qed.

(** The ego example of the spec: no acceleration, speed 5, resolution 1 and
    horizon 3 give the times 0, 1, 2, 3, the velocity 5 and the lengths
    0, 5, 10, 15. *)
Example ex_ego_constant_speed :
  option_map
    (map (fun s =>
            (Qred s.(PoseWithVelocityStamped.time),
             Qred s.(PoseWithVelocityStamped.velocity),
             Qred s.(PoseWithVelocityStamped.pose).(Pose.position).(Point.x))))
    (createPredictedPath ex_frenet ex_centerline_pose 5
       (EgoPredictedPathParams.mk 0 3 1 0) ex_centerline (ex_pose 0 0) 5 0)
  = Some [(0, 5, 0); (1, 5, 5); (2, 5, 10); (3, 5, 15)].
Proof. reflexivity. Qed.

(** The floor speed of the spec: acceleration -10, floor 1, speed 5. *)
Example ex_ego_floor_speed :
  option_map
    (map (fun s =>
            (Qred s.(PoseWithVelocityStamped.time),
             Qred s.(PoseWithVelocityStamped.velocity))))
    (createPredictedPath ex_frenet ex_centerline_pose 4 ex_ego_params
       ex_centerline (ex_pose 0 0) 5 0)
  = Some [(0, 5); (1 # 2, 1); (1, 1)].
Proof. reflexivity. Qed.

(** Without a positive resolution the loop of the ego projection never
    ends, whatever the fuel. *)
Example ex_ego_zero_resolution (fuel : nat) :
  createPredictedPath ex_frenet ex_centerline_pose fuel
    (EgoPredictedPathParams.mk 0 3 0 0) ex_centerline (ex_pose 0 0) 5 0
  = None.
Proof. apply for_double_diverges; [discriminate | reflexivity]. Qed.

(** Binary64 on known values: the doubles written [0.1] and [1e-3], the
    sum [0.1 + 0.2], which is the double above [0.3], and the bound
    [0.999 + 1e-3], which is rounded to [1]. *)
Example ex_binary64_values :
  Binary64.round (1 # 10) == 3602879701896397 # 36028797018963968
  /\ Binary64.round (1 # 1000) == 1152921504606847 # 1152921504606846976
  /\ Binary64.add (Binary64.round (1 # 10)) (Binary64.round (2 # 10))
     == 5404319552844596 # 18014398509481984
  /\ ~ Binary64.add (Binary64.round (1 # 10)) (Binary64.round (2 # 10))
       == Binary64.round (3 # 10)
  /\ Binary64.add ex_horizon_b64 (Binary64.round (1 # 1000)) == 1.
Proof.
  split_and!; try (vm_compute; reflexivity).
  intros Heq. vm_compute in Heq. discriminate.
Qed.

(** The rounding of binary64 in the loop of the ego projection.  With the
    horizon [0.999] and the resolution [0.1] the loop runs ten times
    without rounding and eleven times in binary64. *)
Example ex_ego_rounding :
  option_map length
    (createPredictedPath ex_frenet ex_centerline_pose 12 ex_ego_params_b64
       ex_centerline (ex_pose 0 0) 5 0)
  = Some 10%nat
  /\ option_map length
       (Rounded.createPredictedPath Binary64.arith ex_frenet ex_centerline_pose
          12 ex_ego_params_b64 ex_centerline (ex_pose 0 0) 5 0)
     = Some 11%nat.
Proof. split; vm_compute; reflexivity. Qed.

(** The rounding of binary64 in the arc length.  With the speed 5, the
    acceleration -10 and the resolution [0.05], the twenty-first sample has
    a time just above 1 and a travelled length of about [-1e-15], which the
    sum with the initial arc length 50 absorbs: the pose is the one at the
    arc length 50. *)
Example ex_ego_absorbed_length :
  exists predicted_path s,
    Rounded.createPredictedPath Binary64.arith ex_frenet ex_centerline_pose 22
      (EgoPredictedPathParams.mk (-10) 1 (Binary64.round (1 # 20)) 1)
      ex_centerline (ex_pose 50 0) 5 0
    = Some predicted_path
    /\ predicted_path !! 20%nat = Some s
    /\ 1 < s.(PoseWithVelocityStamped.time)
    /\ s.(PoseWithVelocityStamped.pose).(Pose.position).(Point.x) == 50.
Proof.
  eexists. eexists. split; [vm_compute; reflexivity|].
  split; [reflexivity|]. split; vm_compute; reflexivity.
Qed.

Example ex_transform_car :
  option_map
    (fun ext =>
       map (fun p =>
              map (fun s =>
                     (Qred s.(PoseWithVelocityAndPolygonStamped.time),
                      s.(PoseWithVelocityAndPolygonStamped.velocity)))
                  p.(PredictedPathWithPolygon.path))
           ext.(ExtendedPredictedObject.predicted_paths))
    (transform (calcInterpolatedPose_spec ex_interpolate) ex_pose_footprint 5
       ex_car 3 1)
  = Some [[(0, 3); (1, 3)]; [(0, 3)]].
Proof. reflexivity. Qed.

(** * Where the code departs from the wording *)


(** Against C2 as worded: the car of the examples moves with the planar
    velocity [(3, 4)], of magnitude [5]; the samples of its projected paths
    carry the velocity [3], which is not its planar speed. *)
Lemma transform_velocity_not_planar_speed :
  exists ext pp s,
    Rounded.transform Binary64.arith (calcInterpolatedPose_spec ex_interpolate)
      ex_pose_footprint 3 ex_car 1 1 = Some ext
    /\ ext.(ExtendedPredictedObject.predicted_paths) !! 0%nat = Some pp
    /\ pp.(PredictedPathWithPolygon.path) !! 1%nat = Some s
    /\ is_planar_speed ex_car 5
    /\ ~ is_planar_speed ex_car s.(PoseWithVelocityAndPolygonStamped.velocity)
    /\ ~ s.(PoseWithVelocityAndPolygonStamped.velocity) == 5.
Proof.
  eexists. eexists. eexists.
  split; [vm_compute; reflexivity|].
  split; [reflexivity|]. split; [reflexivity|]. split_and!.
  - split; [discriminate | reflexivity].
  - intros [_ Hsq]. vm_compute in Hsq. discriminate.
  - intros Heq. vm_compute in Heq. discriminate.
Qed.

(** Against C6 as worded, in binary64.  With horizon 3 and resolution 1
    the first predicted path of the car, which spans the times 0 to 1, is
    projected to two samples, and the ceiling of [3 / 1] is three.  With
    the horizon [0.999] and the resolution [0.1] the path of the bus, which
    spans all the times of the loop, is projected to eleven samples, and
    the ceiling of [0.999 / 0.1] is ten, as is the one of
    [(0.999 + 1e-3) / 0.1]. *)
Lemma transform_sample_count_not_ceiling :
  (exists ext pp,
     Rounded.transform Binary64.arith (calcInterpolatedPose_spec ex_interpolate)
       ex_pose_footprint 5 ex_car 3 1 = Some ext
     /\ ext.(ExtendedPredictedObject.predicted_paths) !! 0%nat = Some pp
     /\ length pp.(PredictedPathWithPolygon.path) = 2%nat
     /\ Z.to_nat (Qceiling (3 / 1)) = 3%nat)
  /\ (exists ext pp,
        Rounded.transform Binary64.arith
          (calcInterpolatedPose_spec ex_interpolate) ex_pose_footprint 12
          ex_bus ex_horizon_b64 ex_resolution_b64 = Some ext
        /\ ext.(ExtendedPredictedObject.predicted_paths) !! 0%nat = Some pp
        /\ length pp.(PredictedPathWithPolygon.path) = 11%nat
        /\ Z.to_nat (Qceiling (ex_horizon_b64 / ex_resolution_b64)) = 10%nat
        /\ Z.to_nat (Qceiling ((ex_horizon_b64 + (1 # 1000)) / ex_resolution_b64))
           = 10%nat
        /\ Z.to_nat
             (Qceiling (Binary64.add ex_horizon_b64 (Binary64.round (1 # 1000))
                        / ex_resolution_b64))
           = 10%nat).
Proof.
  split.
  - eexists. eexists. split; [vm_compute; reflexivity|].
    split_and!; reflexivity.
  - eexists. eexists. split; [vm_compute; reflexivity|].
    split; [reflexivity|]. split; [reflexivity|].
    split_and!; vm_compute; reflexivity.
Qed.

(** * The hypotheses of the theorems are met *)


Lemma transform_loop_samples_witness :
  Rounded.ends_after Binary64.arith
    (Binary64.add 3 (Binary64.round (1 # 1000))) 1 4
  /\ exists ext,
       (forall fuel,
          (4 < fuel)%nat ->
          Rounded.transform Binary64.arith
            (calcInterpolatedPose_spec ex_interpolate) ex_pose_footprint fuel
            ex_car 3 1
          = Some ext)
       /\ length ext.(ExtendedPredictedObject.predicted_paths) = 2%nat
       /\ exists pp,
            ext.(ExtendedPredictedObject.predicted_paths) !! 1%nat = Some pp
            /\ pp.(PredictedPathWithPolygon.path)
               = [PoseWithVelocityAndPolygonStamped.mk 0 (ex_pose 0 0) 3
                    (ex_pose_footprint (ex_pose 0 0) Shape.default)].
Proof.
  assert (Hends :
    Rounded.ends_after Binary64.arith
      (Binary64.add 3 (Binary64.round (1 # 1000))) 1 4)
    by (apply ends_after_check; vm_compute; reflexivity).
  split; [exact Hends|].
  destruct (transform_loop_samples Binary64.arith ex_interpolate
              (calcInterpolatedPose_spec ex_interpolate) ex_pose_footprint
              ex_car 3 1 4 Hends)
    as [(ext & Hrun & Hlen & _) Hsingle].
  destruct (Hsingle 1%nat ex_path_1 (ex_pose 0 0))
    as (ext' & pp & Hrun' & Hpp & Hsamples);
    [vm_compute; reflexivity | | reflexivity | reflexivity |].
  - intros k Hk.
    destruct k as [|[|[|[|k]]]]; [lia | vm_compute; reflexivity.. | lia].
  - assert (Heq : ext' = ext).
    { pose proof (Hrun 5%nat ltac:(lia)) as H1.
      pose proof (Hrun' 5%nat ltac:(lia)) as H2.
      rewrite H1 in H2. by injection H2. }
    subst ext'.
    exists ext. split; [assumption|]. split; [assumption|].
    exists pp. split; assumption.
Defined.

Lemma transform_loop_sample_count_witness :
  Rounded.ends_after Binary64.arith
    (Binary64.add ex_horizon_b64 (Binary64.round (1 # 1000)))
    ex_resolution_b64 11
  /\ exists ext,
       (forall fuel,
          (11 < fuel)%nat ->
          Rounded.transform Binary64.arith
            (calcInterpolatedPose_spec ex_interpolate) ex_pose_footprint fuel
            ex_bus ex_horizon_b64 ex_resolution_b64
          = Some ext)
       /\ forall pp,
            ext.(ExtendedPredictedObject.predicted_paths) !! 0%nat = Some pp ->
            (length pp.(PredictedPathWithPolygon.path) <= 11)%nat.
Proof.
  assert (Hends :
    Rounded.ends_after Binary64.arith
      (Binary64.add ex_horizon_b64 (Binary64.round (1 # 1000)))
      ex_resolution_b64 11)
    by (apply ends_after_check; vm_compute; reflexivity).
  split; [exact Hends|].
  destruct (transform_loop_sample_count Binary64.arith
              (calcInterpolatedPose_spec ex_interpolate) ex_pose_footprint
              ex_bus ex_horizon_b64 ex_resolution_b64 11 Hends)
    as (ext & Hrun & Hcount).
  exists ext. split; [assumption|].
  intros pp Hpp.
  destruct (Hcount 0%nat ex_path_long pp eq_refl Hpp) as (_ & Hle & _).
  exact Hle.
Defined.

Lemma separateObjectsByLanelets_partition_witness :
  [ConstLanelet.mk 7 []; ex_lanelet 8 0 5; ex_lanelet 9 1 20] <> []
  /\ exists target_indices other_indices target_objects other_objects,
       separateObjectIndicesByLanelets ex_footprint ex_disjoint ex_batch
         [ConstLanelet.mk 7 []; ex_lanelet 8 0 5; ex_lanelet 9 1 20]
       = Some (target_indices, other_indices)
       /\ separateObjectsByLanelets ex_footprint ex_disjoint ex_batch
            [ConstLanelet.mk 7 []; ex_lanelet 8 0 5; ex_lanelet 9 1 20]
          = Some (target_objects, other_objects)
       /\ target_indices ++ other_indices ≡ₚ seq 0 3
       /\ target_objects.(PredictedObjects.objects)
            ++ other_objects.(PredictedObjects.objects)
          ≡ₚ [ex_pedestrian; ex_car; ex_truck].
Proof.
  split; [discriminate|].
  destruct (separateObjectsByLanelets_partition ex_footprint ex_disjoint ex_batch
              [ConstLanelet.mk 7 []; ex_lanelet 8 0 5; ex_lanelet 9 1 20])
    as (tis & ois & tgt & oth & Hidx & Hobj & _ & _ & Hperm & _ & _ & Hall & _);
    [discriminate|].
  exists tis, ois, tgt, oth. split_and!; assumption.
Defined.

Lemma getPredictedPathFromObj_first_max_witness :
  ex_extended_object.(ExtendedPredictedObject.predicted_paths) <> []
  /\ exists k p,
       getPredictedPathFromObj ex_extended_object false = [p]
       /\ ex_extended_object.(ExtendedPredictedObject.predicted_paths) !! k = Some p
       /\ (forall j q,
             ex_extended_object.(ExtendedPredictedObject.predicted_paths) !! j
             = Some q ->
             q.(PredictedPathWithPolygon.confidence)
             <= p.(PredictedPathWithPolygon.confidence))
       /\ (forall j q,
             (j < k)%nat ->
             ex_extended_object.(ExtendedPredictedObject.predicted_paths) !! j
             = Some q ->
             q.(PredictedPathWithPolygon.confidence)
             < p.(PredictedPathWithPolygon.confidence)).
Proof.
  split; [discriminate|].
  apply (getPredictedPathFromObj_first_max ex_extended_object). discriminate.
Defined.

(** * Further properties of the filters *)

Lemma filter_filter_same {A : Type} (P : A -> Prop) `{!forall x, Decision (P x)}
    (l : list A) :
  filter P (filter P l) = filter P l.
Proof.
  rewrite list_filter_filter. apply list_filter_iff. tauto.
Qed.

Lemma filter_sublist_weaken {A : Type} (P R : A -> Prop)
    `{!forall x, Decision (P x)} `{!forall x, Decision (R x)} (l : list A) :
  (forall x, P x -> R x) -> filter P l `sublist_of` filter R l.
Proof.
  intros Himpl.
  replace (filter P l) with (filter P (filter R l)).
  - apply sublist_filter.
  - rewrite list_filter_filter. apply list_filter_iff. intros x. split; [tauto|].
    intros HP. split; [done|by apply Himpl].
Qed.

Section FilterProperties.

Variable hypot : Q -> Q -> Q.
Variable getHighestProbLabel : list ObjectClassification.t -> Z.
Variable calcSignedArcLength :
  list PathPointWithLaneId.t -> Point.t -> Point.t -> Q.

(** X1.  The objects returned by [filterObjects] are the objects of the
    input that pass the three gates together, in the order of the input:
    speed strictly between the threshold and the largest finite double,
    highest-probability class enabled, and signed arc length strictly
    inside the window on the centerline that the route handler returns for
    the current lanes, the backward and the forward distance. *)
Theorem filterObjects_kept
    (objects : PredictedObjects.t) (route_handler : RouteHandler.t)
    (current_lanes : list ConstLanelet.t) (current_pose : Point.t)
    (params : ObjectsFilteringParams.t) :
  (forall obj,
     obj ∈ (filterObjects hypot getHighestProbLabel calcSignedArcLength objects
              route_handler current_lanes current_pose params)
             .(PredictedObjects.objects)
     <-> obj ∈ objects.(PredictedObjects.objects)
         /\ params.(ObjectsFilteringParams.ignore_object_velocity_threshold)
            < hypot (twist_linear obj).(Vector3.x) (twist_linear obj).(Vector3.y)
         /\ hypot (twist_linear obj).(Vector3.x) (twist_linear obj).(Vector3.y)
            < DBL_MAX
         /\ class_enabled params.(ObjectsFilteringParams.object_types_to_check)
              (getHighestProbLabel obj.(PredictedObject.classification))
         /\ - params.(ObjectsFilteringParams.object_check_backward_distance)
            < calcSignedArcLength
                (route_handler.(RouteHandler.getCenterLinePath) current_lanes
                   params.(ObjectsFilteringParams.object_check_backward_distance)
                   params.(ObjectsFilteringParams.object_check_forward_distance))
                current_pose (pose_position obj)
         /\ calcSignedArcLength
              (route_handler.(RouteHandler.getCenterLinePath) current_lanes
                 params.(ObjectsFilteringParams.object_check_backward_distance)
                 params.(ObjectsFilteringParams.object_check_forward_distance))
              current_pose (pose_position obj)
            < params.(ObjectsFilteringParams.object_check_forward_distance))
  /\ (filterObjects hypot getHighestProbLabel calcSignedArcLength objects
        route_handler current_lanes current_pose params)
       .(PredictedObjects.objects)
     `sublist_of` objects.(PredictedObjects.objects).
Proof.
  unfold filterObjects.
  destruct objects.(PredictedObjects.objects) as [|obj0 objs] eqn:Hobjs.
  - split; [|done]. intros obj. split.
    + by intros ?%elem_of_nil.
    + by intros [?%elem_of_nil _].
  - cbn zeta. unfold filterObjectsByVelocity_flag.
    rewrite filterObjectsByPosition_unfold, filterObjectsByClass_unfold,
      filterObjectsByVelocity_unfold.
    cbn [PredictedObjects.objects PredictedObjects.header]. rewrite Hobjs.
    split.
    + intros obj. rewrite !list_elem_of_filter, is_object_type_enabled.
      unfold v_norm. tauto.
    + etrans; [apply sublist_filter|]. etrans; apply sublist_filter.
Qed.

(** X2.  The two modes of the velocity filter with a threshold: without
    the flag the speed lies strictly between the threshold and the largest
    finite double, with the flag strictly between minus the threshold and
    the threshold.  No object is returned by both modes, and with the flag
    and a threshold that is not positive nothing is returned. *)
Theorem filterObjectsByVelocity_flag_modes
    (objects : PredictedObjects.t) (velocity_threshold : Q) :
  (forall obj,
     obj ∈ (filterObjectsByVelocity_flag hypot objects velocity_threshold false)
             .(PredictedObjects.objects)
     <-> obj ∈ objects.(PredictedObjects.objects)
         /\ velocity_threshold < v_norm hypot obj
         /\ v_norm hypot obj < DBL_MAX)
  /\ (forall obj,
        obj ∈ (filterObjectsByVelocity_flag hypot objects velocity_threshold true)
                .(PredictedObjects.objects)
        <-> obj ∈ objects.(PredictedObjects.objects)
            /\ - velocity_threshold < v_norm hypot obj
            /\ v_norm hypot obj < velocity_threshold)
  /\ (forall obj,
        obj ∈ (filterObjectsByVelocity_flag hypot objects velocity_threshold true)
                .(PredictedObjects.objects) ->
        obj ∉ (filterObjectsByVelocity_flag hypot objects velocity_threshold false)
                .(PredictedObjects.objects))
  /\ (velocity_threshold <= 0 ->
      (filterObjectsByVelocity_flag hypot objects velocity_threshold true)
        .(PredictedObjects.objects) = []).
Proof.
  unfold filterObjectsByVelocity_flag.
  rewrite !filterObjectsByVelocity_unfold. simpl. split_and!.
  - intros obj. rewrite list_elem_of_filter. tauto.
  - intros obj. rewrite list_elem_of_filter. tauto.
  - intros obj. rewrite !list_elem_of_filter.
    intros [[_ Hlt] _] [[Hgt _] _].
    apply (Qlt_irrefl velocity_threshold). by eapply Qlt_trans.
  - intros Hthr.
    induction objects.(PredictedObjects.objects) as [|obj l IH]; [done|].
    rewrite filter_cons_False; [done|]. intros [Hlo Hhi].
    assert (Hneg : - velocity_threshold < velocity_threshold)
      by (by eapply Qlt_trans).
    apply (Qlt_irrefl 0).
    eapply Qle_lt_trans; [|eapply Qlt_le_trans; [exact Hneg|exact Hthr]].
    rewrite <- (Qopp_opp 0). apply Qopp_le_compat. exact Hthr.
Qed.

(** X3.  Each gate is idempotent: applied to its own output with the same
    bounds or configuration it returns this output unchanged. *)
Theorem filters_idempotent
    (objects : PredictedObjects.t) (v vmax fwd bwd : Q)
    (types : ObjectTypesToCheck.t)
    (path_points : list PathPointWithLaneId.t) (current_pose : Point.t) :
  filterObjectsByVelocity hypot (filterObjectsByVelocity hypot objects v vmax) v vmax
  = filterObjectsByVelocity hypot objects v vmax
  /\ filterObjectsByClass getHighestProbLabel
       (filterObjectsByClass getHighestProbLabel objects types) types
     = filterObjectsByClass getHighestProbLabel objects types
  /\ filterObjectsByPosition calcSignedArcLength
       (filterObjectsByPosition calcSignedArcLength objects path_points
          current_pose fwd bwd)
       path_points current_pose fwd bwd
     = filterObjectsByPosition calcSignedArcLength objects path_points
         current_pose fwd bwd.
Proof.
  split_and!.
  - rewrite !filterObjectsByVelocity_unfold. simpl. by rewrite filter_filter_same.
  - rewrite !filterObjectsByClass_unfold. simpl. by rewrite filter_filter_same.
  - rewrite !filterObjectsByPosition_unfold. simpl. by rewrite filter_filter_same.
Qed.

(** X4.  The class gate never keeps an object whose highest-probability
    label is none of the eight labels [0] to [7], whatever the
    configuration, and keeps nothing when all flags are off. *)
Theorem filterObjectsByClass_foreign_label
    (objects : PredictedObjects.t) (types : ObjectTypesToCheck.t) :
  (forall obj,
     obj ∈ (filterObjectsByClass getHighestProbLabel objects types)
             .(PredictedObjects.objects) ->
     (0 <= getHighestProbLabel obj.(PredictedObject.classification) <= 7)%Z)
  /\ (filterObjectsByClass getHighestProbLabel objects
        (ObjectTypesToCheck.mk false false false false false false false false))
       .(PredictedObjects.objects) = [].
Proof.
  rewrite !filterObjectsByClass_unfold. simpl. split.
  - intros obj [Henabled _]%list_elem_of_filter.
    apply is_object_type_enabled in Henabled.
    destruct Henabled; vm_compute; split; discriminate.
  - induction objects.(PredictedObjects.objects) as [|obj l IH]; [done|].
    rewrite filter_cons_False; [done|].
    rewrite is_object_type_enabled. by intros [].
Qed.

(** X5.  Widening the window of the longitudinal gate never removes an
    object: the objects kept for a window are kept, in the same order, for
    every window with a forward and a backward distance at least as large. *)
Theorem filterObjectsByPosition_monotone
    (objects : PredictedObjects.t) (path_points : list PathPointWithLaneId.t)
    (current_pose : Point.t) (fwd bwd fwd' bwd' : Q) :
  fwd <= fwd' -> bwd <= bwd' ->
  (filterObjectsByPosition calcSignedArcLength objects path_points
     current_pose fwd bwd).(PredictedObjects.objects)
  `sublist_of`
  (filterObjectsByPosition calcSignedArcLength objects path_points
     current_pose fwd' bwd').(PredictedObjects.objects).
Proof.
  intros Hfwd Hbwd. rewrite !filterObjectsByPosition_unfold. simpl.
  apply filter_sublist_weaken. intros obj [Hlo Hhi]. split.
  - eapply Qle_lt_trans; [|exact Hlo]. by apply Qopp_le_compat.
  - by eapply Qlt_le_trans.
Qed.

End FilterProperties.

(** * Further properties of the selection and of the partition *)

(** X6.  Whatever the flag, [getPredictedPathFromObj] returns paths of the
    object only, and returns none exactly when the object has none; with
    the flag it returns all of them, without it at most one. *)
Theorem getPredictedPathFromObj_subset
    (obj : ExtendedPredictedObject.t) (is_use_all_predicted_path : bool) :
  (forall p,
     p ∈ getPredictedPathFromObj obj is_use_all_predicted_path ->
     p ∈ obj.(ExtendedPredictedObject.predicted_paths))
  /\ (getPredictedPathFromObj obj is_use_all_predicted_path = []
      <-> obj.(ExtendedPredictedObject.predicted_paths) = [])
  /\ getPredictedPathFromObj obj true
     = obj.(ExtendedPredictedObject.predicted_paths)
  /\ (length (getPredictedPathFromObj obj false) <= 1)%nat.
Proof.
  assert (Hfalse :
    obj.(ExtendedPredictedObject.predicted_paths) = []
    /\ getPredictedPathFromObj obj false = []
    \/ exists k p,
         getPredictedPathFromObj obj false = [p]
         /\ obj.(ExtendedPredictedObject.predicted_paths) !! k = Some p).
  { destruct (decide (obj.(ExtendedPredictedObject.predicted_paths) = []))
      as [Hnil|Hne].
    - left. split; [done|]. unfold getPredictedPathFromObj. by rewrite Hnil.
    - right.
      destruct (max_element_first_maximum PredictedPathWithPolygon.confidence
                  _ Hne) as (k & p & Hmax & Hk & _).
      exists k, p. split; [|done].
      unfold getPredictedPathFromObj. simpl.
      fold (key_lt PredictedPathWithPolygon.confidence). by rewrite Hmax. }
  split_and!.
  - destruct is_use_all_predicted_path; [done|].
    destruct Hfalse as [[_ ->]|(k & p & -> & Hk)].
    + by intros p ?%elem_of_nil.
    + intros q ->%list_elem_of_singleton. by eapply list_elem_of_lookup_2.
  - destruct is_use_all_predicted_path; [done|].
    destruct Hfalse as [[-> ->]|(k & p & -> & Hk)]; [done|].
    split; [done|]. intros Hnil. by rewrite Hnil in Hk.
  - done.
  - destruct Hfalse as [[_ ->]|(k & p & -> & Hk)]; simpl; lia.
Qed.

Section PartitionFurther.

Variable toPolygon2d : PredictedObject.t -> Polygon2d.t.
Variable disjoint : Polygon2d.t -> Polygon2d.t -> bool.

(** X7.  [separateObjectsByLanelets] always returns, no access [at(i)] is
    out of range; both batches it returns carry the default-constructed
    header, not the header of the input, and hold objects of the input in
    the order of the input. *)
Theorem separateObjectsByLanelets_headers
    (objects : PredictedObjects.t) (target_lanelets : list ConstLanelet.t) :
  exists target_objects other_objects,
    separateObjectsByLanelets toPolygon2d disjoint objects target_lanelets
    = Some (target_objects, other_objects)
    /\ target_objects.(PredictedObjects.header) = Header.default
    /\ other_objects.(PredictedObjects.header) = Header.default
    /\ target_objects.(PredictedObjects.objects)
       `sublist_of` objects.(PredictedObjects.objects)
    /\ other_objects.(PredictedObjects.objects)
       `sublist_of` objects.(PredictedObjects.objects).
Proof.
  destruct target_lanelets as [|llt rest].
  - exists PredictedObjects.default, PredictedObjects.default.
    split_and!; try done; apply sublist_nil_l.
  - eexists. eexists. split_and!.
    + pose proof (object_loop_positions toPolygon2d disjoint objects
                    (llt :: rest) objects.(PredictedObjects.objects) [] [] []
                    eq_refl) as Hidx.
      unfold separateObjectsByLanelets, separateObjectIndicesByLanelets.
      cbn [length app] in Hidx. rewrite Hidx. simpl.
      rewrite (push_back_at_positions _ objects
                 objects.(PredictedObjects.objects) [] _ eq_refl). simpl.
      by rewrite (push_back_at_positions _ objects
                    objects.(PredictedObjects.objects) [] _ eq_refl).
    + done.
    + done.
    + simpl. apply sublist_filter.
    + simpl. apply sublist_filter.
Qed.

End PartitionFurther.

(** * Centroid test and lane buckets *)

Section CentroidProperties.

Variable within : Point2d.t -> list Point2d.t -> bool.

Lemma centroid_loop_true (c : Point2d.t) (target_lanelets : list ConstLanelet.t) :
  centroid_loop within c target_lanelets = true
  <-> exists llt,
        llt ∈ target_lanelets
        /\ within c llt.(ConstLanelet.basicPolygon) = true.
Proof.
  induction target_lanelets as [|llt rest IH]; simpl.
  - split; [done|]. by intros (? & ?%elem_of_nil & _).
  - destruct (within c (ConstLanelet.basicPolygon llt)) eqn:Hw.
    + split; [|done]. intros _. exists llt. split; [apply list_elem_of_here|done].
    + rewrite IH. split.
      * intros (l & Hin & Hl). exists l. split; [by apply list_elem_of_further|done].
      * intros (l & Hin & Hl). apply elem_of_cons in Hin as [->|Hin].
        -- by rewrite Hw in Hl.
        -- by exists l.
Qed.

(** X8.  [isCentroidWithinLanelets] answers true iff the point made of the
    [x] and [y] of the object's position is within the polygon of at least
    one of the lanelets; it answers false for an empty list, and adding
    lanelets to the list never turns a true answer into false. *)
Theorem isCentroidWithinLanelets_iff
    (object : PredictedObject.t) (target_lanelets more : list ConstLanelet.t) :
  (isCentroidWithinLanelets within object target_lanelets = true
   <-> exists llt,
         llt ∈ target_lanelets
         /\ within (Point2d.mk (pose_position object).(Point.x)
                               (pose_position object).(Point.y))
                   llt.(ConstLanelet.basicPolygon) = true)
  /\ isCentroidWithinLanelets within object [] = false
  /\ (isCentroidWithinLanelets within object target_lanelets = true ->
      isCentroidWithinLanelets within object (target_lanelets ++ more) = true
      /\ isCentroidWithinLanelets within object (more ++ target_lanelets) = true).
Proof.
  assert (Hiff : forall lanelets,
    isCentroidWithinLanelets within object lanelets = true
    <-> exists llt,
          llt ∈ lanelets
          /\ within (Point2d.mk (pose_position object).(Point.x)
                                (pose_position object).(Point.y))
                    llt.(ConstLanelet.basicPolygon) = true).
  { intros lanelets. unfold isCentroidWithinLanelets.
    destruct lanelets as [|llt rest].
    - split; [done|]. by intros (? & ?%elem_of_nil & _).
    - apply centroid_loop_true. }
  split_and!; [apply Hiff|done|].
  rewrite !Hiff. intros (llt & Hin & Hw).
  split; exists llt; (split; [|done]); apply elem_of_app; auto.
Qed.

End CentroidProperties.

Section LaneBucketProperties.

Variable within : Point2d.t -> list Point2d.t -> bool.
Variable getAllLeftSharedLinestringLanelets :
  ConstLanelet.t -> bool -> bool -> list ConstLanelet.t.
Variable getAllRightSharedLinestringLanelets :
  ConstLanelet.t -> bool -> bool -> list ConstLanelet.t.
Variable calcInterpolatedPose : PredictedPath.t -> Q -> option Pose.t.
Variable toPolygon2d : Pose.t -> Shape.t -> Polygon2d.t.

Lemma gather_adjacent_lanelets_bind
    (current_lanes : list ConstLanelet.t) (include_opposite invert_opposite : bool) :
  gather_adjacent_lanelets getAllLeftSharedLinestringLanelets
    getAllRightSharedLinestringLanelets current_lanes include_opposite
    invert_opposite
  = (current_lanes ≫= (fun lane =>
       getAllLeftSharedLinestringLanelets lane include_opposite invert_opposite),
     current_lanes ≫= (fun lane =>
       getAllRightSharedLinestringLanelets lane include_opposite invert_opposite)).
Proof.
  unfold gather_adjacent_lanelets.
  change
    (current_lanes ≫= (fun lane =>
       getAllLeftSharedLinestringLanelets lane include_opposite invert_opposite),
     current_lanes ≫= (fun lane =>
       getAllRightSharedLinestringLanelets lane include_opposite invert_opposite))
    with
    ([] ++ current_lanes ≫= (fun lane =>
       getAllLeftSharedLinestringLanelets lane include_opposite invert_opposite),
     [] ++ current_lanes ≫= (fun lane =>
       getAllRightSharedLinestringLanelets lane include_opposite invert_opposite)).
  generalize (@nil ConstLanelet.t) at 1 3 as left_acc.
  generalize (@nil ConstLanelet.t) as right_acc.
  induction current_lanes as [|lane lanes IH]; intros right_acc left_acc; simpl.
  - by rewrite !app_nil_r.
  - rewrite IH. by rewrite <- !app_assoc.
Qed.

Variable A : DoubleArith.t.

Lemma rounded_append_objects_on_lane_spec (fuel : nat) (horizon step : Q)
    (n : nat) (check_lanes : list ConstLanelet.t) :
  Rounded.ends_after A
    (DoubleArith.add A horizon (DoubleArith.lit A (1 # 1000))) step n ->
  (n < fuel)%nat ->
  forall (objects : list PredictedObject.t)
         (lane_objects : list ExtendedPredictedObject.t),
    Rounded.append_objects_on_lane A within calcInterpolatedPose toPolygon2d
      fuel horizon step objects check_lanes lane_objects
    = Some (lane_objects
              ++ map (Rounded.transformed A calcInterpolatedPose toPolygon2d
                        step n)
                     (filter (fun object =>
                                isCentroidWithinLanelets within object check_lanes
                                = true)
                             objects)).
Proof.
  intros Hends Hfuel.
  induction objects as [|object objects IH]; intros lane_objects;
    cbn [Rounded.append_objects_on_lane].
  - by rewrite app_nil_r.
  - destruct (isCentroidWithinLanelets within object check_lanes) eqn:Hin.
    + rewrite (rounded_transform_result A _ _ fuel object horizon step n)
        by done.
      cbn [mbind option_bind].
      rewrite IH, filter_cons_True by done. simpl. by rewrite <- app_assoc.
    + rewrite IH, filter_cons_False; [done|]. by rewrite Hin.
Qed.

(** X9.  When the loop of [transform] over the time ends at the [n]-th
    test of its condition and the fuel exceeds [n],
    [createTargetObjectsOnLane] fills each bucket whose flag is set with
    the transforms of the objects whose centroid is within its lanelets, in
    the order of the batch, and leaves the others empty; the transform of
    an object holds, for each of its predicted paths, the samples at the
    counter values [t_0], ..., [t_(n-1)] of the loop at which the path is
    defined.  The lanelets of the current bucket are the current lanes;
    those of the left and of the right bucket are the left and the right
    lanelets of all current lanes, appended lane after lane without
    removing duplicates.  The buckets are filled independently of each
    other.  The statement holds for every arithmetic, so for the one of
    binary64. *)
Theorem createTargetObjectsOnLane_loop_buckets
    (current_lanes : list ConstLanelet.t)
    (filtered_objects : PredictedObjects.t) (params : ObjectsFilteringParams.t)
    (n fuel : nat) :
  Rounded.ends_after A
    (DoubleArith.add A
       params.(ObjectsFilteringParams.safety_check_time_horizon)
       (DoubleArith.lit A (1 # 1000)))
    params.(ObjectsFilteringParams.safety_check_time_resolution) n ->
  (n < fuel)%nat ->
  Rounded.createTargetObjectsOnLane A within getAllLeftSharedLinestringLanelets
    getAllRightSharedLinestringLanelets calcInterpolatedPose toPolygon2d fuel
    current_lanes filtered_objects params
  = let bucket := fun (flag : bool) (lanes : list ConstLanelet.t) =>
      if flag
      then map (Rounded.transformed A calcInterpolatedPose toPolygon2d
                  params.(ObjectsFilteringParams.safety_check_time_resolution)
                  n)
               (filter (fun object =>
                          isCentroidWithinLanelets within object lanes = true)
                       filtered_objects.(PredictedObjects.objects))
      else [] in
    Some (TargetObjectsOnLane.mk
            (bucket
               params.(ObjectsFilteringParams.object_lane_configuration)
                 .(ObjectLaneConfiguration.check_current_lane)
               current_lanes)
            (bucket
               params.(ObjectsFilteringParams.object_lane_configuration)
                 .(ObjectLaneConfiguration.check_left_lane)
               (current_lanes ≫= (fun lane =>
                  getAllLeftSharedLinestringLanelets lane
                    params.(ObjectsFilteringParams.include_opposite_lane)
                    params.(ObjectsFilteringParams.invert_opposite_lane))))
            (bucket
               params.(ObjectsFilteringParams.object_lane_configuration)
                 .(ObjectLaneConfiguration.check_right_lane)
               (current_lanes ≫= (fun lane =>
                  getAllRightSharedLinestringLanelets lane
                    params.(ObjectsFilteringParams.include_opposite_lane)
                    params.(ObjectsFilteringParams.invert_opposite_lane))))).
Proof.
  intros Hends Hfuel. unfold Rounded.createTargetObjectsOnLane.
  rewrite gather_adjacent_lanelets_bind.
  assert (Hbucket : forall (flag : bool) lanes,
    (if flag && not_empty lanes
     then Rounded.append_objects_on_lane A within calcInterpolatedPose
            toPolygon2d fuel
            params.(ObjectsFilteringParams.safety_check_time_horizon)
            params.(ObjectsFilteringParams.safety_check_time_resolution)
            filtered_objects.(PredictedObjects.objects) lanes []
     else Some [])
    = Some (if flag
            then map (Rounded.transformed A calcInterpolatedPose toPolygon2d
                        params.(ObjectsFilteringParams.safety_check_time_resolution)
                        n)
                     (filter (fun object =>
                                isCentroidWithinLanelets within object lanes = true)
                             filtered_objects.(PredictedObjects.objects))
            else [])).
  { intros [] lanes; [|done]. destruct lanes as [|lane lanes]; simpl.
    - f_equal.
      induction filtered_objects.(PredictedObjects.objects) as [|o l IH]; [done|].
      by rewrite filter_cons_False.
    - by rewrite (rounded_append_objects_on_lane_spec fuel _ _ n). }
  cbn [TargetObjectsOnLane.default TargetObjectsOnLane.on_current_lane
       TargetObjectsOnLane.on_left_lane TargetObjectsOnLane.on_right_lane].
  rewrite !Hbucket. done.
Qed.

(** X10.  Without current lanes, or with the three lane flags off,
    [createTargetObjectsOnLane] returns three empty buckets, and does so
    without projecting any object: whatever the fuel, the time resolution
    and the batch. *)
Theorem createTargetObjectsOnLane_nothing_to_check
    (fuel : nat) (filtered_objects : PredictedObjects.t)
    (params : ObjectsFilteringParams.t) :
  createTargetObjectsOnLane within getAllLeftSharedLinestringLanelets
    getAllRightSharedLinestringLanelets calcInterpolatedPose toPolygon2d fuel
    [] filtered_objects params
  = Some TargetObjectsOnLane.default
  /\ (forall current_lanes,
        params.(ObjectsFilteringParams.object_lane_configuration)
        = ObjectLaneConfiguration.mk false false false ->
        createTargetObjectsOnLane within getAllLeftSharedLinestringLanelets
          getAllRightSharedLinestringLanelets calcInterpolatedPose toPolygon2d
          fuel current_lanes filtered_objects params
        = Some TargetObjectsOnLane.default).
Proof.
  split.
  - unfold createTargetObjectsOnLane. simpl.
    by rewrite !andb_false_r.
  - intros current_lanes Hflags. unfold createTargetObjectsOnLane.
    rewrite gather_adjacent_lanelets_bind, Hflags. done.
Qed.

End LaneBucketProperties.

(** * Further properties of the projections *)




Section ForDoubleInvariant.

Context {St : Type}.
Variables (bound step : Q) (body : Q -> St -> St) (P : St -> Prop).

Lemma for_double_invariant (fuel : nat) (t : Q) (s s' : St) :
  (forall t s, P s -> P (body t s)) ->
  P s ->
  for_double fuel bound step body t s = Some s' ->
  P s'.
Proof.
  intros Hbody. revert t s.
  induction fuel as [|fuel IH]; intros t s Hs Hrun; simpl in Hrun; [done|].
  case_decide.
  - eapply IH; [|exact Hrun]. by apply Hbody.
  - by injection Hrun as <-.
Qed.

End ForDoubleInvariant.

Section OtherAgentFurther.

Variable calcInterpolatedPose : PredictedPath.t -> Q -> option Pose.t.
Variable toPolygon2d : Pose.t -> Shape.t -> Polygon2d.t.

Lemma same_frame_alter (f : PredictedPathWithPolygon.t -> PredictedPathWithPolygon.t)
    (i : nat) (a b : ExtendedPredictedObject.t) :
  same_frame a b -> same_frame a (update_predicted_paths (alter f i) b).
Proof.
  unfold same_frame. simpl. rewrite length_alter. tauto.
Qed.

Lemma transform_paths_same_frame (fuel : nat) (object : PredictedObject.t)
    (horizon step v : Q) (indices : list nat) :
  forall ext0 ext ext',
    same_frame ext0 ext ->
    transform_paths calcInterpolatedPose toPolygon2d fuel object horizon step v
      indices ext = Some ext' ->
    same_frame ext0 ext'.
Proof.
  induction indices as [|i indices IH]; intros ext0 ext ext' Hframe Hrun;
    cbn [transform_paths] in Hrun.
  - by injection Hrun as <-.
  - destruct (_ !! i) as [path|]; [|done]. cbn [mbind option_bind] in Hrun.
    destruct (for_double _ _ _ _ _ _) as [ext1|] eqn:Hloop; [|done].
    cbn [mbind option_bind] in Hrun.
    eapply IH; [|exact Hrun].
    eapply (for_double_invariant _ _ _ (same_frame ext0)); [| |exact Hloop].
    + intros t s Hs. unfold transform_body.
      destruct (calcInterpolatedPose path t); [|done].
      by apply same_frame_alter.
    + by apply same_frame_alter.
Qed.

(** X11.  Whenever [transform] returns, whatever the horizon and the
    resolution, the extended object carries the identifier, the initial
    pose, twist and acceleration and the shape of the object unchanged, and
    one projected path for each predicted path. *)
Theorem transform_frame
    (fuel : nat) (object : PredictedObject.t) (horizon r : Q)
    (ext : ExtendedPredictedObject.t) :
  transform calcInterpolatedPose toPolygon2d fuel object horizon r = Some ext ->
  ext.(ExtendedPredictedObject.uuid) = object.(PredictedObject.object_id)
  /\ ext.(ExtendedPredictedObject.initial_pose)
     = object.(PredictedObject.kinematics)
         .(PredictedObjectKinematics.initial_pose_with_covariance)
  /\ ext.(ExtendedPredictedObject.initial_twist)
     = object.(PredictedObject.kinematics)
         .(PredictedObjectKinematics.initial_twist_with_covariance)
  /\ ext.(ExtendedPredictedObject.initial_acceleration)
     = object.(PredictedObject.kinematics)
         .(PredictedObjectKinematics.initial_acceleration_with_covariance)
  /\ ext.(ExtendedPredictedObject.shape) = object.(PredictedObject.shape)
  /\ length ext.(ExtendedPredictedObject.predicted_paths)
     = length object.(PredictedObject.kinematics)
                .(PredictedObjectKinematics.predicted_paths).
Proof.
  unfold transform. intros Hrun.
  eapply transform_paths_same_frame in Hrun; [|split_and!; reflexivity].
  destruct Hrun as (Huuid & Hpose & Htwist & Hacc & Hshape & Hlen).
  simpl in *. rewrite take_nil, Nat.sub_0_r in Hlen. simpl in Hlen.
  rewrite length_replicate in Hlen.
  by split_and!.
Qed.

(** X12.  With a resolution that is not positive and a horizon above
    [-1e-3], [transform] never returns for an object that has a predicted
    path: the counter [t] does not advance.  No amount of fuel is enough. *)
Theorem transform_diverges
    (object : PredictedObject.t) (horizon r : Q) (fuel : nat) :
  r <= 0 ->
  0 < horizon + (1 # 1000) ->
  object.(PredictedObject.kinematics).(PredictedObjectKinematics.predicted_paths)
  <> [] ->
  transform calcInterpolatedPose toPolygon2d fuel object horizon r = None.
Proof.
  intros Hr Hpos Hne. unfold transform.
  destruct (PredictedObjectKinematics.predicted_paths
              (PredictedObject.kinematics object)) as [|path paths] eqn:Hpaths;
    [done|].
  cbn [length seq transform_paths]. rewrite Hpaths. cbn [lookup list_lookup].
  cbn [mbind option_bind].
  by rewrite for_double_diverges.
Qed.

Lemma transform_paths_run (fuel : nat) (object : PredictedObject.t)
    (horizon step : Q) (n : nat) :
  (forall j, (j < n)%nat -> sample_time step j < horizon + eps_1e_3) ->
  ~ sample_time step n < horizon + eps_1e_3 ->
  (n < fuel)%nat ->
  forall (todo done_in : list PredictedPath.t)
         (done_out : list PredictedPathWithPolygon.t)
         (ext : ExtendedPredictedObject.t),
    object.(PredictedObject.kinematics).(PredictedObjectKinematics.predicted_paths)
    = done_in ++ todo ->
    ext.(ExtendedPredictedObject.predicted_paths)
    = done_out ++ replicate (length todo) PredictedPathWithPolygon.default ->
    length done_out = length done_in ->
    transform_paths calcInterpolatedPose toPolygon2d fuel object horizon step
      (twist_linear object).(Vector3.x)
      (seq (length done_in) (length todo)) ext
    = Some (update_predicted_paths
              (fun _ =>
                 done_out
                   ++ map (projected_path calcInterpolatedPose toPolygon2d
                             object step n)
                          todo)
              ext).
Proof.
  intros Hbelow Hstop Hfuel.
  induction todo as [|path todo IH];
    intros done_in done_out ext Hin Hout Hlen;
    cbn [length seq transform_paths map].
  - simpl in Hout. rewrite app_nil_r in *.
    destruct ext. unfold update_predicted_paths. simpl in *. by subst.
  - rewrite Hin, list_lookup_middle by done. cbn [mbind option_bind].
    rewrite (for_double_run _ _ _ n fuel 0) by (try done; intros j Hj; apply Hbelow; lia).
    cbn [mbind option_bind].
    rewrite transform_body_foldl.
    assert (Hin' :
      object.(PredictedObject.kinematics).(PredictedObjectKinematics.predicted_paths)
      = (done_in ++ [path]) ++ todo) by (by rewrite <- app_assoc).
    specialize (IH (done_in ++ [path])
                   (done_out
                      ++ [projected_path calcInterpolatedPose toPolygon2d
                            object step n path])).
    replace (S (length done_in)) with (length (done_in ++ [path]))
      by (rewrite length_app; simpl; lia).
    rewrite IH; [| done | | by rewrite !length_app, Hlen].
    + rewrite !update_predicted_paths_const. by rewrite <- app_assoc.
    + simpl. rewrite Hout. rewrite list_alter_alter_eq. simpl.
      replace (length done_in) with (length done_out + 0)%nat by lia.
      rewrite alter_app_r. simpl. by rewrite <- app_assoc.
Qed.

(** X13.  [transform] returns without sampling in two cases, whatever the
    resolution: for an object without predicted paths, with any fuel, the
    extended object has no projected path; with a horizon of [-1e-3] or
    less, as soon as the loop condition can be tested once, every projected
    path keeps its confidence and has no sample. *)
Theorem transform_without_samples
    (fuel : nat) (object : PredictedObject.t) (horizon r : Q) :
  (object.(PredictedObject.kinematics).(PredictedObjectKinematics.predicted_paths)
   = [] ->
   exists ext,
     transform calcInterpolatedPose toPolygon2d fuel object horizon r = Some ext
     /\ ext.(ExtendedPredictedObject.predicted_paths) = [])
  /\ (horizon + (1 # 1000) <= 0 ->
      exists ext,
        transform calcInterpolatedPose toPolygon2d (S fuel) object horizon r
        = Some ext
        /\ ext.(ExtendedPredictedObject.predicted_paths)
           = map (fun path =>
                    PredictedPathWithPolygon.mk path.(PredictedPath.confidence) [])
                 object.(PredictedObject.kinematics)
                   .(PredictedObjectKinematics.predicted_paths)).
Proof.
  split.
  - intros Hnil. unfold transform. rewrite Hnil. simpl. by eexists.
  - intros Hneg. unfold transform.
    pose proof (transform_paths_run (S fuel) object horizon r 0) as Hrun.
    specialize (Hrun ltac:(intros; lia)).
    specialize (Hrun ltac:(by apply Qle_not_lt) ltac:(lia)
                  object.(PredictedObject.kinematics)
                    .(PredictedObjectKinematics.predicted_paths) [] []).
    simpl in Hrun. cbn [ExtendedPredictedObject.initial_twist].
    rewrite Hrun; [|done| |done].
    + eexists. split; [done|]. done.
    + simpl. by rewrite take_nil, Nat.sub_0_r.
Qed.


End OtherAgentFurther.


Section EgoProjectionFurther.

Variable convertToFrenetPoint :
  list PathPointWithLaneId.t -> Point.t -> nat -> FrenetPoint.t.
Variable calcInterpolatedPose : list PathPointWithLaneId.t -> Q -> Pose.t.



Variable A : DoubleArith.t.

(** X16.  The pose of a sample does not follow the floor of the velocity.
    Whenever [createPredictedPath] returns, the pose of each sample is the
    one of the centerline at the initial arc length plus
    [current_velocity * t + 0.5 * acceleration * t * t], each operation
    rounded, for the time [t] of the sample; and the call with any other
    floor speed returns as well, with samples of the same times and the
    same poses.  The statement holds for every arithmetic, so for the one
    of binary64. *)
Theorem createPredictedPath_pose_ignores_floor
    (fuel : nat) (params : EgoPredictedPathParams.t) (other_min_slow_speed : Q)
    (path_points : list PathPointWithLaneId.t) (vehicle_pose : Pose.t)
    (current_velocity : Q) (ego_seg_idx : nat)
    (predicted_path : list PoseWithVelocityStamped.t) :
  Rounded.createPredictedPath A convertToFrenetPoint calcInterpolatedPose fuel
    params path_points vehicle_pose current_velocity ego_seg_idx
  = Some predicted_path ->
  (forall s,
     s ∈ predicted_path ->
     s.(PoseWithVelocityStamped.pose)
     = calcInterpolatedPose path_points
         (DoubleArith.add A
            (convertToFrenetPoint path_points vehicle_pose.(Pose.position)
               ego_seg_idx).(FrenetPoint.length)
            (DoubleArith.add A
               (DoubleArith.mul A current_velocity
                  s.(PoseWithVelocityStamped.time))
               (DoubleArith.mul A
                  (DoubleArith.mul A
                     (DoubleArith.mul A (DoubleArith.lit A (1 # 2))
                        params.(EgoPredictedPathParams.acceleration))
                     s.(PoseWithVelocityStamped.time))
                  s.(PoseWithVelocityStamped.time)))))
  /\ exists other_path : list PoseWithVelocityStamped.t,
       Rounded.createPredictedPath A convertToFrenetPoint calcInterpolatedPose
         fuel
         (EgoPredictedPathParams.mk
            params.(EgoPredictedPathParams.acceleration)
            params.(EgoPredictedPathParams.time_horizon)
            params.(EgoPredictedPathParams.time_resolution)
            other_min_slow_speed)
         path_points vehicle_pose current_velocity ego_seg_idx
       = Some other_path
       /\ map PoseWithVelocityStamped.time other_path
          = map PoseWithVelocityStamped.time predicted_path
       /\ map PoseWithVelocityStamped.pose other_path
          = map PoseWithVelocityStamped.pose predicted_path.
Proof.
  intros Hrun.
  destruct (decide (path_points = [])) as [->|Hne].
  { injection Hrun as <-. split; [by intros s ?%elem_of_nil|].
    by exists []. }
  apply rounded_createPredictedPath_Some in Hrun as (n & Hfuel & Hends & ->);
    [|done].
  split.
  - intros s (k & -> & _)%list_elem_of_fmap. done.
  - eexists. split_and!.
    + by apply (rounded_createPredictedPath_run _ _ A _ _ _ _ _ n).
    + rewrite !map_map. by apply map_ext.
    + rewrite !map_map. by apply map_ext.
Qed.

(** X17.  With a resolution that is not positive, a horizon above [-1e-3]
    and a non-empty centerline, [createPredictedPath] never returns: no
    amount of fuel is enough. *)
Theorem createPredictedPath_diverges
    (fuel : nat) (params : EgoPredictedPathParams.t)
    (path_points : list PathPointWithLaneId.t) (vehicle_pose : Pose.t)
    (current_velocity : Q) (ego_seg_idx : nat) :
  params.(EgoPredictedPathParams.time_resolution) <= 0 ->
  0 < params.(EgoPredictedPathParams.time_horizon) + (1 # 1000) ->
  path_points <> [] ->
  createPredictedPath convertToFrenetPoint calcInterpolatedPose fuel params
    path_points vehicle_pose current_velocity ego_seg_idx
  = None.
Proof.
  intros Hr Hpos Hne. unfold createPredictedPath.
  destruct path_points; [done|]. by apply for_double_diverges.
Qed.

(** X18.  With a horizon of [-1e-3] or less, [createPredictedPath] returns
    the empty sequence whatever the resolution and the centerline, as soon
    as the loop condition can be tested once. *)
Theorem createPredictedPath_below_horizon
    (fuel : nat) (params : EgoPredictedPathParams.t)
    (path_points : list PathPointWithLaneId.t) (vehicle_pose : Pose.t)
    (current_velocity : Q) (ego_seg_idx : nat) :
  params.(EgoPredictedPathParams.time_horizon) + (1 # 1000) <= 0 ->
  createPredictedPath convertToFrenetPoint calcInterpolatedPose (S fuel) params
    path_points vehicle_pose current_velocity ego_seg_idx
  = Some [].
Proof.
  intros Hneg. unfold createPredictedPath.
  destruct path_points; [done|]. simpl.
  by rewrite decide_False by (by apply Qle_not_lt).
Qed.


End EgoProjectionFurther.

(** * Virtual wall markers *)

Lemma size_t_wrap_succ (k : Z) :
  size_t_wrap (size_t_wrap k + 1) = size_t_wrap (k + 1).
Proof. unfold size_t_wrap. by rewrite Zplus_mod_idemp_l. Qed.

Lemma to_int_small (k : Z) :
  (0 <= k < 2 ^ 31)%Z -> to_int (size_t_wrap k) = k.
Proof.
  intros Hk. unfold to_int, size_t_wrap.
  rewrite (Z.mod_small k) by lia. rewrite Z.mod_small by lia. lia.
Qed.

Lemma count_ns_snoc (ns : string) (l : list Marker.t) (m : Marker.t) :
  count_ns ns (l ++ [m])
  = (count_ns ns l + if decide (m.(Marker.ns) = ns) then 1 else 0)%nat.
Proof.
  unfold count_ns. rewrite filter_app, length_app. f_equal.
  rewrite filter_cons, filter_nil. by case_decide.
Qed.

Lemma count_ns_le (ns : string) (l : list Marker.t) :
  (count_ns ns l <= length l)%nat.
Proof. apply length_filter. Qed.

Lemma count_ns_take_le (ns : string) (l : list Marker.t) (i : nat) :
  (count_ns ns (take i l) <= count_ns ns l)%nat.
Proof.
  rewrite <- (take_drop i l) at 2. unfold count_ns.
  rewrite filter_app, length_app. lia.
Qed.

Lemma with_ids_snoc (l : list Marker.t) (m : Marker.t) :
  with_ids (l ++ [m])
  = with_ids l
      ++ [Marker.set_id
            (to_int (size_t_wrap (Z.of_nat (count_ns m.(Marker.ns) l)))) m].
Proof.
  unfold with_ids. rewrite imap_app. f_equal.
  - apply imap_ext. intros i x Hx. simpl.
    rewrite take_app_le; [done|]. apply lookup_lt_Some in Hx. lia.
  - simpl. rewrite Nat.add_0_r. by rewrite take_app_length.
Qed.

Section CreateMarkersProperties.

Variable createStopVirtualWallMarker :
  Pose.t -> string -> Time.t -> Z -> Q -> string -> list Marker.t.
Variable createSlowDownVirtualWallMarker :
  Pose.t -> string -> Time.t -> Z -> Q -> string -> list Marker.t.
Variable createDeadLineVirtualWallMarker :
  Pose.t -> string -> Time.t -> Z -> Q -> string -> list Marker.t.

Local Abbreviation created :=
  (created_markers createStopVirtualWallMarker createSlowDownVirtualWallMarker
     createDeadLineVirtualWallMarker).
Local Abbreviation run :=
  (create_markers createStopVirtualWallMarker createSlowDownVirtualWallMarker
     createDeadLineVirtualWallMarker).

Lemma foldl_convert_wall (now : Time.t) (walls : list VirtualWall.t)
    (acc : gmap string MarkerCount.t * list Marker.t) :
  foldl (convert_wall createStopVirtualWallMarker createSlowDownVirtualWallMarker
           createDeadLineVirtualWallMarker now) acc walls
  = foldl assign_id acc (created now walls).
Proof.
  revert acc. induction walls as [|w walls IH]; intros acc; [done|].
  unfold created_markers. rewrite bind_cons, foldl_app. simpl. by rewrite IH.
Qed.

Lemma foldl_assign_id (counts0 : gmap string MarkerCount.t) (l : list Marker.t) :
  (forall ns count,
     counts0 !! ns = Some count -> count.(MarkerCount.current) = 0%Z) ->
  (foldl assign_id (counts0, []) l).2 = with_ids l
  /\ forall ns, (foldl assign_id (counts0, []) l).1 !! ns = counts_after counts0 l ns.
Proof.
  intros Hzero. induction l as [|m l IH] using rev_ind.
  - split; [done|]. intros ns. unfold counts_after. simpl.
    destruct (counts0 !! ns) as [[p cur]|] eqn:E; [|done].
    pose proof (Hzero ns _ E) as H0. simpl in H0. by subst cur.
  - rewrite foldl_snoc. destruct IH as [IHout IHcounts].
    assert (Hcur :
      (default MarkerCount.default
         ((foldl assign_id (counts0, []) l).1 !! m.(Marker.ns)))
        .(MarkerCount.current)
      = size_t_wrap (Z.of_nat (count_ns m.(Marker.ns) l))).
    { rewrite IHcounts. unfold counts_after.
      destruct (counts0 !! m.(Marker.ns)); [done|].
      case_decide as Hk; [|done]. by rewrite Hk. }
    split.
    + unfold assign_id at 1. cbn [snd]. rewrite IHout, Hcur.
      by rewrite with_ids_snoc.
    + intros ns. unfold assign_id at 1. cbn [fst]. rewrite Hcur.
      rewrite size_t_wrap_succ.
      destruct (decide (m.(Marker.ns) = ns)) as [<-|Hne].
      * rewrite lookup_insert_eq. unfold counts_after.
        rewrite count_ns_snoc.
        rewrite (decide_True (P := m.(Marker.ns) = m.(Marker.ns))) by done.
        replace (Z.of_nat (count_ns m.(Marker.ns) l) + 1)%Z
          with (Z.of_nat (count_ns m.(Marker.ns) l + 1)) by lia.
        rewrite IHcounts. unfold counts_after.
        destruct (counts0 !! m.(Marker.ns)); [done|].
        rewrite (decide_False (P := (_ + 1)%nat = 0%nat)) by lia.
        by case_decide.
      * rewrite lookup_insert_ne by done. rewrite IHcounts.
        unfold counts_after. rewrite count_ns_snoc.
        rewrite (decide_False (P := m.(Marker.ns) = ns)) by done.
        by rewrite Nat.add_0_r.
Qed.

(** The counts after [create_markers] converted the walls, before
    [cleanup]: the previous count is the count that the creator remembered,
    the current count the number of markers created in the namespace. *)
Lemma converted_counts (now : Time.t) (c : VirtualWallMarkerCreator.t) :
  let counts :=
    (fun count => MarkerCount.mk count.(MarkerCount.current) 0%Z)
      <$> c.(VirtualWallMarkerCreator.marker_count_per_namespace) in
  let converted :=
    foldl (convert_wall createStopVirtualWallMarker
             createSlowDownVirtualWallMarker createDeadLineVirtualWallMarker now)
          (counts, []) c.(VirtualWallMarkerCreator.virtual_walls) in
  converted.2 = with_ids (created now c.(VirtualWallMarkerCreator.virtual_walls))
  /\ forall ns,
       converted.1 !! ns
       = counts_after counts
           (created now c.(VirtualWallMarkerCreator.virtual_walls)) ns.
Proof.
  cbn zeta. rewrite foldl_convert_wall. apply foldl_assign_id.
  intros ns count Hcount. rewrite lookup_fmap in Hcount.
  destruct (_ !! ns); simpl in Hcount; [|done]. by injection Hcount as <-.
Qed.

End CreateMarkersProperties.

Lemma to_int_direct (k : Z) : (0 <= k < 2 ^ 31)%Z -> to_int k = k.
Proof. intros Hk. unfold to_int. rewrite Z.mod_small by lia. lia. Qed.

Lemma count_ns_take_lt (ns : string) (l : list Marker.t) (i j : nat) (m : Marker.t) :
  (i < j)%nat -> l !! i = Some m -> m.(Marker.ns) = ns ->
  (count_ns ns (take i l) < count_ns ns (take j l))%nat.
Proof.
  intros Hij Hm Hns.
  assert (Hstep : count_ns ns (take (S i) l) = (count_ns ns (take i l) + 1)%nat).
  { rewrite (take_S_r l i m Hm), count_ns_snoc. by rewrite decide_True. }
  assert (Hle : (count_ns ns (take (S i) l) <= count_ns ns (take j l))%nat).
  { replace (take (S i) l) with (take (S i) (take j l))
      by (rewrite take_take; f_equal; lia).
    apply count_ns_take_le. }
  lia.
Qed.

Lemma delete_markers_of_elem (entry : string * MarkerCount.t) (m : Marker.t) :
  m ∈ delete_markers_of entry
  <-> exists id,
        m = Marker.mk entry.1 id Marker.DELETE
              Marker.default.(Marker.pose) Marker.default.(Marker.text)
        /\ (to_int entry.2.(MarkerCount.current) <= id
            < to_int entry.2.(MarkerCount.previous))%Z.
Proof.
  unfold delete_markers_of. rewrite list_elem_of_fmap.
  setoid_rewrite elem_of_seqZ. split.
  - intros (id & -> & Hid). exists id. split; [done|lia].
  - intros (id & -> & Hid). exists id. split; [done|lia].
Qed.

Section CreateMarkersTheorems.

Variable createStopVirtualWallMarker :
  Pose.t -> string -> Time.t -> Z -> Q -> string -> list Marker.t.
Variable createSlowDownVirtualWallMarker :
  Pose.t -> string -> Time.t -> Z -> Q -> string -> list Marker.t.
Variable createDeadLineVirtualWallMarker :
  Pose.t -> string -> Time.t -> Z -> Q -> string -> list Marker.t.

Local Abbreviation created :=
  (created_markers createStopVirtualWallMarker createSlowDownVirtualWallMarker
     createDeadLineVirtualWallMarker).
Local Abbreviation run :=
  (create_markers createStopVirtualWallMarker createSlowDownVirtualWallMarker
     createDeadLineVirtualWallMarker).

Lemma create_markers_unfold (now : Time.t) (c : VirtualWallMarkerCreator.t) :
  exists counts2,
    run now c
    = (with_ids (created now c.(VirtualWallMarkerCreator.virtual_walls))
         ++ (map_to_list counts2 ≫= delete_markers_of),
       VirtualWallMarkerCreator.mk []
         (filter (fun entry => ~ is_unused_namespace entry.2) counts2))
    /\ forall ns,
         counts2 !! ns
         = counts_after
             ((fun count => MarkerCount.mk count.(MarkerCount.current) 0%Z)
                <$> c.(VirtualWallMarkerCreator.marker_count_per_namespace))
             (created now c.(VirtualWallMarkerCreator.virtual_walls)) ns.
Proof.
  destruct (converted_counts createStopVirtualWallMarker
              createSlowDownVirtualWallMarker createDeadLineVirtualWallMarker
              now c) as [Hout Hcounts].
  eexists. split; [|exact Hcounts].
  unfold create_markers, cleanup. cbn [VirtualWallMarkerCreator.marker_count_per_namespace].
  by rewrite Hout.
Qed.

Lemma counts_after_previous (c : VirtualWallMarkerCreator.t)
    (l : list Marker.t) (ns : string) (count : MarkerCount.t) :
  counts_after
    ((fun count => MarkerCount.mk count.(MarkerCount.current) 0%Z)
       <$> c.(VirtualWallMarkerCreator.marker_count_per_namespace)) l ns
  = Some count ->
  count.(MarkerCount.previous) = current_count c ns
  /\ count.(MarkerCount.current) = size_t_wrap (Z.of_nat (count_ns ns l)).
Proof.
  unfold counts_after, current_count. rewrite lookup_fmap.
  destruct (_ !! ns) as [old|]; simpl.
  - by intros [= <-].
  - case_decide; [done|]. by intros [= <-].
Qed.

(** X20.  The markers created for the walls come first in the marker
    array, in the order of the walls, unchanged but for their identifier:
    with fewer than [2^31] markers each gets the number of markers of its
    own namespace created before it in this call, so that two markers of
    one namespace never share an identifier.  All markers after them are
    delete markers. *)
Theorem create_markers_ids (now : Time.t) (c : VirtualWallMarkerCreator.t) :
  (Z.of_nat (length (created now c.(VirtualWallMarkerCreator.virtual_walls)))
   < 2 ^ 31)%Z ->
  exists adds deletes,
    (run now c).1 = adds ++ deletes
    /\ length adds
       = length (created now c.(VirtualWallMarkerCreator.virtual_walls))
    /\ (forall i m,
          created now c.(VirtualWallMarkerCreator.virtual_walls) !! i = Some m ->
          adds !! i
          = Some (Marker.set_id
                    (Z.of_nat
                       (count_ns m.(Marker.ns)
                          (take i (created now
                                     c.(VirtualWallMarkerCreator.virtual_walls)))))
                    m))
    /\ (forall i j mi mj,
          adds !! i = Some mi -> adds !! j = Some mj ->
          mi.(Marker.ns) = mj.(Marker.ns) ->
          mi.(Marker.id) = mj.(Marker.id) ->
          i = j)
    /\ (forall m, m ∈ deletes -> m.(Marker.action) = Marker.DELETE).
Proof.
  intros Hsize.
  destruct (create_markers_unfold now c) as (counts2 & Hrun & _).
  set (l := created now c.(VirtualWallMarkerCreator.virtual_walls)) in *.
  assert (Hlookup : forall i m,
    l !! i = Some m ->
    with_ids l !! i
    = Some (Marker.set_id (Z.of_nat (count_ns m.(Marker.ns) (take i l))) m)).
  { intros i m Hm. unfold with_ids. rewrite list_lookup_imap, Hm. simpl.
    rewrite to_int_small; [done|].
    pose proof (count_ns_take_le m.(Marker.ns) l i).
    pose proof (count_ns_le m.(Marker.ns) l). lia. }
  exists (with_ids l), (map_to_list counts2 ≫= delete_markers_of).
  split_and!.
  - by rewrite Hrun.
  - unfold with_ids. by rewrite length_imap.
  - exact Hlookup.
  - intros i j mi mj Hi Hj Hns Hid.
    assert (Hsrc : forall k mk,
      with_ids l !! k = Some mk ->
      exists m, l !! k = Some m
                /\ mk = Marker.set_id
                          (Z.of_nat (count_ns m.(Marker.ns) (take k l))) m).
    { intros k mk Hk.
      destruct (l !! k) as [m|] eqn:Hm.
      - exists m. split; [done|]. rewrite (Hlookup k m Hm) in Hk. by injection Hk.
      - unfold with_ids in Hk. rewrite list_lookup_imap, Hm in Hk. done. }
    destruct (Hsrc i mi Hi) as (ci & Hci & ->).
    destruct (Hsrc j mj Hj) as (cj & Hcj & ->).
    simpl in Hns, Hid.
    destruct (Nat.lt_trichotomy i j) as [Hlt|[Heq|Hgt]]; [|done|].
    + pose proof (count_ns_take_lt ci.(Marker.ns) l i j ci Hlt Hci eq_refl).
      rewrite Hns in *. lia.
    + pose proof (count_ns_take_lt cj.(Marker.ns) l j i cj Hgt Hcj eq_refl).
      rewrite <- Hns in *. lia.
  - intros m (entry & Hm & _)%list_elem_of_bind.
    apply delete_markers_of_elem in Hm as (id & -> & _). done.
Qed.

(** X21.  The delete markers of a call, with fewer than [2^31] markers
    created and remembered counts in [0, 2^31): a marker is among them iff
    it is the default marker with the action [DELETE], a namespace [ns]
    and an identifier from the number of markers created in [ns] in this
    call up to, and without, the count remembered for [ns] from the call
    before.  No delete marker is emitted twice. *)
Theorem create_markers_deletes (now : Time.t) (c : VirtualWallMarkerCreator.t) :
  (Z.of_nat (length (created now c.(VirtualWallMarkerCreator.virtual_walls)))
   < 2 ^ 31)%Z ->
  (forall ns, (0 <= current_count c ns < 2 ^ 31)%Z) ->
  (forall m,
     m ∈ drop (length (created now c.(VirtualWallMarkerCreator.virtual_walls)))
              (run now c).1
     <-> exists ns id,
           m = Marker.mk ns id Marker.DELETE
                 Marker.default.(Marker.pose) Marker.default.(Marker.text)
           /\ (Z.of_nat
                 (count_ns ns
                    (created now c.(VirtualWallMarkerCreator.virtual_walls)))
               <= id < current_count c ns)%Z)
  /\ NoDup (drop (length (created now c.(VirtualWallMarkerCreator.virtual_walls)))
                 (run now c).1).
Proof.
  intros Hsize Hcur.
  destruct (create_markers_unfold now c) as (counts2 & Hrun & Hcounts).
  set (l := created now c.(VirtualWallMarkerCreator.virtual_walls)) in *.
  rewrite Hrun. cbn [fst].
  rewrite drop_app_length' by (unfold with_ids; by rewrite length_imap).
  assert (Hentry : forall ns count,
    counts2 !! ns = Some count ->
    to_int count.(MarkerCount.previous) = current_count c ns
    /\ to_int count.(MarkerCount.current) = Z.of_nat (count_ns ns l)).
  { intros ns count Hcount. rewrite Hcounts in Hcount.
    apply counts_after_previous in Hcount as [-> ->].
    split; [by apply to_int_direct|].
    apply to_int_small. pose proof (count_ns_le ns l). lia. }
  split.
  - intros m. rewrite list_elem_of_bind. split.
    + intros ([ns count] & Hm & Hin). apply elem_of_map_to_list in Hin.
      apply delete_markers_of_elem in Hm as (id & -> & Hid). simpl in *.
      destruct (Hentry ns count Hin) as [Hp Hc].
      exists ns, id. split; [done|]. lia.
    + intros (ns & id & -> & Hid).
      assert (Hold : exists old,
        c.(VirtualWallMarkerCreator.marker_count_per_namespace) !! ns = Some old).
      { unfold current_count in Hid.
        destruct (_ !! ns) as [old|]; [by exists old|]. simpl in Hid. lia. }
      destruct Hold as [old Hold].
      assert (Hin : exists count, counts2 !! ns = Some count).
      { rewrite Hcounts. unfold counts_after. rewrite lookup_fmap, Hold.
        simpl. by eexists. }
      destruct Hin as [count Hin]. destruct (Hentry ns count Hin) as [Hp Hc].
      exists (ns, count). split; [|by apply elem_of_map_to_list].
      apply delete_markers_of_elem. exists id. split; [done|]. simpl. lia.
  - apply NoDup_bind; [| |apply NoDup_map_to_list].
    + intros [ns1 c1] [ns2 c2] m Hin1 Hin2 Hm1 Hm2.
      apply delete_markers_of_elem in Hm1 as (id1 & -> & _).
      apply delete_markers_of_elem in Hm2 as (id2 & Heq & _).
      simpl in Heq. injection Heq as -> _.
      apply elem_of_map_to_list in Hin1, Hin2. by simplify_eq.
    + intros entry _. unfold delete_markers_of.
      apply NoDup_fmap_2_strong; [|apply NoDup_seqZ].
      by intros id1 id2 _ _ [= ->].
Qed.

(** X22.  After [create_markers] the creator holds no wall and no unused
    namespace; for every namespace it remembers as current count the number
    of markers created in this call (reduced to [size_t]), and every entry
    it keeps has as previous count the count remembered before the call. *)
Theorem create_markers_state (now : Time.t) (c : VirtualWallMarkerCreator.t) :
  (run now c).2.(VirtualWallMarkerCreator.virtual_walls) = []
  /\ (forall ns,
        current_count (run now c).2 ns
        = size_t_wrap
            (Z.of_nat
               (count_ns ns
                  (created now c.(VirtualWallMarkerCreator.virtual_walls)))))
  /\ (forall ns count,
        (run now c).2.(VirtualWallMarkerCreator.marker_count_per_namespace) !! ns
        = Some count ->
        ~ is_unused_namespace count
        /\ count.(MarkerCount.previous) = current_count c ns).
Proof.
  destruct (create_markers_unfold now c) as (counts2 & Hrun & Hcounts).
  rewrite Hrun. cbn [snd]. split_and!; [done| |].
  - intros ns. unfold current_count at 1.
    cbn [VirtualWallMarkerCreator.marker_count_per_namespace].
    destruct (filter _ counts2 !! ns) as [count|] eqn:Hf.
    + apply map_lookup_filter_Some in Hf as [Hin _]. simpl.
      rewrite Hcounts in Hin. by apply counts_after_previous in Hin as [_ ->].
    + simpl. apply map_lookup_filter_None in Hf as [Hnone|Hunused].
      * rewrite Hcounts in Hnone. unfold counts_after in Hnone.
        destruct (_ !! ns); [done|]. case_decide as Hk; [|done]. by rewrite Hk.
      * destruct (counts2 !! ns) as [count|] eqn:Hin.
        -- specialize (Hunused count eq_refl). simpl in Hunused.
           apply dec_stable in Hunused as [_ Hzero].
           rewrite Hcounts in Hin.
           apply counts_after_previous in Hin as [_ Hc]. by rewrite <- Hc, Hzero.
        -- rewrite Hcounts in Hin. unfold counts_after in Hin.
           destruct (_ !! ns); [done|]. case_decide as Hk; [|done]. by rewrite Hk.
  - intros ns count Hf.
    cbn [VirtualWallMarkerCreator.marker_count_per_namespace] in Hf.
    apply map_lookup_filter_Some in Hf as [Hin Hused]. split; [done|].
    rewrite Hcounts in Hin. by apply counts_after_previous in Hin as [-> _].
Qed.

(** X23.  Two calls of [create_markers] in a row without any wall leave an
    empty creator: the first call emits delete markers only, the second
    call emits no marker and forgets every namespace. *)
Theorem create_markers_idle (now now' : Time.t) (c : VirtualWallMarkerCreator.t) :
  c.(VirtualWallMarkerCreator.virtual_walls) = [] ->
  (forall m, m ∈ (run now c).1 -> m.(Marker.action) = Marker.DELETE)
  /\ (run now' (run now c).2).1 = []
  /\ (run now' (run now c).2).2 = VirtualWallMarkerCreator.mk [] ∅.
Proof.
  intros Hwalls.
  destruct (create_markers_unfold now c) as (counts2 & Hrun & Hcounts).
  rewrite Hwalls in Hrun, Hcounts. rewrite Hrun. cbn [fst snd].
  split.
  { intros m [Hm|Hm]%elem_of_app; [by apply elem_of_nil in Hm|].
    apply list_elem_of_bind in Hm as (entry & Hm & _).
    by apply delete_markers_of_elem in Hm as (id & -> & _). }
  destruct (create_markers_unfold now'
              (VirtualWallMarkerCreator.mk []
                 (filter (fun entry => ~ is_unused_namespace entry.2) counts2)))
    as (counts3 & Hrun' & Hcounts').
  rewrite Hrun'. cbn [fst snd VirtualWallMarkerCreator.virtual_walls] in *.
  assert (Hzero : forall ns count,
    counts3 !! ns = Some count -> count = MarkerCount.mk 0 0).
  { intros ns count Hin. rewrite Hcounts' in Hin.
    unfold counts_after in Hin. rewrite lookup_fmap in Hin.
    cbn [VirtualWallMarkerCreator.marker_count_per_namespace] in Hin.
    destruct (filter _ counts2 !! ns) as [old|] eqn:Hold; simpl in Hin; [|done].
    injection Hin as <-.
    apply map_lookup_filter_Some in Hold as [Hold _].
    rewrite Hcounts in Hold. unfold counts_after in Hold.
    destruct (_ !! ns); simpl in Hold; [|done]. by injection Hold as <-. }
  split.
  - simpl. apply elem_of_nil_inv. intros m Hm.
    apply list_elem_of_bind in Hm as ([ns count] & Hm & Hin).
    apply elem_of_map_to_list in Hin. rewrite (Hzero ns count Hin) in Hm.
    apply delete_markers_of_elem in Hm as (id & _ & Hid). simpl in Hid.
    vm_compute in Hid. destruct Hid as [H1 H2].
    destruct id; vm_compute in H1, H2; congruence.
  - f_equal. apply map_empty. intros ns.
    apply map_lookup_filter_None. right. intros count Hin Hused.
    apply Hused. rewrite (Hzero ns count Hin). done.
Qed.

End CreateMarkersTheorems.

(** X24.  Walls are kept in the order of their addition: adding the walls
    of a list one by one is adding the list, adding two lists one after
    the other is adding their concatenation, and no addition touches the
    marker counts. *)
Theorem add_virtual_walls_compose
    (c : VirtualWallMarkerCreator.t) (walls walls' : list VirtualWall.t) :
  foldl add_virtual_wall c walls = add_virtual_walls c walls
  /\ add_virtual_walls (add_virtual_walls c walls) walls'
     = add_virtual_walls c (walls ++ walls')
  /\ (add_virtual_walls c walls).(VirtualWallMarkerCreator.marker_count_per_namespace)
     = c.(VirtualWallMarkerCreator.marker_count_per_namespace)
  /\ (add_virtual_walls (cleanup c) walls).(VirtualWallMarkerCreator.virtual_walls)
     = walls.
Proof.
  split_and!.
  - revert c. induction walls as [|w walls IH]; intros c.
    + unfold add_virtual_walls. rewrite app_nil_r. by destruct c.
    + simpl. rewrite IH. unfold add_virtual_walls, add_virtual_wall. simpl.
      by rewrite <- app_assoc.
  - unfold add_virtual_walls. simpl. by rewrite <- app_assoc.
  - done.
  - done.
Qed.

(** X25.  [cleanup] erases exactly the namespaces whose previous and
    current counts are both zero, keeps the other entries as they are,
    clears the walls, and changes nothing when applied again. *)
Theorem cleanup_spec (c : VirtualWallMarkerCreator.t) :
  (forall ns count,
     (cleanup c).(VirtualWallMarkerCreator.marker_count_per_namespace) !! ns
     = Some count
     <-> c.(VirtualWallMarkerCreator.marker_count_per_namespace) !! ns = Some count
         /\ (count.(MarkerCount.previous) <> 0%Z
             \/ count.(MarkerCount.current) <> 0%Z))
  /\ (cleanup c).(VirtualWallMarkerCreator.virtual_walls) = []
  /\ cleanup (cleanup c) = cleanup c.
Proof.
  split_and!.
  - intros ns count. unfold cleanup. simpl.
    rewrite map_lookup_filter_Some. unfold is_unused_namespace. simpl.
    split; intros [Hin Hused]; (split; [done|]).
    + destruct (decide (count.(MarkerCount.previous) = 0%Z)); [|by left].
      destruct (decide (count.(MarkerCount.current) = 0%Z)); [|by right].
      by destruct Hused.
    + intros [Hp Hc]. by destruct Hused.
  - done.
  - unfold cleanup. simpl. f_equal. apply map_eq. intros ns.
    apply option_eq. intros count.
    rewrite !map_lookup_filter_Some. tauto.
Qed.

(** * The further definitions on concrete inputs *)

Example ex_create_markers :
  let out :=
    create_markers (ex_factory "stop") (ex_factory "slowdown")
      (ex_factory "deadline") Time.default ex_creator in
  map (fun m => (m.(Marker.ns), m.(Marker.id), m.(Marker.action))) out.1
  = [("a_stop_virtual_wall", 0, 0); ("a_stop_factor_text", 0, 0);
     ("b_slowdown_virtual_wall", 0, 0); ("b_slowdown_factor_text", 0, 0);
     ("a_stop_virtual_wall", 1, 0); ("a_stop_factor_text", 1, 0);
     ("a_stop_virtual_wall", 2, 2)]%Z
  /\ out.2.(VirtualWallMarkerCreator.virtual_walls) = []
  /\ current_count out.2 "a_stop_virtual_wall" = 2%Z
  /\ current_count out.2 "b_slowdown_factor_text" = 1%Z.
Proof. vm_compute. done. Qed.

Example ex_lane_buckets :
  option_map
    (fun t =>
       (map ExtendedPredictedObject.uuid t.(TargetObjectsOnLane.on_current_lane),
        map ExtendedPredictedObject.uuid t.(TargetObjectsOnLane.on_left_lane),
        map ExtendedPredictedObject.uuid t.(TargetObjectsOnLane.on_right_lane)))
    (createTargetObjectsOnLane ex_within ex_left ex_right
       (calcInterpolatedPose_spec ex_interpolate) ex_pose_footprint 5
       [ex_lanelet 1 0 20] ex_batch (ex_filtering_params 1))
  = Some ([[2%Z]; [1%Z]], [], [[1%Z]]).
Proof. reflexivity. Qed.

(** * The hypotheses of the further theorems are met *)

Lemma filterObjectsByPosition_monotone_witness :
  50 <= 100 /\ 0 <= 5
  /\ (filterObjectsByPosition ex_arc ex_batch ex_centerline (Point.mk 0 0 0) 50 0)
       .(PredictedObjects.objects)
     `sublist_of`
     (filterObjectsByPosition ex_arc ex_batch ex_centerline (Point.mk 0 0 0) 100 5)
       .(PredictedObjects.objects).
Proof.
  split; [discriminate|]. split; [discriminate|].
  apply (filterObjectsByPosition_monotone ex_arc ex_batch ex_centerline
           (Point.mk 0 0 0) 50 0 100 5); discriminate.
Defined.

Lemma createTargetObjectsOnLane_loop_buckets_witness :
  Rounded.ends_after Binary64.arith
    (Binary64.add 3 (Binary64.round (1 # 1000))) 1 4
  /\ (4 < 5)%nat
  /\ exists buckets,
       Rounded.createTargetObjectsOnLane Binary64.arith ex_within ex_left
         ex_right (calcInterpolatedPose_spec ex_interpolate) ex_pose_footprint
         5 [ex_lanelet 1 0 20] ex_batch (ex_filtering_params 1)
       = Some buckets
       /\ length buckets.(TargetObjectsOnLane.on_current_lane) = 2%nat.
Proof.
  assert (Hends :
    Rounded.ends_after Binary64.arith
      (Binary64.add 3 (Binary64.round (1 # 1000))) 1 4)
    by (apply ends_after_check; vm_compute; reflexivity).
  split; [exact Hends|]. split; [lia|].
  eexists. split.
  - apply (createTargetObjectsOnLane_loop_buckets ex_within ex_left ex_right
             (calcInterpolatedPose_spec ex_interpolate) ex_pose_footprint
             Binary64.arith [ex_lanelet 1 0 20] ex_batch (ex_filtering_params 1)
             4 5); [exact Hends | lia].
  - reflexivity.
Defined.

Lemma transform_frame_witness :
  exists ext,
    transform (calcInterpolatedPose_spec ex_interpolate) ex_pose_footprint 5
      ex_car 3 1 = Some ext
    /\ ext.(ExtendedPredictedObject.uuid) = [1%Z]
    /\ length ext.(ExtendedPredictedObject.predicted_paths) = 2%nat.
Proof.
  eexists. split; [reflexivity|].
  match goal with
  | |- ExtendedPredictedObject.uuid ?e = _ /\ _ =>
      destruct (transform_frame (calcInterpolatedPose_spec ex_interpolate)
                  ex_pose_footprint 5 ex_car 3 1 e eq_refl)
        as (Huuid & _ & _ & _ & _ & Hlen)
  end.
  split; [exact Huuid | exact Hlen].
Defined.

Lemma transform_diverges_witness :
  0 <= 0 /\ 0 < 3 + (1 # 1000)
  /\ ex_car.(PredictedObject.kinematics).(PredictedObjectKinematics.predicted_paths)
     <> []
  /\ transform (calcInterpolatedPose_spec ex_interpolate) ex_pose_footprint 1000
       ex_car 3 0 = None.
Proof.
  split; [discriminate|]. split; [reflexivity|]. split; [discriminate|].
  apply (transform_diverges (calcInterpolatedPose_spec ex_interpolate)
           ex_pose_footprint ex_car 3 0 1000);
    [discriminate | reflexivity | discriminate].
Defined.



Lemma createPredictedPath_pose_ignores_floor_witness :
  exists predicted_path other_path,
    Rounded.createPredictedPath Binary64.arith ex_frenet ex_centerline_pose 12
      ex_ego_params_b64 ex_centerline (ex_pose 50 0) 5 0
    = Some predicted_path
    /\ Rounded.createPredictedPath Binary64.arith ex_frenet ex_centerline_pose
         12 (EgoPredictedPathParams.mk (-10) ex_horizon_b64 ex_resolution_b64 0)
         ex_centerline (ex_pose 50 0) 5 0
       = Some other_path
    /\ map PoseWithVelocityStamped.pose other_path
       = map PoseWithVelocityStamped.pose predicted_path.
Proof.
  eexists.
  match goal with
  | |- exists o, ?run = Some ?p /\ _ =>
      assert (Hrun : run = Some p) by (vm_compute; reflexivity);
      destruct (createPredictedPath_pose_ignores_floor ex_frenet
                  ex_centerline_pose Binary64.arith 12 ex_ego_params_b64 0
                  ex_centerline (ex_pose 50 0) 5 0 p Hrun)
        as (_ & other_path & Hother & _ & Hposes)
  end.
  exists other_path. split; [exact Hrun|]. split; [exact Hother | exact Hposes].
Defined.

Lemma createPredictedPath_diverges_witness :
  0 <= 0 /\ 0 < 3 + (1 # 1000) /\ ex_centerline <> []
  /\ createPredictedPath ex_frenet ex_centerline_pose 1000
       (EgoPredictedPathParams.mk 0 3 0 0) ex_centerline (ex_pose 0 0) 5 0
     = None.
Proof.
  split; [discriminate|]. split; [reflexivity|]. split; [discriminate|].
  apply (createPredictedPath_diverges ex_frenet ex_centerline_pose 1000
           (EgoPredictedPathParams.mk 0 3 0 0) ex_centerline (ex_pose 0 0) 5 0);
    [discriminate | reflexivity | discriminate].
Defined.

Lemma createPredictedPath_below_horizon_witness :
  -1 + (1 # 1000) <= 0
  /\ createPredictedPath ex_frenet ex_centerline_pose 1
       (EgoPredictedPathParams.mk 0 (-1) 0 0) ex_centerline (ex_pose 0 0) 5 0
     = Some [].
Proof.
  split; [discriminate|].
  apply (createPredictedPath_below_horizon ex_frenet ex_centerline_pose 0
           (EgoPredictedPathParams.mk 0 (-1) 0 0) ex_centerline (ex_pose 0 0) 5 0).
  discriminate.
Defined.


Lemma ex_creator_counts (ns : string) : (0 <= current_count ex_creator ns < 2 ^ 31)%Z.
Proof.
  unfold current_count, ex_creator. simpl.
  destruct (decide (ns = "a_stop_virtual_wall")) as [->|Hne].
  - rewrite lookup_singleton_eq. simpl. lia.
  - rewrite lookup_singleton_ne by done. simpl. lia.
Defined.

Lemma create_markers_ids_witness :
  (Z.of_nat
     (length (created_markers (ex_factory "stop") (ex_factory "slowdown")
                (ex_factory "deadline") Time.default
                ex_creator.(VirtualWallMarkerCreator.virtual_walls)))
   < 2 ^ 31)%Z
  /\ exists adds deletes,
       (create_markers (ex_factory "stop") (ex_factory "slowdown")
          (ex_factory "deadline") Time.default ex_creator).1
       = adds ++ deletes
       /\ length adds = 6%nat
       /\ (forall m, m ∈ deletes -> m.(Marker.action) = Marker.DELETE).
Proof.
  split; [reflexivity|].
  destruct (create_markers_ids (ex_factory "stop") (ex_factory "slowdown")
              (ex_factory "deadline") Time.default ex_creator)
    as (adds & deletes & Hout & Hlen & _ & _ & Hdel); [reflexivity|].
  exists adds, deletes. split_and!; assumption.
Defined.

Lemma create_markers_deletes_witness :
  (Z.of_nat
     (length (created_markers (ex_factory "stop") (ex_factory "slowdown")
                (ex_factory "deadline") Time.default
                ex_creator.(VirtualWallMarkerCreator.virtual_walls)))
   < 2 ^ 31)%Z
  /\ (forall ns, (0 <= current_count ex_creator ns < 2 ^ 31)%Z)
  /\ NoDup (drop 6
              (create_markers (ex_factory "stop") (ex_factory "slowdown")
                 (ex_factory "deadline") Time.default ex_creator).1).
Proof.
  split; [reflexivity|]. split; [exact ex_creator_counts|].
  exact (proj2 (create_markers_deletes (ex_factory "stop") (ex_factory "slowdown")
                  (ex_factory "deadline") Time.default ex_creator
                  eq_refl ex_creator_counts)).
Defined.

Lemma create_markers_idle_witness :
  ex_idle_creator.(VirtualWallMarkerCreator.virtual_walls) = []
  /\ (create_markers (ex_factory "stop") (ex_factory "slowdown")
        (ex_factory "deadline") Time.default
        (create_markers (ex_factory "stop") (ex_factory "slowdown")
           (ex_factory "deadline") Time.default ex_idle_creator).2).2
     = VirtualWallMarkerCreator.mk [] ∅.
Proof.
  split; [reflexivity|].
  exact (proj2 (proj2 (create_markers_idle (ex_factory "stop")
                         (ex_factory "slowdown") (ex_factory "deadline")
                         Time.default Time.default ex_idle_creator eq_refl))).
Defined.
